(** * go-fdo: TO2 client driver and RSA-DH key exchange

    A shallow embedding of [kex/rsadh.go] (the [RSADHSession] key-exchange
    session and its persistence) and of the TO2 client driver
    ([verifyOwner], [helloDevice], [nextOVEntry], [proveDevice],
    [readyServiceInfo], [exchangeServiceInfo]), followed by the properties
    of the TO2 specification that concern them. *)

From Stdlib Require Import ZArith NArith List String Ascii Bool Lia DecimalString.
From Stdlib Require Import Znumtheory.
From Stdlib.Strings Require Import Byte.
Import ListNotations.

Set Implicit Arguments.

(** ** Go values shared by both packages *)

Module Go.

(** [[]byte]: the nil slice and the empty slice are both the empty list;
    where the source tells them apart ([xA != nil]) an [option] is used. *)
Definition bytes := list byte.

(** The three ways a Go call ends: a value, a non-nil [error] (its
    message), or a run-time panic. *)
Inductive result (A : Type) : Type :=
| Ok (v : A)
| Err (msg : string)
| Panic (msg : string).
Arguments Ok {A} v.
Arguments Err {A} msg.
Arguments Panic {A} msg.

(** [fmt.Errorf("<prefix>: %w", err)] *)
Definition wrap (prefix msg : string) : string :=
  (prefix ++ ": " ++ msg)%string.

(** Conversion to [uint16]: wrap-around modulo 2^16. *)
Definition uint16 (z : Z) : Z := (z mod 65536)%Z.

Definition bytes_eqb (x y : bytes) : bool :=
  if list_eq_dec Byte.byte_eq_dec x y then true else false.

(** An [io.Reader] used as a source of randomness: [fill n] is what one
    [Read] call writes at the front of an [n]-byte buffer, [failure] the
    error it returns (if any).  The caller ignores the byte count, so the
    buffer keeps its zero bytes wherever the reader wrote nothing. *)
Record Reader : Type := {
  fill : nat -> bytes;
  failure : option string
}.

(** [r := make([]byte, n); rand.Read(r)]: the buffer afterwards. *)
Definition readInto (rd : Reader) (n : nat) : bytes :=
  firstn n (fill rd n ++ repeat "000"%byte n).

End Go.

Import Go.

(** ** math/big, as far as rsadh.go uses it *)

Module BigInt.

Definition byte_of_N (n : N) : byte :=
  match Byte.of_N n with
  | Some b => b
  | None => "000"%byte
  end.

(** Base-256 digits of [n], least significant first. *)
Fixpoint le_digits (fuel : nat) (n : N) : bytes :=
  match fuel with
  | O => []
  | S f =>
      if (n =? 0)%N then []
      else byte_of_N (n mod 256) :: le_digits f (n / 256)
  end.

(** [big.Int.Bytes]: the absolute value as a big-endian byte slice
    without leading zeros (empty for 0). *)
Definition Bytes (x : Z) : bytes :=
  rev (le_digits (N.to_nat (N.size (Z.abs_N x))) (Z.abs_N x)).

(** The number a little-endian digit list denotes. *)
Definition le_value (ds : bytes) : N :=
  fold_right (fun b acc => (Byte.to_N b + 256 * acc)%N) 0%N ds.

(** [big.Int.SetBytes]: the big-endian unsigned integer held in the
    slice.  Every big integer a session stores comes from here (or from
    the hexadecimal constants [prime14], [prime15]), hence has type [N]. *)
Definition SetBytes (bs : bytes) : N :=
  fold_left (fun acc b => (acc * 256 + Byte.to_N b)%N) bs 0%N.

(** [new(big.Int).Exp(x, y, m)] for an exponent [y >= 0]: [x**y mod |m|],
    and [x**y] when [m] is nil or zero.  A non-zero modulus gives a
    result in [0, m). *)
Definition Exp (x : Z) (y : N) (m : option N) : Z :=
  match m with
  | None => (x ^ Z.of_N y)%Z
  | Some m' =>
      if (m' =? 0)%N then (x ^ Z.of_N y)%Z
      else ((x ^ Z.of_N y) mod Z.of_N m')%Z
  end.

End BigInt.

(** ** Package kex: rsadh.go *)

Module Kex.

Import BigInt.

(** [CipherSuite], declared elsewhere in package kex: the three
    algorithm identifiers [rsaSymmetricKey] reads from it. *)
Record CipherSuite : Type := {
  EncryptAlg : Z;
  MacAlg : Z;
  PRFHash : Z
}.

Definition CipherSuiteID := Z.

(** [SessionCrypter], declared elsewhere in package kex and embedded in
    [RSADHSession]: the four fields rsadh.go initialises. *)
Record SessionCrypter : Type := {
  ID : CipherSuiteID;
  Cipher : CipherSuite;
  SEK : bytes;
  SVK : bytes
}.

(** [RSADHSession].  The big-integer pointer fields are [option N]: [None] is the
    nil pointer. *)
Record RSADHSession : Type := {
  s_p : option N;
  s_g : Z;
  s_paramSize : Z;
  s_a : option N;
  s_xA : option N;
  s_b : option N;
  s_xB : option N;
  s_crypter : SessionCrypter
}.

Definition set_a (s : RSADHSession) (v : option N) : RSADHSession :=
  {| s_p := s_p s; s_g := s_g s; s_paramSize := s_paramSize s;
     s_a := v; s_xA := s_xA s; s_b := s_b s; s_xB := s_xB s;
     s_crypter := s_crypter s |}.

Definition set_b (s : RSADHSession) (v : option N) : RSADHSession :=
  {| s_p := s_p s; s_g := s_g s; s_paramSize := s_paramSize s;
     s_a := s_a s; s_xA := s_xA s; s_b := v; s_xB := s_xB s;
     s_crypter := s_crypter s |}.

Definition set_xB (s : RSADHSession) (v : option N) : RSADHSession :=
  {| s_p := s_p s; s_g := s_g s; s_paramSize := s_paramSize s;
     s_a := s_a s; s_xA := s_xA s; s_b := s_b s; s_xB := v;
     s_crypter := s_crypter s |}.

(** [s.SEK, s.SVK = sek, svk] *)
Definition set_keys (s : RSADHSession) (sek svk : bytes) : RSADHSession :=
  {| s_p := s_p s; s_g := s_g s; s_paramSize := s_paramSize s;
     s_a := s_a s; s_xA := s_xA s; s_b := s_b s; s_xB := s_xB s;
     s_crypter := {| ID := ID (s_crypter s); Cipher := Cipher (s_crypter s);
                     SEK := sek; SVK := svk |} |}.

(** [rsadhPersist]: the serialized form of a session. *)
Record rsadhPersist : Type := {
  Prime : bytes;
  Generator : Z;
  ParamSize : Z;
  ParamA : bytes;
  ParamXA : bytes;
  ParamB : bytes;
  ParamXB : bytes;
  PCipher : CipherSuiteID;
  PSEK : bytes;
  PSVK : bytes
}.

(** What [log.Printf("%#v", v)] writes, as a syntax tree of the Go-syntax
    rendering.  A pointer below the top level is printed as its address,
    not as the value it points to; a byte slice is printed in full. *)
#[warnings="-register-all"]
Inductive GoSyntax : Type :=
| GsInt (z : Z)
| GsPointer (is_nil : bool)
| GsBytes (bs : bytes)
| GsOpaque
| GsField (name : string) (v : GoSyntax)
| GsStruct (type_name : string) (fields : list GoSyntax)
| GsAddrOf (v : GoSyntax).

(** The byte-slice literals that occur in a rendering. *)
Fixpoint byte_literals (v : GoSyntax) : list bytes :=
  match v with
  | GsBytes bs => [bs]
  | GsField _ v' => byte_literals v'
  | GsStruct _ fields =>
      (fix go (fs : list GoSyntax) : list bytes :=
         match fs with
         | [] => []
         | f :: fs' => byte_literals f ++ go fs'
         end) fields
  | GsAddrOf v' => byte_literals v'
  | _ => []
  end.

Definition is_nil {A : Type} (o : option A) : bool :=
  match o with None => true | Some _ => false end.

(** [%#v] of a session pointer: the unexported big-integer fields are
    nested pointers, the embedded [SessionCrypter] is a struct value
    whose [SEK] and [SVK] are byte slices. *)
Definition sharp_v (s : RSADHSession) : GoSyntax :=
  GsAddrOf (GsStruct "kex.RSADHSession"
    [ GsField "p" (GsPointer (is_nil (s_p s)));
      GsField "g" (GsInt (s_g s));
      GsField "paramSize" (GsInt (s_paramSize s));
      GsField "a" (GsPointer (is_nil (s_a s)));
      GsField "xA" (GsPointer (is_nil (s_xA s)));
      GsField "b" (GsPointer (is_nil (s_b s)));
      GsField "xB" (GsPointer (is_nil (s_xB s)));
      GsField "SessionCrypter" (GsStruct "kex.SessionCrypter"
         [ GsField "ID" (GsInt (ID (s_crypter s)));
           GsField "Cipher" (GsOpaque);
           GsField "SEK" (GsBytes (SEK (s_crypter s)));
           GsField "SVK" (GsBytes (SVK (s_crypter s))) ]) ]%string).

Section WithSuite.

(** Collaborators of rsadh.go declared elsewhere in package kex. *)

(** [CipherSuiteID.Suite] *)
Variable Suite : CipherSuiteID -> CipherSuite.
(** [KeySize] of an encryption and of a MAC algorithm, in bytes. *)
Variable EncryptKeySize : Z -> N.
Variable MacKeySize : Z -> N.
(** [kdf(hash, shSe, contextRand, bits)] *)
Variable kdf : Z -> bytes -> bytes -> Z -> result bytes.

(** The session a registered suite creates ([init], lines 31-78). *)
Definition newSession (prime : N) (size : Z) (xA : option bytes)
    (cipher : CipherSuiteID) : RSADHSession :=
  {| s_p := Some prime; s_g := 2; s_paramSize := size;
     s_a := None;
     s_xA := match xA with
             | Some bs => Some (SetBytes bs)
             | None => None
             end;
     s_b := None; s_xB := None;
     s_crypter := {| ID := cipher; Cipher := Suite cipher;
                     SEK := []; SVK := [] |} |}.

(** [rsaSymmetricKey].  [other] and [own] are dereferenced by [Exp]; a
    nil pointer there is a run-time panic. *)
Definition rsaSymmetricKey (other own p : option N) (cipher : CipherSuite)
    : result (bytes * bytes) :=
  match other, own with
  | Some other', Some own' =>
      let shSe := Bytes (Exp (Z.of_N other') own' p) in
      let sekSize := uint16 (Z.of_N (EncryptKeySize (EncryptAlg cipher))) in
      let svkSize :=
        if (MacAlg cipher =? 0)%Z then 0%Z
        else uint16 (Z.of_N (MacKeySize (MacAlg cipher))) in
      match kdf (PRFHash cipher) shSe [] (uint16 ((sekSize + svkSize) * 8)) with
      | Ok symKey =>
          if (Z.of_nat (List.length symKey) <? sekSize)%Z
          then Panic "slice bounds out of range"
          else Ok (firstn (Z.to_nat sekSize) symKey,
                   skipn (Z.to_nat sekSize) symKey)
      | Err e => Err (wrap "kdf" e)
      | Panic m => Panic m
      end
  | _, _ => Panic "invalid memory address or nil pointer dereference"
  end.

(** [RSADHSession.Parameter] (the name is reserved in Rocq) *)
Definition genParameter (s : RSADHSession) (rand : Reader)
    : RSADHSession * result bytes :=
  if (s_paramSize s <? 0)%Z then (s, Panic "makeslice: len out of range")
  else
    let r := readInto rand (Z.to_nat (s_paramSize s)) in
    match failure rand with
    | Some e => (s, Err e)
    | None =>
        let x := SetBytes r in
        let xX := Exp (s_g s) x (s_p s) in
        match s_xA s with
        | None => (set_a s (Some x), Ok (Bytes xX))
        | Some _ =>
            let s1 := set_b s (Some x) in
            match rsaSymmetricKey (s_xA s1) (s_b s1) (s_p s1)
                    (Cipher (s_crypter s1)) with
            | Ok (sek, svk) => (set_keys s1 sek svk, Ok (Bytes xX))
            | Err e => (s1, Err (wrap "error computing symmetric keys" e))
            | Panic m => (s1, Panic m)
            end
        end
    end.

(** [RSADHSession.SetParameter].  The second component is what the
    call writes to the standard logger. *)
Definition SetParameter (s : RSADHSession) (xB : bytes)
    : RSADHSession * list GoSyntax * result unit :=
  let s1 := set_xB s (Some (SetBytes xB)) in
  let logged := [sharp_v s1] in
  match rsaSymmetricKey (s_xB s1) (s_a s1) (s_p s1)
          (Cipher (s_crypter s1)) with
  | Ok (sek, svk) => (set_keys s1 sek svk, logged, Ok tt)
  | Err e => (s1, logged, Err (wrap "error computing symmetric keys" e))
  | Panic m => (s1, logged, Panic m)
  end.

(** The CBOR codec ([cbor.Marshal], [cbor.Unmarshal]) at type
    [rsadhPersist]; [Blob] stands for the encoded [[]byte]. *)
Variable Blob : Type.
Variable cbor_Marshal : rsadhPersist -> result Blob.
Variable cbor_Unmarshal : Blob -> result rsadhPersist.

Definition optBytes (o : option N) : bytes :=
  match o with
  | Some v => Bytes (Z.of_N v)
  | None => []
  end.

(** The [persist] value [MarshalCBOR] builds. *)
Definition toPersist (s : RSADHSession) (prime : N) : rsadhPersist :=
  {| Prime := Bytes (Z.of_N prime);
     Generator := s_g s;
     ParamSize := s_paramSize s;
     ParamA := optBytes (s_a s);
     ParamXA := optBytes (s_xA s);
     ParamB := optBytes (s_b s);
     ParamXB := optBytes (s_xB s);
     PCipher := ID (s_crypter s);
     PSEK := SEK (s_crypter s);
     PSVK := SVK (s_crypter s) |}.

(** [RSADHSession.MarshalCBOR]; [s.p.Bytes()] dereferences [s.p]. *)
Definition MarshalCBOR (s : RSADHSession) : result Blob :=
  match s_p s with
  | None => Panic "invalid memory address or nil pointer dereference"
  | Some prime => cbor_Marshal (toPersist s prime)
  end.

(** [if len(bs) > 0 { field = new(big.Int).SetBytes(bs) }] *)
Definition optSetBytes (bs : bytes) : option N :=
  match bs with
  | [] => None
  | _ :: _ => Some (SetBytes bs)
  end.

(** The session [UnmarshalCBOR] assigns to its receiver. *)
Definition fromPersist (persist : rsadhPersist) : RSADHSession :=
  {| s_p := Some (SetBytes (Prime persist));
     s_g := Generator persist;
     s_paramSize := ParamSize persist;
     s_a := optSetBytes (ParamA persist);
     s_xA := optSetBytes (ParamXA persist);
     s_b := optSetBytes (ParamB persist);
     s_xB := optSetBytes (ParamXB persist);
     s_crypter := {| ID := PCipher persist;
                     Cipher := Suite (PCipher persist);
                     SEK := PSEK persist;
                     SVK := PSVK persist |} |}.

(** [RSADHSession.UnmarshalCBOR] *)
Definition UnmarshalCBOR (data : Blob) : result RSADHSession :=
  match cbor_Unmarshal data with
  | Ok persist => Ok (fromPersist persist)
  | Err e => Err e
  | Panic m => Panic m
  end.

End WithSuite.

End Kex.

(** ** Package fdo: the TO2 client driver *)

Module TO2.

(** *** Message types and constants *)

Definition to2HelloDeviceMsgType : Z := 60.
Definition to2ProveOVHdrMsgType : Z := 61.
Definition to2GetOVNextEntryMsgType : Z := 62.
Definition to2OVNextEntryMsgType : Z := 63.
Definition to2ProveDeviceMsgType : Z := 64.
Definition to2SetupDeviceMsgType : Z := 65.
Definition to2DeviceServiceInfoReadyMsgType : Z := 66.
Definition to2OwnerServiceInfoReadyMsgType : Z := 67.
Definition to2DeviceServiceInfoMsgType : Z := 68.
Definition to2OwnerServiceInfoMsgType : Z := 69.
Definition to2DoneMsgType : Z := 70.
Definition to2Done2MsgType : Z := 71.

(** Modelled from the spec: [ErrorMsgType], declared outside the driver
    file ("Message type 255 is reserved as Error"). *)
Definition ErrorMsgType : Z := 255.

(** Modelled from the spec: [serviceinfo.DefaultMTU], declared in package
    serviceinfo ("default MTU = 1300 bytes when absent"). *)
Definition DefaultMTU : Z := 1300.

Definition to2NonceClaim : Z := 256.
Definition to2OwnerPubKeyClaim : Z := 257.

(** Algorithm identifiers and the sentinel error, declared elsewhere in
    the module (their values are those of the FDO and COSE registries). *)
Definition HmacSha256Hash : Z := 5.
Definition HmacSha384Hash : Z := 6.
Definition ES384Alg : Z := -35.
Definition ErrCryptoVerifyFailed : string := "cryptographic verification failed".

(** *** Data model

    The types below are declared in other files of package fdo and in
    packages cose and serviceinfo.  Modelled from the spec: their fields
    are those of the data model of the TO2 specification, under the names
    the driver uses for them. *)

(** [Nonce] and [GUID] are 16-byte arrays, compared byte by byte. *)
Definition Nonce := bytes.
Definition GUID := bytes.
Definition RvInstruction := bytes.

Record Hash : Type := { Algorithm : Z; Value : bytes }.
Definition Hmac := Hash.

Record PublicKey : Type := { KeyType : Z; Encoding : Z; Body : bytes }.

Record sigInfo : Type := { SigType : Z; SigInfoBytes : bytes }.

Record VoucherHeader : Type := {
  Version : Z;
  vh_GUID : GUID;
  RvInfo : list (list RvInstruction);
  DeviceInfo : string;
  ManufacturerKey : PublicKey;
  CertChainHash : option Hash
}.

Record VoucherEntryPayload : Type := {
  PreviousHash : Hash;
  HeaderHash : Hash;
  Extra : option bytes;
  ve_PublicKey : PublicKey
}.

(** [cose.Sign1Tag[T]]: [Unprotected] maps a label to raw CBOR, [Payload]
    is a pointer ([None] is nil). *)
Record Sign1 (T : Type) : Type := {
  Protected : list (Z * bytes);
  Unprotected : list (Z * bytes);
  Payload : option T;
  Signature : bytes
}.

(** Indexing a Go map: the zero value (nil bytes) for a missing label. *)
Fixpoint lookup (label : Z) (m : list (Z * bytes)) : bytes :=
  match m with
  | [] => []
  | (k, v) :: m' => if (k =? label)%Z then v else lookup label m'
  end.

Record Voucher : Type := {
  Header : VoucherHeader;
  v_Hmac : Hmac;
  Entries : list (Sign1 VoucherEntryPayload)
}.

Record DeviceCredential : Type := {
  cred_GUID : GUID;
  PublicKeyHash : Hash
}.

Record to2Context : Type := {
  ProveDvNonce : Nonce;
  SetupDvNonce : Nonce;
  ctx_PublicKey : PublicKey;
  OVH : VoucherHeader;
  OVHHmac : Hmac;
  NumVoucherEntries : Z;
  SigInfo : sigInfo;
  KexSuiteName : string;
  KeyExchangeA : bytes;
  MaxDeviceMessageSize : Z;
  MaxOwnerMessageSize : Z
}.

(** [info.SetupDvNonce = setupDeviceNonce] *)
Definition set_SetupDvNonce (info : to2Context) (n : Nonce) : to2Context :=
  {| ProveDvNonce := ProveDvNonce info; SetupDvNonce := n;
     ctx_PublicKey := ctx_PublicKey info; OVH := OVH info;
     OVHHmac := OVHHmac info; NumVoucherEntries := NumVoucherEntries info;
     SigInfo := SigInfo info; KexSuiteName := KexSuiteName info;
     KeyExchangeA := KeyExchangeA info;
     MaxDeviceMessageSize := MaxDeviceMessageSize info;
     MaxOwnerMessageSize := MaxOwnerMessageSize info |}.

(** [serviceinfo.KV] *)
Record KV : Type := { Key : string; Val : bytes }.

Record sendServiceInfo : Type := {
  s_IsMoreServiceInfo : bool;
  s_ServiceInfo : list KV
}.

Record recvServiceInfo : Type := {
  r_IsMoreServiceInfo : bool;
  r_IsDone : bool;
  r_ServiceInfo : list KV
}.

(** The payload of TO2.ProveOVHdr ([helloDevice], lines 167-176). *)
Record ProveOVHdrPayload : Type := {
  p_OVH : VoucherHeader;
  NumOVEntries : Z;
  p_OVHHmac : Hmac;
  p_NonceTO2ProveOV : Nonce;
  SigInfoB : sigInfo;
  p_KeyExchangeA : bytes;
  HelloDeviceHash : Hash;
  p_MaxOwnerMessageSize : Z
}.

(** The payload of TO2.SetupDevice ([proveDevice], lines 332-337). *)
Record SetupDevicePayload : Type := {
  sd_RendezvousInfo : list (list RvInstruction);
  sd_GUID : GUID;
  NonceTO2SetupDv : Nonce;
  Owner2Key : PublicKey
}.

(** The EAT payload of TO2.ProveDevice and the token [newEAT] builds
    around it. *)
Record eatPayload : Type := { KeyExchangeB : option bytes }.

(** Modelled from the spec: the token returned by [newEAT(guid, nonce,
    fdo, nil)], declared outside the driver file: it carries the GUID,
    the payload nonce and the FDO payload it is given. *)
Record eatoken : Type := {
  eat_GUID : GUID;
  eat_Nonce : Nonce;
  eat_FDO : eatPayload
}.

Definition newEAT (guid : GUID) (nonce : Nonce) (fdo : eatPayload) : eatoken :=
  {| eat_GUID := guid; eat_Nonce := nonce; eat_FDO := fdo |}.

(** The header [cose.NewHeader(nil, {eatUnprotectedNonceClaim: nonce})]
    and the signed token sent in TO2.ProveDevice. *)
Record ProveDeviceToken : Type := {
  tok_UnprotectedNonce : Nonce;
  tok_Payload : eatoken;
  tok_Signature : bytes
}.

(** *** Requests handed to [Transport.Send] *)

Inductive Request : Type :=
| HelloDeviceMsg (MaxDeviceMessageSize : Z) (guid : GUID)
    (NonceTO2ProveOV : Nonce) (KexSuiteName : string) (CipherSuite : Z)
    (SigInfoA : sigInfo)
| GetOVNextEntryMsg (OVEntryNum : Z)
| ProveDeviceMsg (token : ProveDeviceToken)
| DeviceServiceInfoReadyMsg (hmac : Hmac) (MaxOwnerServiceInfoSize : Z)
| DeviceServiceInfoMsg (msg : sendServiceInfo)
| DoneMsg (NonceTO2ProveDv : Nonce).

(** What [Transport.Send] returns: the response's message type and its
    undecoded body. *)
Record Response : Type := { typ : Z; body : bytes }.

Definition History := list (Z * Request).

(** [Client].  The interface-typed fields ([Transport], [Hmac], [Key])
    are the functions they provide; the transport answers the latest
    request knowing everything sent so far. *)
Record Client : Type := {
  Transport_Send : History -> result Response;
  Cred : DeviceCredential;
  Hmac_Supports : Z -> bool;
  Hmac_Hmac : Z -> VoucherHeader -> result Hmac;
  Key_Sign : Nonce -> eatoken -> result bytes;
  PSS : bool;
  MaxServiceInfoSizeReceive : Z
}.

(** [ReadChunk] on the device service-info pipe. *)
Inductive ReadChunkResult : Type :=
| Chunk (kv : KV)
| EOF
| ErrSizeTooSmall
| ReadError (msg : string).

(** Everything the driver calls that lives in other files and packages:
    key parsing and comparison, COSE verification, voucher verification,
    CBOR decoding, [crypto/rand], the service-info pipes and the
    [context.Context].  The pipe, clock and randomness oracles take the
    number of such calls made so far. *)
Record Deps : Type := {
  CryptoKey : Type;
  Public : PublicKey -> result CryptoKey;
  Equal : CryptoKey -> CryptoKey -> bool;
  Verify : Sign1 ProveOVHdrPayload -> CryptoKey -> result bool;
  VerifyHeader : Voucher -> Client -> option string;
  VerifyManufacturerKey : Voucher -> Hash -> option string;
  VerifyEntries : Voucher -> option string;
  signOptsFor : Client -> option string;
  NewHeader : Nonce -> option string;
  decodeProveOVHdr : bytes -> result (Sign1 ProveOVHdrPayload);
  decodeOVNextEntry : bytes -> result (Z * Sign1 VoucherEntryPayload);
  decodeSetupDevice : bytes -> result (Sign1 SetupDevicePayload);
  decodeOwnerServiceInfoReady : bytes -> result (option Z);
  decodeOwnerServiceInfo : bytes -> result recvServiceInfo;
  decodeDone2 : bytes -> result Nonce;
  decodeErrorMessage : bytes -> result string;
  unmarshalNonce : bytes -> result Nonce;
  unmarshalPublicKey : bytes -> result PublicKey;
  rand : nat -> Reader;
  ReadChunk : nat -> Z -> ReadChunkResult;
  WriteChunk : nat -> KV -> option string;
  CloseWriter : nat -> option string;
  kvSize : KV -> Z;
  ctxDone : nat -> option string
}.

(** *** The driver's effects

    The state threaded through the driver: the messages handed to the
    transport so far (oldest first) and the number of oracle calls. *)
Record State : Type := {
  sent : History;
  tick : nat
}.

Definition M (A : Type) : Type := State -> State * result A.

Definition ret {A : Type} (v : A) : M A := fun st => (st, Ok v).

Definition fail {A : Type} (msg : string) : M A := fun st => (st, Err msg).

Definition bind {A B : Type} (m : M A) (k : A -> M B) : M B :=
  fun st =>
    match m st with
    | (st', Ok v) => k v st'
    | (st', Err e) => (st', Err e)
    | (st', Panic e) => (st', Panic e)
    end.

(** Lift a call that has no effect on the state. *)
Definition lift {A : Type} (r : result A) : M A := fun st => (st, r).

(** [if err != nil { return fmt.Errorf("<prefix>: %w", err) }] *)
Definition wrapErr {A : Type} (prefix : string) (m : M A) : M A :=
  fun st =>
    match m st with
    | (st', Err e) => (st', Err (wrap prefix e))
    | other => other
    end.

(** [if err := f(); err != nil { return fmt.Errorf(...) }] *)
Definition check (prefix : string) (e : option string) : M unit :=
  match e with
  | Some msg => fail (wrap prefix msg)
  | None => ret tt
  end.

(** [%d] of a message type *)
Definition showZ (z : Z) : string := NilZero.string_of_int (Z.to_int z).

Declare Scope to2_scope.
Delimit Scope to2_scope with to2.
Notation "x <- m ;; k" := (bind m (fun x => k))
  (at level 61, m at next level, right associativity) : to2_scope.
Local Open Scope to2_scope.
Local Open Scope string_scope.
Local Open Scope Z_scope.

Section Driver.

Variable d : Deps.
Variable c : Client.

(** [c.Transport.Send(ctx, baseURL, msgType, msg)] *)
Definition Send (msgType : Z) (msg : Request) : M Response :=
  fun st =>
    let h := (sent st ++ [(msgType, msg)])%list in
    ({| sent := h; tick := tick st |}, Transport_Send c h).

(** [var n Nonce; rand.Read(n[:])] *)
Definition newNonce : M Nonce :=
  fun st =>
    let rd := rand d (tick st) in
    let st' := {| sent := sent st; tick := S (tick st) |} in
    match failure rd with
    | Some e => (st', Err e)
    | None => (st', Ok (readInto rd 16))
    end.

(** Dereferencing a pointer field. *)
Definition deref {A : Type} (ptr : option A) : M A :=
  match ptr with
  | Some v => ret v
  | None => lift (Panic "invalid memory address or nil pointer dereference")
  end.

(** [case ErrorMsgType:] of every response switch. *)
Definition errorResponse {A : Type} (parseMsg recvMsg : string)
    (resp : Response) : M A :=
  errMsg <- wrapErr parseMsg (lift (decodeErrorMessage d (body resp))) ;;
  fail (wrap recvMsg errMsg).

(** [default:] of every response switch. *)
Definition unexpectedType {A : Type} (request : string) (resp : Response)
    : M A :=
  fail ("unexpected message type for response to " ++ request ++ ": "
        ++ showZ (typ resp)).

(** HelloDevice(60) -> ProveOVHdr(61) *)
Definition helloDevice : M to2Context :=
  helloNonce <-
    wrapErr "error generating new nonce for TO2.HelloDevice request" newNonce ;;
  let MaxDeviceMessageSize' := 0 in
  let KexSuiteName' := "" in
  resp <- Send to2HelloDeviceMsgType
            (HelloDeviceMsg MaxDeviceMessageSize' (cred_GUID (Cred c))
               helloNonce KexSuiteName' 0
               {| SigType := ES384Alg; SigInfoBytes := [] |}) ;;
  proveOVHdr <-
    (if typ resp =? to2ProveOVHdrMsgType then
       wrapErr "error parsing TO2.ProveOVHdr contents"
         (lift (decodeProveOVHdr d (body resp)))
     else if typ resp =? ErrorMsgType then
       errorResponse
         "error parsing error message contents of TO2.HelloDevice response"
         "error received from TO2.HelloDevice request" resp
     else unexpectedType "TO2.HelloDevice" resp) ;;
  cuphNonce <-
    match lookup to2NonceClaim (Unprotected proveOVHdr) with
    | [] => fail "nonce unprotected header missing from TO2.ProveOVHdr response message"
    | cuphNonceBytes =>
        wrapErr "nonce unprotected header from TO2.ProveOVHdr could not be unmarshaled"
          (lift (unmarshalNonce d cuphNonceBytes))
    end ;;
  ownerPubKey <-
    match lookup to2OwnerPubKeyClaim (Unprotected proveOVHdr) with
    | [] => fail "owner pubkey unprotected header missing from TO2.ProveOVHdr response message"
    | ownerPubKeyBytes =>
        wrapErr "owner pubkey unprotected header from TO2.ProveOVHdr could not be unmarshaled"
          (lift (unmarshalPublicKey d ownerPubKeyBytes))
    end ;;
  key <-
    wrapErr "error parsing owner public key to verify TO2.ProveOVHdr payload signature"
      (lift (Public d ownerPubKey)) ;;
  ok <- wrapErr "error verifying TO2.ProveOVHdr payload signature"
          (lift (Verify d proveOVHdr key)) ;;
  if negb ok then
    fail (wrap ErrCryptoVerifyFailed
            "TO2.ProveOVHdr payload signature verification failed")
  else
    payload <- deref (Payload proveOVHdr) ;;
    if negb (bytes_eqb (p_NonceTO2ProveOV payload) helloNonce) then
      fail "nonce in TO2.ProveOVHdr did not match nonce sent in TO2.HelloDevice"
    else
      ret {| ProveDvNonce := cuphNonce;
             SetupDvNonce := repeat "000"%byte 16;
             ctx_PublicKey := ownerPubKey;
             OVH := p_OVH payload;
             OVHHmac := p_OVHHmac payload;
             NumVoucherEntries := NumOVEntries payload;
             SigInfo := SigInfoB payload;
             KexSuiteName := KexSuiteName';
             KeyExchangeA := p_KeyExchangeA payload;
             MaxDeviceMessageSize := MaxDeviceMessageSize';
             MaxOwnerMessageSize := p_MaxOwnerMessageSize payload |}.

(** GetOVNextEntry(62) -> OVNextEntry(63) *)
Definition nextOVEntry (i : Z) : M (Sign1 VoucherEntryPayload) :=
  resp <- wrapErr "error sending TO2.GetOVNextEntry"
            (Send to2GetOVNextEntryMsgType (GetOVNextEntryMsg i)) ;;
  if typ resp =? to2OVNextEntryMsgType then
    ovNextEntry <- wrapErr "error parsing TO2.OVNextEntry contents"
                     (lift (decodeOVNextEntry d (body resp))) ;;
    let j := fst ovNextEntry in
    if negb (j =? i) then
      fail ("TO2.OVNextEntry message contained entry number " ++ showZ j
            ++ ", requested " ++ showZ i)
    else ret (snd ovNextEntry)
  else if typ resp =? ErrorMsgType then
    errorResponse
      "error parsing error message contents of TO2.GetOVNextEntry response"
      "error received from TO2.GetOVNextEntry request" resp
  else unexpectedType "TO2.GetOVNextEntry" resp.

(** [for i := 0; i < info.NumVoucherEntries; i++] of [verifyOwner]:
    [n] iterations remain, the next index is [i]. *)
Fixpoint fetchEntries (n : nat) (i : Z)
    (entries : list (Sign1 VoucherEntryPayload))
    : M (list (Sign1 VoucherEntryPayload)) :=
  match n with
  | O => ret entries
  | S n' =>
      entry <- nextOVEntry i ;;
      fetchEntries n' (i + 1) (entries ++ [entry])%list
  end.

(** [ov.Entries[len(ov.Entries)-1]] *)
Definition lastEntry (entries : list (Sign1 VoucherEntryPayload))
    : M (Sign1 VoucherEntryPayload) :=
  match nth_error entries (List.length entries - 1) with
  | Some e => ret e
  | None => lift (Panic "index out of range [-1]")
  end.

(** The verification half of [verifyOwner] (lines 81-124). *)
Definition verifyVoucher (info : to2Context)
    (entries : list (Sign1 VoucherEntryPayload)) : M to2Context :=
  let ov := {| Header := OVH info; v_Hmac := OVHHmac info;
               Entries := entries |} in
  _ <- check "bad ownership voucher header from TO2.ProveOVHdr"
         (VerifyHeader d ov c) ;;
  _ <- check "bad ownership voucher header from TO2.ProveOVHdr"
         (VerifyManufacturerKey d ov (PublicKeyHash (Cred c))) ;;
  _ <- check "bad ownership voucher entries from TO2.ProveOVHdr"
         (VerifyEntries d ov) ;;
  tail <- lastEntry (Entries ov) ;;
  tailPayload <- deref (Payload tail) ;;
  expectedOwnerPub <-
    wrapErr "error parsing last public key of ownership voucher"
      (lift (Public d (ve_PublicKey tailPayload))) ;;
  ownerPub <-
    wrapErr "error parsing public key of owner service"
      (lift (Public d (ctx_PublicKey info))) ;;
  if negb (Equal d ownerPub expectedOwnerPub) then
    fail "owner public key did not match last entry in ownership voucher"
  else ret info.

(** [verifyOwner] *)
Definition verifyOwner : M to2Context :=
  info <- helloDevice ;;
  if NumVoucherEntries info =? 0 then
    fail "ownership voucher cannot have zero entries"
  else
    entries <- fetchEntries (Z.to_nat (NumVoucherEntries info)) 0 [] ;;
    verifyVoucher info entries.

(** The body of [proveDevice] after the nonce is stored in [info]
    (lines 297-362). *)
Definition proveDeviceExchange (info : to2Context)
    (setupDeviceNonce : Nonce) : M VoucherHeader :=
  let eatPayload' := {| KeyExchangeB := None |} in
  _ <- check "error creating header for EAT int TO2.ProveDevice"
         (NewHeader d setupDeviceNonce) ;;
  let token := newEAT (cred_GUID (Cred c)) (ProveDvNonce info) eatPayload' in
  _ <- check "error determining signing options for TO2.ProveDevice"
         (signOptsFor d c) ;;
  signature <- wrapErr "error signing EAT payload for TO2.ProveDevice"
                 (lift (Key_Sign c setupDeviceNonce token)) ;;
  let msg := {| tok_UnprotectedNonce := setupDeviceNonce;
                tok_Payload := token;
                tok_Signature := signature |} in
  resp <- wrapErr "error sending TO2.ProveDevice"
            (Send to2ProveDeviceMsgType (ProveDeviceMsg msg)) ;;
  if typ resp =? to2SetupDeviceMsgType then
    setupDevice <- wrapErr "error parsing TO2.SetupDevice contents"
                     (lift (decodeSetupDevice d (body resp))) ;;
    payload <- deref (Payload setupDevice) ;;
    if negb (bytes_eqb (NonceTO2SetupDv payload) setupDeviceNonce) then
      fail "nonce in TO2.SetupDevice did not match nonce sent in TO2.ProveDevice"
    else
      ret {| Version := Version (OVH info);
             vh_GUID := sd_GUID payload;
             RvInfo := sd_RendezvousInfo payload;
             DeviceInfo := DeviceInfo (OVH info);
             ManufacturerKey := Owner2Key payload;
             CertChainHash := CertChainHash (OVH info) |}
  else if typ resp =? ErrorMsgType then
    errorResponse
      "error parsing error message contents of TO2.ProveDevice response"
      "error received from TO2.ProveDevice request" resp
  else unexpectedType "TO2.ProveDevice" resp.

(** ProveDevice(64) -> SetupDevice(65).  [info] is a pointer: the
    caller sees [info.SetupDvNonce] updated whatever the outcome, so the
    context comes back next to the result. *)
Definition proveDevice (info : to2Context)
    : State -> State * (to2Context * result VoucherHeader) :=
  fun st =>
    match wrapErr "error generating new nonce for TO2.ProveDevice request"
            newNonce st with
    | (st1, Ok setupDeviceNonce) =>
        let info' := set_SetupDvNonce info setupDeviceNonce in
        let (st2, r) := proveDeviceExchange info' setupDeviceNonce st1 in
        (st2, (info', r))
    | (st1, Err e) => (st1, (info, Err e))
    | (st1, Panic e) => (st1, (info, Panic e))
    end.

(** DeviceServiceInfoReady(66) -> OwnerServiceInfoReady(67) *)
Definition readyServiceInfo (replacementOVH : VoucherHeader) : M Z :=
  replacementHmac <-
    wrapErr "error computing HMAC of ownership voucher header"
      (lift (if Hmac_Supports c HmacSha384Hash
             then Hmac_Hmac c HmacSha384Hash replacementOVH
             else Hmac_Hmac c HmacSha256Hash replacementOVH)) ;;
  let MaxOwnerServiceInfoSize := MaxServiceInfoSizeReceive c in
  let MaxOwnerServiceInfoSize :=
    if MaxOwnerServiceInfoSize =? 0 then DefaultMTU
    else MaxOwnerServiceInfoSize in
  resp <- wrapErr "error sending TO2.DeviceServiceInfoReady"
            (Send to2DeviceServiceInfoReadyMsgType
               (DeviceServiceInfoReadyMsg replacementHmac
                  MaxOwnerServiceInfoSize)) ;;
  if typ resp =? to2OwnerServiceInfoReadyMsgType then
    ownerServiceInfoReady <-
      wrapErr "error parsing TO2.OwnerServiceInfoReady contents"
        (lift (decodeOwnerServiceInfoReady d (body resp))) ;;
    match ownerServiceInfoReady with
    | None => ret DefaultMTU
    | Some MaxDeviceServiceInfoSize => ret MaxDeviceServiceInfoSize
    end
  else if typ resp =? ErrorMsgType then
    errorResponse
      "error parsing error message contents of TO2.OwnerServiceInfoReady response"
      "error received from TO2.DeviceServiceInfoReady request" resp
  else unexpectedType "TO2.DeviceServiceInfoReady" resp.

(** One call of an oracle that may fail: [e] is its error at the
    current tick. *)
Definition oracle (e : nat -> option string) : M unit :=
  fun st =>
    let st' := {| sent := sent st; tick := S (tick st) |} in
    match e (tick st) with
    | Some msg => (st', Err msg)
    | None => (st', Ok tt)
    end.

(** DeviceServiceInfo(68) -> OwnerServiceInfo(69).  The five-second
    wait is the [ctxDone] oracle: either the context is cancelled
    during it or it elapses. *)
Definition deviceServiceInfo (msg : sendServiceInfo) : M recvServiceInfo :=
  _ <- (if (List.length (s_ServiceInfo msg) =? 0)%nat
        then oracle (ctxDone d) else ret tt) ;;
  resp <- wrapErr "error sending TO2.DeviceServiceInfo"
            (Send to2DeviceServiceInfoMsgType (DeviceServiceInfoMsg msg)) ;;
  if typ resp =? to2OwnerServiceInfoMsgType then
    wrapErr "error parsing TO2.OwnerServiceInfo contents"
      (lift (decodeOwnerServiceInfo d (body resp)))
  else if typ resp =? ErrorMsgType then
    errorResponse
      "error parsing error message contents of TO2.OwnerServiceInfo response"
      "error received from TO2.DeviceServiceInfo request" resp
  else unexpectedType "TO2.DeviceServiceInfo" resp.

(** The loops of the service-info exchange need not terminate (the
    owner may never report [IsDone]); they run on fuel, and [None] is a
    run that has not returned when the fuel is spent. *)
Definition MF (A : Type) : Type := State -> option (State * result A).

(** The read loop of [exchangeServiceInfoRound] (lines 551-565);
    [maxRead] is a [uint16]. *)
Fixpoint readChunks (fuel : nat) (maxRead : Z) (msg : sendServiceInfo)
    : MF sendServiceInfo :=
  fun st =>
    match fuel with
    | O => None
    | S fuel' =>
        let st' := {| sent := sent st; tick := S (tick st) |} in
        match ReadChunk d (tick st) maxRead with
        | EOF => Some (st', Ok msg)
        | ErrSizeTooSmall =>
            Some (st', Ok {| s_IsMoreServiceInfo := true;
                             s_ServiceInfo := s_ServiceInfo msg |})
        | ReadError e =>
            Some (st', Err (wrap "error reading KV to send to owner" e))
        | Chunk chunk =>
            readChunks fuel' (uint16 (maxRead - kvSize d chunk))
              {| s_IsMoreServiceInfo := s_IsMoreServiceInfo msg;
                 s_ServiceInfo := (s_ServiceInfo msg ++ [chunk])%list |}
              st'
        end
    end.

(** [for _, kv := range ownerServiceInfo.ServiceInfo] (lines 574-579);
    the result of [CloseWithError] is discarded by the source. *)
Fixpoint writeChunks (kvs : list KV) : M unit :=
  match kvs with
  | [] => ret tt
  | kv :: kvs' =>
      _ <- wrapErr "error piping owner service info to FSIM"
             (oracle (fun n => WriteChunk d n kv)) ;;
      writeChunks kvs'
  end.

(** [exchangeServiceInfoRound].  The deferred [w.Close()] discards its
    result. *)
Fixpoint exchangeServiceInfoRound (fuel : nat) (mtu : Z) : MF bool :=
  fun st =>
    match fuel with
    | O => None
    | S fuel' =>
        match readChunks fuel' mtu
                {| s_IsMoreServiceInfo := false; s_ServiceInfo := [] |} st with
        | None => None
        | Some (st1, Err e) => Some (st1, Err e)
        | Some (st1, Panic e) => Some (st1, Panic e)
        | Some (st1, Ok msg) =>
            match (ownerServiceInfo <- deviceServiceInfo msg ;;
                   _ <- writeChunks (r_ServiceInfo ownerServiceInfo) ;;
                   _ <- (if negb (r_IsMoreServiceInfo ownerServiceInfo)
                         then wrapErr "error closing owner service info -> FSIM pipe"
                                (oracle (CloseWriter d))
                         else ret tt) ;;
                   ret ownerServiceInfo) st1 with
            | (st2, Err e) => Some (st2, Err e)
            | (st2, Panic e) => Some (st2, Panic e)
            | (st2, Ok ownerServiceInfo) =>
                if s_IsMoreServiceInfo msg
                   || r_IsMoreServiceInfo ownerServiceInfo
                then exchangeServiceInfoRound fuel' mtu st2
                else Some (st2, Ok (r_IsDone ownerServiceInfo))
            end
        end
    end.

(** The [for] loop of [exchangeServiceInfo] (lines 432-455).  The
    goroutine [handleFSIMs] runs behind the pipe oracles. *)
Fixpoint serviceInfoLoop (fuel : nat) (mtu : Z) : MF unit :=
  fun st =>
    match fuel with
    | O => None
    | S fuel' =>
        match exchangeServiceInfoRound fuel' mtu st with
        | None => None
        | Some (st1, Err e) => Some (st1, Err e)
        | Some (st1, Panic e) => Some (st1, Panic e)
        | Some (st1, Ok done) =>
            if done then Some (st1, Ok tt)
            else serviceInfoLoop fuel' mtu st1
        end
    end.

(** Done(70) -> Done2(71): the end of [exchangeServiceInfo]
    (lines 457-494). *)
Definition sendDone (proveDvNonce setupDvNonce : Nonce) : M unit :=
  resp <- wrapErr "error sending TO2.Done"
            (Send to2DoneMsgType (DoneMsg proveDvNonce)) ;;
  if typ resp =? to2OVNextEntryMsgType then
    done2 <- wrapErr "error parsing TO2.Done2 contents"
               (lift (decodeDone2 d (body resp))) ;;
    if negb (bytes_eqb done2 setupDvNonce) then
      fail "nonce received in TO2.Done2 message did not match nonce received in TO2.SetupDevice"
    else ret tt
  else if typ resp =? ErrorMsgType then
    errorResponse
      "error parsing error message contents of TO2.Done response"
      "error received from TO2.Done request" resp
  else unexpectedType "TO2.Done" resp.

(** [exchangeServiceInfo] *)
Definition exchangeServiceInfo (fuel : nat)
    (proveDvNonce setupDvNonce : Nonce) (mtu : Z) : MF unit :=
  fun st =>
    match serviceInfoLoop fuel mtu st with
    | None => None
    | Some (st1, Ok _) => Some (sendDone proveDvNonce setupDvNonce st1)
    | Some (st1, Err e) => Some (st1, Err e)
    | Some (st1, Panic e) => Some (st1, Panic e)
    end.

End Driver.

End TO2.

(** ** Small concrete instances

    A toy cipher suite, key-derivation function and codec, on which the
    definitions above can be run. *)

Module KexFixture.

Import BigInt Kex.
Local Open Scope Z_scope.

Definition toySuite (id : CipherSuiteID) : CipherSuite :=
  {| EncryptAlg := id; MacAlg := 5; PRFHash := 16 |}.

Definition toyEncryptKeySize (alg : Z) : N := 2%N.
Definition toyMacKeySize (alg : Z) : N := 1%N.

(** Pads or cuts the shared secret to the requested number of bits. *)
Definition toyKdf (hash : Z) (shSe contextRand : bytes) (bits : Z)
    : result bytes :=
  let n := Z.to_nat (bits / 8) in
  Ok (firstn n (shSe ++ repeat "000"%byte n)).

(** The identity codec: the encoded form is the value itself. *)
Definition idMarshal (persist : rsadhPersist) : result rsadhPersist :=
  Ok persist.
Definition idUnmarshal (data : rsadhPersist) : result rsadhPersist :=
  Ok data.

Definition fixedReader (bs : bytes) : Reader :=
  {| fill := fun _ => bs; failure := None |}.

(** A session of a suite over the prime 23 with one-byte secrets. *)
Definition toySession (xA : option bytes) : RSADHSession :=
  newSession toySuite 23%N 1 xA 1.

(** The same session after a completed exchange. *)
Definition completedSession : RSADHSession :=
  set_keys (set_xB (set_a (toySession None) (Some 6%N)) (Some 16%N))
    ["001"%byte; "002"%byte] ["003"%byte].

End KexFixture.

Module TO2Fixture.

Import TO2.
Local Open Scope string_scope.
Local Open Scope Z_scope.

Definition zeroNonce : Nonce := repeat "000"%byte 16.

Definition keyOne : PublicKey :=
  {| KeyType := 10; Encoding := 1; Body := ["001"%byte] |}.
Definition keyTwo : PublicKey :=
  {| KeyType := 10; Encoding := 1; Body := ["002"%byte] |}.

Definition toyHash : Hash := {| Algorithm := 47; Value := [] |}.

Definition toyHeader : VoucherHeader :=
  {| Version := 101; vh_GUID := ["007"%byte]; RvInfo := [];
     DeviceInfo := "device"; ManufacturerKey := keyOne;
     CertChainHash := Some toyHash |}.

Definition toyEntry (key : PublicKey) : Sign1 VoucherEntryPayload :=
  {| Protected := []; Unprotected := [];
     Payload := Some {| PreviousHash := toyHash; HeaderHash := toyHash;
                        Extra := None; ve_PublicKey := key |};
     Signature := [] |}.

Definition toyProveOVHdr (entries : Z) : Sign1 ProveOVHdrPayload :=
  {| Protected := [];
     Unprotected := [(to2NonceClaim, ["011"%byte]);
                     (to2OwnerPubKeyClaim, ["012"%byte])];
     Payload := Some {| p_OVH := toyHeader; NumOVEntries := entries;
                        p_OVHHmac := toyHash;
                        p_NonceTO2ProveOV := zeroNonce;
                        SigInfoB := {| SigType := ES384Alg; SigInfoBytes := [] |};
                        p_KeyExchangeA := ["018"%byte];
                        HelloDeviceHash := toyHash;
                        p_MaxOwnerMessageSize := 0 |};
     Signature := [] |}.

Definition toySetupDevice : Sign1 SetupDevicePayload :=
  {| Protected := []; Unprotected := [];
     Payload := Some {| sd_RendezvousInfo := [[["005"%byte]]];
                        sd_GUID := ["009"%byte];
                        NonceTO2SetupDv := zeroNonce;
                        Owner2Key := keyTwo |};
     Signature := [] |}.

(** Collaborators that accept everything; the ProveOVHdr response
    announces [entries] voucher entries, the voucher's only entry names
    [tailKey], and the owner key in the header is [keyOne]. *)
Definition toyDeps (entries : Z) (tailKey : PublicKey) : Deps :=
  {| CryptoKey := bytes;
     Public := fun key => Ok (Body key);
     Equal := bytes_eqb;
     Verify := fun _ _ => Ok true;
     VerifyHeader := fun _ _ => None;
     VerifyManufacturerKey := fun _ _ => None;
     VerifyEntries := fun _ => None;
     signOptsFor := fun _ => None;
     NewHeader := fun _ => None;
     decodeProveOVHdr := fun _ => Ok (toyProveOVHdr entries);
     decodeOVNextEntry := fun _ => Ok (0, toyEntry tailKey);
     decodeSetupDevice := fun _ => Ok toySetupDevice;
     decodeOwnerServiceInfoReady := fun _ => Ok None;
     decodeOwnerServiceInfo := fun _ =>
       Ok {| r_IsMoreServiceInfo := false; r_IsDone := true;
             r_ServiceInfo := [] |};
     decodeDone2 := fun body => Ok body;
     decodeErrorMessage := fun _ => Ok "error";
     unmarshalNonce := fun bs => Ok bs;
     unmarshalPublicKey := fun _ => Ok keyOne;
     rand := fun _ => {| fill := fun _ => []; failure := None |};
     ReadChunk := fun _ _ => EOF;
     WriteChunk := fun _ _ => None;
     CloseWriter := fun _ => None;
     kvSize := fun kv => Z.of_nat (List.length (Val kv));
     ctxDone := fun _ => None |}.

(** A transport that answers every request with the message type that
    follows it, and TO2.Done with [doneType]; every body is the zero
    nonce. *)
Definition toyTransport (doneType : Z) (h : History) : result Response :=
  match last (map fst h) 0 with
  | 60 => Ok {| typ := 61; body := zeroNonce |}
  | 62 => Ok {| typ := 63; body := zeroNonce |}
  | 64 => Ok {| typ := 65; body := zeroNonce |}
  | 66 => Ok {| typ := 67; body := zeroNonce |}
  | 68 => Ok {| typ := 69; body := zeroNonce |}
  | 70 => Ok {| typ := doneType; body := zeroNonce |}
  | _ => Err "connection refused"
  end.

Definition toyClient (doneType maxReceive : Z) : Client :=
  {| Transport_Send := toyTransport doneType;
     Cred := {| cred_GUID := ["007"%byte]; PublicKeyHash := toyHash |};
     Hmac_Supports := fun _ => true;
     Hmac_Hmac := fun alg _ => Ok {| Algorithm := alg; Value := [] |};
     Key_Sign := fun _ _ => Ok ["042"%byte];
     PSS := false;
     MaxServiceInfoSizeReceive := maxReceive |}.

Definition start : State := {| sent := []; tick := 0 |}.

(** The context [helloDevice] returns against the toy owner. *)
Definition toyInfo (entries : Z) : to2Context :=
  {| ProveDvNonce := ["011"%byte]; SetupDvNonce := zeroNonce;
     ctx_PublicKey := keyOne; OVH := toyHeader; OVHHmac := toyHash;
     NumVoucherEntries := entries;
     SigInfo := {| SigType := ES384Alg; SigInfoBytes := [] |};
     KexSuiteName := ""; KeyExchangeA := ["018"%byte];
     MaxDeviceMessageSize := 0; MaxOwnerMessageSize := 0 |}.

End TO2Fixture.

(** ** The registered key-exchange suites ([init], rsadh.go lines 17-78) *)

Module KexSuites.

Import BigInt Kex.

(** The MODP group 14 and group 15 primes. *)
Definition prime14 : N :=
  0xFFFFFFFFFFFFFFFFC90FDAA22168C234C4C6628B80DC1CD129024E088A67CC74020BBEA63B139B22514A08798E3404DDEF9519B3CD3A431B302B0A6DF25F14374FE1356D6D51C245E485B576625E7EC6F44C42E9A637ED6B0BFF5CB6F406B7EDEE386BFB5A899FA5AE9F24117C4B1FE649286651ECE45B3DC2007CB8A163BF0598DA48361C55D39A69163FA8FD24CF5F83655D23DCA3AD961C62F356208552BB9ED529077096966D670C354E4ABC9804F1746C08CA18217C32905E462E36CE3BE39E772C180E86039B2783A2EC07A28FB5C55DF06F4C52C9DE2BCBF6955817183995497CEA956AE515D2261898FA051015728E5A8AACAA68FFFFFFFFFFFFFFFF%N.

Definition prime15 : N :=
  0xFFFFFFFFFFFFFFFFC90FDAA22168C234C4C6628B80DC1CD129024E088A67CC74020BBEA63B139B22514A08798E3404DDEF9519B3CD3A431B302B0A6DF25F14374FE1356D6D51C245E485B576625E7EC6F44C42E9A637ED6B0BFF5CB6F406B7EDEE386BFB5A899FA5AE9F24117C4B1FE649286651ECE45B3DC2007CB8A163BF0598DA48361C55D39A69163FA8FD24CF5F83655D23DCA3AD961C62F356208552BB9ED529077096966D670C354E4ABC9804F1746C08CA18217C32905E462E36CE3BE39E772C180E86039B2783A2EC07A28FB5C55DF06F4C52C9DE2BCBF6955817183995497CEA956AE515D2261898FA051015728E5A8AAAC42DAD33170D04507A33A85521ABDF1CBA64ECFB850458DBEF0A8AEA71575D060C7DB3970F85A6E1E4C7ABF5AE8CDB0933D71E8C94E04A25619DCEE3D2261AD2EE6BF12FFA06D98A0864D87602733EC86A64521F2B18177B200CBBE117577A615D6C770988C0BAD946E208E24FA074E5AB3143DB5BFCE0FD108E4B82D120A93AD2CAFFFFFFFFFFFFFFFF%N.

Section Registered.

Variable Suite : CipherSuiteID -> CipherSuite.

(** The constructor registered under [DHKEXid14Suite]. *)
Definition DHKEXid14 (xA : option bytes) (cipher : CipherSuiteID)
    : RSADHSession :=
  newSession Suite prime14 32 xA cipher.

(** The constructor registered under [DHKEXid15Suite]. *)
Definition DHKEXid15 (xA : option bytes) (cipher : CipherSuiteID)
    : RSADHSession :=
  newSession Suite prime15 96 xA cipher.

End Registered.

End KexSuites.

Module KexExtraFixture.

Import BigInt Kex.


(** A device-side session: created with the owner's parameter 18. *)
Definition deviceSession : RSADHSession :=
  KexFixture.toySession (Some ["018"%byte]).


End KexExtraFixture.

(** ** Vocabulary for the driver's message traces *)

Module TO2Trace.

Import TO2.
Local Open Scope Z_scope.

(** The GetOVNextEntry requests numbered [i], [i+1], ..., [i+k-1]. *)
Definition entryRequests (i : Z) (k : nat) : History :=
  map (fun j => (to2GetOVNextEntryMsgType, GetOVNextEntryMsg (i + Z.of_nat j)))
    (seq 0 k).

(** The read budget left after taking [chunks] out of [maxRead]
    ([maxRead -= chunk.Size()] on a [uint16]). *)
Definition budgetAfter (d : Deps) (maxRead : Z) (chunks : list KV) : Z :=
  fold_left (fun budget chunk => uint16 (budget - kvSize d chunk)) chunks
    maxRead.



End TO2Trace.

Module TO2NonceFixture.

Import TO2.
Local Open Scope string_scope.
Local Open Scope Z_scope.

Definition onesNonce : Nonce := repeat "001"%byte 16.

(** The toy collaborators with a random source that draws [onesNonce]:
    the toy owner, which puts the all-zero nonce in every response, then
    never echoes the nonce it was sent. *)
Definition onesDeps : Deps :=
  let base := TO2Fixture.toyDeps 1 TO2Fixture.keyOne in
  {| CryptoKey := CryptoKey base;
     Public := Public base;
     Equal := Equal base;
     Verify := Verify base;
     VerifyHeader := VerifyHeader base;
     VerifyManufacturerKey := VerifyManufacturerKey base;
     VerifyEntries := VerifyEntries base;
     signOptsFor := signOptsFor base;
     NewHeader := NewHeader base;
     decodeProveOVHdr := decodeProveOVHdr base;
     decodeOVNextEntry := decodeOVNextEntry base;
     decodeSetupDevice := decodeSetupDevice base;
     decodeOwnerServiceInfoReady := decodeOwnerServiceInfoReady base;
     decodeOwnerServiceInfo := decodeOwnerServiceInfo base;
     decodeDone2 := decodeDone2 base;
     decodeErrorMessage := decodeErrorMessage base;
     unmarshalNonce := unmarshalNonce base;
     unmarshalPublicKey := unmarshalPublicKey base;
     rand := fun _ => {| fill := fun n => repeat "001"%byte n;
                         failure := None |};
     ReadChunk := ReadChunk base;
     WriteChunk := WriteChunk base;
     CloseWriter := CloseWriter base;
     kvSize := kvSize base;
     ctxDone := ctxDone base |}.

End TO2NonceFixture.

Module TO2ExtraFixture.

Import TO2.
Local Open Scope string_scope.
Local Open Scope Z_scope.

(** The toy ProveOVHdr response with a chosen unprotected header. *)
Definition headerWith (unprotected : list (Z * bytes))
    : Sign1 ProveOVHdrPayload :=
  {| Protected := []; Unprotected := unprotected;
     Payload := Payload (TO2Fixture.toyProveOVHdr 1);
     Signature := [] |}.

Definition chunkA : KV := {| Key := "devmod:active"; Val := ["245"%byte] |}.
Definition chunkB : KV := {| Key := "devmod:os"; Val := ["001"; "002"]%byte |}.

(** A device pipe holding two chunks of which the second does not fit any
    more once the first is taken out of a budget of 2. *)
Definition twoChunkPipe (n : nat) (maxRead : Z) : ReadChunkResult :=
  match n with
  | O => Chunk chunkA
  | S _ => if maxRead <? 2 then ErrSizeTooSmall else Chunk chunkB
  end.

(** The toy collaborators with a chosen ProveOVHdr response, signature
    verdict, randomness failure, device pipe and cancellation. *)
Definition depsWith (response : Sign1 ProveOVHdrPayload) (verified : bool)
    (randFailure : option string) (pipe : nat -> Z -> ReadChunkResult)
    (cancelled : option string) : Deps :=
  let base := TO2Fixture.toyDeps 1 TO2Fixture.keyOne in
  {| CryptoKey := bytes;
     Public := fun key => Ok (Body key);
     Equal := bytes_eqb;
     Verify := fun _ _ => Ok verified;
     VerifyHeader := VerifyHeader base;
     VerifyManufacturerKey := VerifyManufacturerKey base;
     VerifyEntries := VerifyEntries base;
     signOptsFor := signOptsFor base;
     NewHeader := NewHeader base;
     decodeProveOVHdr := fun _ => Ok response;
     decodeOVNextEntry := decodeOVNextEntry base;
     decodeSetupDevice := decodeSetupDevice base;
     decodeOwnerServiceInfoReady := fun _ => Ok (Some 512);
     decodeOwnerServiceInfo := decodeOwnerServiceInfo base;
     decodeDone2 := decodeDone2 base;
     decodeErrorMessage := decodeErrorMessage base;
     unmarshalNonce := unmarshalNonce base;
     unmarshalPublicKey := unmarshalPublicKey base;
     rand := fun _ => {| fill := fun _ => []; failure := randFailure |};
     ReadChunk := pipe;
     WriteChunk := WriteChunk base;
     CloseWriter := CloseWriter base;
     kvSize := kvSize base;
     ctxDone := fun _ => cancelled |}.

(** The toy client with a device that supports no HMAC at all. *)
Definition clientWithoutHmac : Client :=
  {| Transport_Send := TO2Fixture.toyTransport 63;
     Cred := Cred (TO2Fixture.toyClient 63 0);
     Hmac_Supports := fun _ => false;
     Hmac_Hmac := fun _ _ => Err "unsupported algorithm";
     Key_Sign := Key_Sign (TO2Fixture.toyClient 63 0);
     PSS := false;
     MaxServiceInfoSizeReceive := 0 |}.

End TO2ExtraFixture.

(** ** Package fdo: the FSIM dispatcher ([handleFSIMs]) *)

Module FSIM.

Local Open Scope string_scope.

(** [strings.Cut(s, ":")]: the text before the first colon, the text after
    it, and whether there is one; without a colon, all of [s] and the
    empty string. *)
Fixpoint Cut (s : string) : string * string * bool :=
  match s with
  | "" => ("", "", false)
  | String ch rest =>
      if Ascii.eqb ch ":" then ("", rest, true)
      else let '(before, after, found) := Cut rest in
           (String ch before, after, found)
  end.

(** A [serviceinfo.Module]: what [HandleFSIM] does with a message name and
    the message body, as far as the dispatcher sees it -- the
    [(moduleName, messageName)] pairs it passes to the [respond] callback,
    in order, and the error it returns. *)
Record Module : Type := {
  HandleFSIM : string -> bytes -> list (string * string) * option string
}.

(** What the dispatcher does, in order. *)
Inductive Event : Type :=
| Handled (key messageName : string)
| NextServiceInfo (moduleName messageName : string)
| CloseWithError (e : string)
| Close.

Section Dispatcher.

(** [fsims[key]]: the map as its lookup. *)
Variable fsims : string -> option Module.
(** The error of [send.NextServiceInfo(moduleName, messageName)]. *)
Variable sendNext : string -> string -> option string.

(** The [respond] callback, once per call the handler makes. *)
Fixpoint respond (calls : list (string * string)) : list Event :=
  match calls with
  | [] => []
  | (moduleName, messageName) :: calls' =>
      (NextServiceInfo moduleName messageName
       :: match sendNext moduleName messageName with
          | Some e => [CloseWithError e]
          | None => []
          end
       ++ respond calls')%list
  end.

(** The [for] loop of [handleFSIMs] over the service info the owner pipe
    yields before it reports [!ok]. *)
Fixpoint dispatch (recv : list (string * bytes)) : list Event :=
  match recv with
  | [] => []
  | (key, info) :: recv' =>
      match fsims key with
      | None => dispatch recv'
      | Some fsim =>
          let '(_, messageName, _) := Cut key in
          let (calls, err) := HandleFSIM fsim messageName info in
          (Handled key messageName
           :: respond calls
           ++ match err with
              | Some e => [CloseWithError e]
              | None => dispatch recv'
              end)%list
      end
  end.

(** [handleFSIMs]: the loop, then the deferred [send.Close()]. *)
Definition handleFSIMs (recv : list (string * bytes)) : list Event :=
  (dispatch recv ++ [Close])%list.

End Dispatcher.

End FSIM.

(** ** Package http: util_tinygo.go *)

Module HTTP.

Local Open Scope string_scope.

(** What [msgTypeFromPath] writes to the [http.ResponseWriter]. *)
Inductive Written : Type :=
| Nothing
| StatusMethodNotAllowed
| StatusNotFound
| WriteErr (msgType : Z) (msg : string).

Definition MethodPost : string := "POST".

(** [s] without the leading [prefix], if it starts with it. *)
Fixpoint stripPrefix (prefix s : string) : option string :=
  match prefix with
  | "" => Some s
  | String p prefix' =>
      match s with
      | String ch s' => if Ascii.eqb p ch then stripPrefix prefix' s' else None
      | "" => None
      end
  end.

(** [strings.TrimPrefix] *)
Definition TrimPrefix (s prefix : string) : string :=
  match stripPrefix prefix s with
  | Some rest => rest
  | None => s
  end.

(** [strings.Contains(s, "/")] *)
Fixpoint ContainsSlash (s : string) : bool :=
  match s with
  | "" => false
  | String ch s' => Ascii.eqb ch "/" || ContainsSlash s'
  end.

Definition digit (ch : ascii) : option N :=
  let n := N_of_ascii ch in
  if ((48 <=? n) && (n <=? 57))%N then Some (n - 48)%N else None.

Fixpoint parseDigits (s : string) (acc : N) : option N :=
  match s with
  | "" => Some acc
  | String ch s' =>
      match digit ch with
      | Some v => parseDigits s' (acc * 10 + v)%N
      | None => None
      end
  end.

(** [strconv.ParseUint(s, 10, 8)]: [None] is a non-nil error (empty
    input, a character that is not a decimal digit, or a value above
    255). *)
Definition ParseUint8 (s : string) : option N :=
  match s with
  | "" => None
  | _ =>
      match parseDigits s 0 with
      | Some n => if (n <=? 255)%N then Some n else None
      | None => None
      end
  end.

(** [msgTypeFromPath], on the request's method and URL path. *)
Definition msgTypeFromPath (method path : string) : Written * (Z * bool) :=
  if negb (String.eqb method MethodPost) then
    (StatusMethodNotAllowed, (0%Z, false))
  else
    let path := TrimPrefix path "/fdo/101/msg/" in
    if ContainsSlash path then (StatusNotFound, (0%Z, false))
    else
      match ParseUint8 path with
      | None => (WriteErr 0 "invalid message type", (0%Z, false))
      | Some n => (Nothing, (Z.of_N n, true))
      end.

(** The decimal numeral of [n]. *)
Definition decimal (n : N) : string := NilZero.string_of_uint (N.to_uint n).

(** Whether the path of message type [n] is accepted as type [n]. *)
Definition roundTrips (n : nat) : bool :=
  match msgTypeFromPath MethodPost ("/fdo/101/msg/" ++ decimal (N.of_nat n)) with
  | (Nothing, (t, true)) => (t =? Z.of_nat n)%Z
  | _ => false
  end.

End HTTP.

(** ** Package fsim: the plugin device module *)

Module Plugin.

Local Open Scope string_scope.

(** The commands of the plugin protocol the module tells apart. *)
Inductive Command : Type :=
| dKey
| dYield
| dBreak
| dOther (c : ascii).

(** What the module does to its plugin and to its callbacks, in order. *)
Inductive Event : Type :=
| Started
| Sent (c : Command) (param : option string)
| Received
| DecodedValue
| EncodedValue
| Yielded
| Responded (message : string)
| Written.

(** The plugin and the codecs: every oracle takes the number of events so
    far. *)
Record Env : Type := {
  Value : Type;
  Start : nat -> option string;
  protoSend : nat -> Command -> option string -> option string;
  protoRecv : nat -> result (Command * option string);
  protoDecodeValue : nat -> result Value;
  protoEncodeValue : nat -> Value -> option string;
  cborDecode : bytes -> result Value;
  cborEncode : nat -> Value -> option string;
  base64 : string -> string;
  quote : string -> string;
  quoteCommand : ascii -> string
}.

(** [PluginDeviceModule]: whether [once] has fired, whether [proto] is
    set, and [err]; with the events so far. *)
Record PluginDeviceModule : Type := {
  once : bool;
  proto : bool;
  err : option string;
  events : list Event
}.

(** The zero value. *)
Definition new : PluginDeviceModule :=
  {| once := false; proto := false; err := None; events := [] |}.

Definition log (m : PluginDeviceModule) (e : Event) : PluginDeviceModule :=
  {| once := once m; proto := proto m; err := err m;
     events := (events m ++ [e])%list |}.

Section Module.

Variable env : Env.

(** [Transition] *)
Definition Transition (m : PluginDeviceModule) (active : bool)
    : PluginDeviceModule * option string :=
  if negb active then (m, None)
  else
    let m1 :=
      if once m then m
      else
        match Start env (List.length (events m)) with
        | Some e =>
            {| once := true; proto := proto m; err := Some e;
               events := (events m ++ [Started])%list |}
        | None =>
            {| once := true; proto := true; err := err m;
               events := (events m ++ [Started])%list |}
        end in
    (m1, err m1).

(** [Receive] *)
Definition Receive (m : PluginDeviceModule)
    (moduleName messageName : string) (messageBody : bytes)
    : PluginDeviceModule * result unit :=
  if negb (proto m) then (m, Err "plugin module not activated")
  else
    let name := moduleName ++ ":" ++ messageName in
    match cborDecode env messageBody with
    | Err e =>
        (m, Err ("error decoding message " ++ quote env name ++ " body: " ++ e))
    | Panic e => (m, Panic e)
    | Ok val =>
        let m1 := log m (Sent dKey (Some (base64 env messageName))) in
        match protoSend env (List.length (events m)) dKey
                (Some (base64 env messageName)) with
        | Some e =>
            (m1, Err ("error sending message " ++ quote env name
                      ++ " to plugin: " ++ e))
        | None =>
            let m2 := log m1 EncodedValue in
            match protoEncodeValue env (List.length (events m1)) val with
            | Some e =>
                (m2, Err ("error encoding message " ++ quote env name
                          ++ " body: " ++ e))
            | None => (m2, Ok tt)
            end
        end
    end.

(** [Yield].  Every case of the switch returns, so the [for] loop body
    runs once. *)
Definition Yield (m : PluginDeviceModule) : PluginDeviceModule * result unit :=
  if negb (proto m) then (m, Err "plugin module not activated")
  else
    let m1 := log m (Sent dYield None) in
    match protoSend env (List.length (events m)) dYield None with
    | Some e => (m1, Err e)
    | None =>
        let m2 := log m1 Received in
        match protoRecv env (List.length (events m1)) with
        | Err e => (m2, Err e)
        | Panic e => (m2, Panic e)
        | Ok (dYield, _) => (m2, Ok tt)
        | Ok (dBreak, _) => (log m2 Yielded, Ok tt)
        | Ok (dKey, param) =>
            match param with
            | None => (m2, Panic "interface conversion: interface {} is not string")
            | Some message =>
                let m3 := log m2 (Responded message) in
                let m4 := log m3 DecodedValue in
                match protoDecodeValue env (List.length (events m3)) with
                | Err e => (m4, Err e)
                | Panic e => (m4, Panic e)
                | Ok val =>
                    let m5 := log m4 Written in
                    match cborEncode env (List.length (events m4)) val with
                    | Some e => (m5, Err e)
                    | None => (m5, Ok tt)
                    end
                end
            end
        | Ok (dOther c, _) =>
            (m2, Err ("invalid data: got unexpected command "
                      ++ quoteCommand env c ++ " while parsing"))
        end
    end.

(** A sequence of [Transition] calls, with their results. *)
Fixpoint transitions (m : PluginDeviceModule) (actives : list bool)
    : PluginDeviceModule * list (option string) :=
  match actives with
  | [] => (m, [])
  | active :: actives' =>
      let (m1, r) := Transition m active in
      let (m2, rs) := transitions m1 actives' in
      (m2, r :: rs)
  end.

End Module.

End Plugin.

Module ExtraFixture.

Local Open Scope string_scope.

(** A module that answers every message with one [echo:pong] and no
    error, and one that fails. *)
Definition echoModule : FSIM.Module :=
  {| FSIM.HandleFSIM := fun _ _ => ([("echo", "pong")], None) |}.
Definition brokenModule : FSIM.Module :=
  {| FSIM.HandleFSIM := fun _ _ => ([], Some "disk full") |}.

(** A registry keyed by module name, as the specification describes it. *)
Definition byModuleName (key : string) : option FSIM.Module :=
  if String.eqb key "echo" then Some echoModule else None.

(** A registry keyed by the full service-info key. *)
Definition byFullKey (key : string) : option FSIM.Module :=
  if String.eqb key "echo:ping" then Some echoModule
  else if String.eqb key "fs:write" then Some brokenModule
  else None.

(** A plugin that starts, accepts what it is sent and answers [reply]. *)
Definition pluginEnv (startError : option string)
    (reply : Plugin.Command * option string) : Plugin.Env :=
  {| Plugin.Value := bytes;
     Plugin.Start := fun _ => startError;
     Plugin.protoSend := fun _ _ _ => None;
     Plugin.protoRecv := fun _ => Ok reply;
     Plugin.protoDecodeValue := fun _ => Ok ["001"%byte];
     Plugin.protoEncodeValue := fun _ _ => None;
     Plugin.cborDecode := fun body => Ok body;
     Plugin.cborEncode := fun _ _ => None;
     Plugin.base64 := fun text => text;
     Plugin.quote := fun text => text;
     Plugin.quoteCommand := fun c => String c "" |}.

End ExtraFixture.

(** * Properties *)

(** ** Big-integer byte conversions *)

Module BigIntFacts.

Import BigInt.

Lemma to_N_byte_of_N (n : N) : (n < 256)%N -> Byte.to_N (byte_of_N n) = n.
Proof.
  intros Hn. unfold byte_of_N.
  destruct (Byte.of_N n) as [b|] eqn:E.
  - now apply Byte.to_of_N.
  - exfalso.
    pose proof (Byte.to_of_N_option_map n) as H. rewrite E in H. simpl in H.
    destruct (N.leb_spec n 255); [discriminate | lia].
Qed.

Lemma SetBytes_app (xs ys : bytes) :
  SetBytes (xs ++ ys)
  = fold_left (fun acc b => (acc * 256 + Byte.to_N b)%N) ys (SetBytes xs).
Proof. unfold SetBytes. now rewrite fold_left_app. Qed.

Lemma SetBytes_rev (ds : bytes) : SetBytes (rev ds) = le_value ds.
Proof.
  induction ds as [|b ds IH]; [reflexivity|].
  simpl rev. rewrite SetBytes_app, IH.
  cbn [fold_left le_value fold_right]. fold (le_value ds). lia.
Qed.

Lemma le_value_digits (fuel : nat) :
  forall n, (n < 2 ^ N.of_nat fuel)%N -> le_value (le_digits fuel n) = n.
Proof.
  induction fuel as [|f IH]; intros n Hn.
  - simpl in *. assert (n = 0%N) by lia. now subst.
  - cbn [le_digits]. destruct (N.eqb_spec n 0) as [->|Hnz]; [reflexivity|].
    cbn [le_value fold_right]. fold (le_value (le_digits f (n / 256))).
    rewrite to_N_byte_of_N by (apply N.mod_lt; lia).
    rewrite IH.
    + rewrite (N.div_mod n 256) at 3 by lia. lia.
    + apply N.Div0.div_lt_upper_bound.
      rewrite Nat2N.inj_succ, N.pow_succ_r' in Hn.
      assert (0 < 2 ^ N.of_nat f)%N by (apply N.neq_0_lt_0, N.pow_nonzero; lia).
      lia.
Qed.

(** [SetBytes] undoes [Bytes] on the non-negative integers. *)
Lemma SetBytes_Bytes (n : N) : SetBytes (Bytes (Z.of_N n)) = n.
Proof.
  unfold Bytes. rewrite SetBytes_rev, Zabs2N.id.
  apply le_value_digits. rewrite N2Nat.id. apply N.size_gt.
Qed.

Lemma SetBytes_Bytes_abs (z : Z) : SetBytes (Bytes z) = Z.abs_N z.
Proof.
  unfold Bytes. rewrite SetBytes_rev.
  apply le_value_digits. rewrite N2Nat.id. apply N.size_gt.
Qed.

(** [Bytes] is empty exactly at zero. *)
Lemma Bytes_nil_iff (n : N) : Bytes (Z.of_N n) = [] <-> n = 0%N.
Proof.
  split.
  - intros H. rewrite <- (SetBytes_Bytes n), H. reflexivity.
  - intros ->. reflexivity.
Qed.

End BigIntFacts.

(** ** The key-exchange session *)

Module KexFacts.

Import BigInt BigIntFacts Kex.

(** Both sides of a Diffie-Hellman exchange reach the same shared
    secret, also through the byte encoding of the exchanged parameter. *)
Lemma shared_secret_agrees (g : Z) (a b : N) (p : option N) :
  Exp (Z.of_N (SetBytes (Bytes (Exp g a p)))) b p
  = Exp (Z.of_N (SetBytes (Bytes (Exp g b p)))) a p.
Proof.
  rewrite !SetBytes_Bytes_abs, !N2Z.inj_abs_N.
  assert (Hfree : (Z.abs (g ^ Z.of_N a) ^ Z.of_N b
                   = Z.abs (g ^ Z.of_N b) ^ Z.of_N a)%Z).
  { rewrite !Z.abs_pow, <- !Z.pow_mul_r by lia. f_equal. lia. }
  unfold Exp. destruct p as [m|]; [|exact Hfree].
  destruct (N.eqb_spec m 0) as [->|Hm]; [exact Hfree|].
  assert (0 < Z.of_N m)%Z by lia.
  rewrite !(Z.abs_eq (_ mod _)) by (apply Z.mod_pos_bound; lia).
  rewrite !Z.mod_pow_l, <- !Z.pow_mul_r by lia.
  f_equal. f_equal. lia.
Qed.

Section WithSuite.

Variable Suite : CipherSuiteID -> CipherSuite.
Variable EncryptKeySize MacKeySize : Z -> N.
Variable kdf : Z -> bytes -> bytes -> Z -> result bytes.

Let symKey := rsaSymmetricKey EncryptKeySize MacKeySize kdf.

(** The two calls of [rsaSymmetricKey] of one exchange coincide. *)
Lemma rsaSymmetricKey_agrees (g : Z) (a b : N) (p : option N)
    (cipher : CipherSuite) :
  symKey (Some (SetBytes (Bytes (Exp g a p)))) (Some b) p cipher
  = symKey (Some (SetBytes (Bytes (Exp g b p)))) (Some a) p cipher.
Proof.
  unfold symKey, rsaSymmetricKey. now rewrite shared_secret_agrees.
Qed.

(** What a successful first call of [genParameter] (no peer parameter
    yet) stores and returns. *)
Lemma genParameter_first (s s1 : RSADHSession) (rand : Reader) (xX : bytes) :
  s_xA s = None ->
  genParameter EncryptKeySize MacKeySize kdf s rand = (s1, Ok xX) ->
  exists x, s1 = set_a s (Some x) /\ xX = Bytes (Exp (s_g s) x (s_p s)).
Proof.
  intros HxA. unfold genParameter.
  destruct (s_paramSize s <? 0)%Z; [discriminate|].
  destruct (failure rand); [discriminate|].
  rewrite HxA. intros [= <- <-]. eauto.
Qed.

(** What a successful call of [genParameter] stores and returns once
    the peer parameter is known. *)
Lemma genParameter_second (s s1 : RSADHSession) (rand : Reader)
    (xX : bytes) (xa : N) :
  s_xA s = Some xa ->
  genParameter EncryptKeySize MacKeySize kdf s rand = (s1, Ok xX) ->
  exists x sek svk,
    symKey (Some xa) (Some x) (s_p s) (Cipher (s_crypter s)) = Ok (sek, svk)
    /\ s1 = set_keys (set_b s (Some x)) sek svk
    /\ xX = Bytes (Exp (s_g s) x (s_p s)).
Proof.
  intros HxA. unfold genParameter.
  destruct (s_paramSize s <? 0)%Z; [discriminate|].
  destruct (failure rand); [discriminate|].
  rewrite HxA. cbn [set_b s_xA s_b s_p s_crypter].
  set (x := SetBytes _).
  destruct (rsaSymmetricKey _ _ _ _ _ _ _) as [[sek svk]|e|e] eqn:E;
    [|discriminate|discriminate].
  intros [= <- <-]. exists x, sek, svk. rewrite HxA in E. auto.
Qed.

(** C5: when the owner side has produced its parameter [xA] with
    [Parameter], and the device side, created over the same prime,
    generator and cipher suite with [xA] injected, has produced [xB]
    and its keys with [Parameter], then [SetParameter xB] on the owner
    side succeeds and leaves the same SEK and SVK there. *)
Theorem kex_both_sides_same_keys
    (owner device owner1 device1 : RSADHSession) (randA randB : Reader)
    (xA xB : bytes) :
  s_xA owner = None ->
  genParameter EncryptKeySize MacKeySize kdf owner randA = (owner1, Ok xA) ->
  s_p device = s_p owner ->
  s_g device = s_g owner ->
  Cipher (s_crypter device) = Cipher (s_crypter owner) ->
  s_xA device = Some (SetBytes xA) ->
  genParameter EncryptKeySize MacKeySize kdf device randB = (device1, Ok xB) ->
  exists owner2 logged,
    SetParameter EncryptKeySize MacKeySize kdf owner1 xB
    = (owner2, logged, Ok tt)
    /\ SEK (s_crypter owner2) = SEK (s_crypter device1)
    /\ SVK (s_crypter owner2) = SVK (s_crypter device1).
Proof.
  intros HxA HA Hp Hg Hc Hinj HB.
  destruct (genParameter_first _ _ HxA HA) as (a & -> & ->).
  destruct (genParameter_second _ _ Hinj HB) as (b & sek & svk & Hk & -> & ->).
  unfold SetParameter.
  cbn [set_xB set_a s_xB s_a s_p s_crypter].
  rewrite Hp, Hg, Hc in *.
  fold symKey. rewrite <- rsaSymmetricKey_agrees, Hk.
  eexists _, _. split; [reflexivity|]. split; reflexivity.
Qed.

End WithSuite.

(** The exchange over the prime 23: the owner draws 6, the device 15. *)
Lemma kex_both_sides_same_keys_witness :
  let owner := KexFixture.toySession None in
  let randA := KexFixture.fixedReader ["006"%byte] in
  let randB := KexFixture.fixedReader ["015"%byte] in
  let xA := ["018"%byte] in
  let xB := ["016"%byte] in
  let device := KexFixture.toySession (Some xA) in
  exists owner1 device1 owner2 logged,
    genParameter KexFixture.toyEncryptKeySize KexFixture.toyMacKeySize
      KexFixture.toyKdf owner randA = (owner1, Ok xA)
    /\ genParameter KexFixture.toyEncryptKeySize KexFixture.toyMacKeySize
         KexFixture.toyKdf device randB = (device1, Ok xB)
    /\ SetParameter KexFixture.toyEncryptKeySize KexFixture.toyMacKeySize
         KexFixture.toyKdf owner1 xB = (owner2, logged, Ok tt)
    /\ SEK (s_crypter owner2) = SEK (s_crypter device1)
    /\ SVK (s_crypter owner2) = SVK (s_crypter device1).
Proof.
  intros owner randA randB xA xB device.
  destruct (fun HA HB =>
              @kex_both_sides_same_keys
                KexFixture.toyEncryptKeySize KexFixture.toyMacKeySize
                KexFixture.toyKdf owner device
                (fst (genParameter KexFixture.toyEncryptKeySize
                        KexFixture.toyMacKeySize KexFixture.toyKdf owner randA))
                (fst (genParameter KexFixture.toyEncryptKeySize
                        KexFixture.toyMacKeySize KexFixture.toyKdf device randB))
                randA randB xA xB eq_refl HA eq_refl eq_refl eq_refl eq_refl HB)
    as (owner2 & logged & HS & Hsek & Hsvk);
    [vm_compute; reflexivity | vm_compute; reflexivity |].
  eexists _, _, owner2, logged.
  split; [vm_compute; reflexivity|].
  split; [vm_compute; reflexivity|].
  split; [exact HS|]. split; assumption.
Defined.

(** *** Logging *)

Section Logging.

Variable EncryptKeySize MacKeySize : Z -> N.
Variable kdf : Z -> bytes -> bytes -> Z -> result bytes.

(** The log line of [SetParameter] is the rendering of the session as it
    is after the peer parameter is stored. *)
Lemma SetParameter_logged (s : RSADHSession) (xB : bytes) :
  snd (fst (SetParameter EncryptKeySize MacKeySize kdf s xB))
  = [sharp_v (set_xB s (Some (SetBytes xB)))].
Proof.
  unfold SetParameter.
  destruct (rsaSymmetricKey _ _ _ _ _ _ _) as [[sek svk]|e|e]; reflexivity.
Qed.

(** C3 (as the code behaves): every call of [SetParameter], whatever its
    result, writes to the log the SEK and the SVK the session holds when
    it is called, as byte-slice literals. *)
Theorem SetParameter_logs_session_keys (s : RSADHSession) (xB : bytes) :
  let logged := snd (fst (SetParameter EncryptKeySize MacKeySize kdf s xB)) in
  In (SEK (s_crypter s)) (flat_map byte_literals logged)
  /\ In (SVK (s_crypter s)) (flat_map byte_literals logged).
Proof.
  cbv zeta. rewrite SetParameter_logged. simpl. auto.
Qed.

End Logging.

(** A session that completed an exchange and receives a parameter again
    prints its two keys. *)
Example completed_session_leaks :
  flat_map byte_literals
    (snd (fst (SetParameter KexFixture.toyEncryptKeySize
                 KexFixture.toyMacKeySize KexFixture.toyKdf
                 KexFixture.completedSession ["016"%byte])))
  = [["001"; "002"]; ["003"]]%byte.
Proof. reflexivity. Qed.

(** *** Persistence *)

Lemma optSetBytes_optBytes (o : option N) :
  o <> Some 0%N -> optSetBytes (optBytes o) = o.
Proof.
  intros Hz. destruct o as [v|]; [|reflexivity].
  unfold optBytes, optSetBytes.
  destruct (Bytes (Z.of_N v)) as [|b bs] eqn:E.
  - apply Bytes_nil_iff in E. congruence.
  - rewrite <- E, SetBytes_Bytes. reflexivity.
Qed.

(** A present parameter equal to zero is written as the empty byte string
    and read back as absent. *)
Lemma optSetBytes_optBytes_zero : optSetBytes (optBytes (Some 0%N)) = None.
Proof. reflexivity. Qed.

Section Persistence.

Variable Suite : CipherSuiteID -> CipherSuite.
Variable Blob : Type.
Variable cbor_Marshal : rsadhPersist -> result Blob.
Variable cbor_Unmarshal : Blob -> result rsadhPersist.

(** The codec decodes what it encoded. *)
Hypothesis cbor_roundtrip :
  forall persist data,
    cbor_Marshal persist = Ok data -> cbor_Unmarshal data = Ok persist.

Lemma fromPersist_toPersist (s : RSADHSession) (prime : N) :
  s_p s = Some prime ->
  s_a s <> Some 0%N -> s_xA s <> Some 0%N ->
  s_b s <> Some 0%N -> s_xB s <> Some 0%N ->
  fromPersist Suite (toPersist s prime)
  = {| s_p := s_p s; s_g := s_g s; s_paramSize := s_paramSize s;
       s_a := s_a s; s_xA := s_xA s; s_b := s_b s; s_xB := s_xB s;
       s_crypter := {| ID := ID (s_crypter s);
                       Cipher := Suite (ID (s_crypter s));
                       SEK := SEK (s_crypter s);
                       SVK := SVK (s_crypter s) |} |}.
Proof.
  intros Hp Ha HxA Hb HxB. unfold fromPersist, toPersist.
  cbn [Prime Generator ParamSize ParamA ParamXA ParamB ParamXB PCipher PSEK PSVK].
  rewrite !optSetBytes_optBytes, SetBytes_Bytes, Hp by assumption.
  reflexivity.
Qed.

(** C9 (amended): for a session whose present parameters [a], [xA], [b],
    [xB] are all non-zero, deserializing what [MarshalCBOR] produced
    succeeds and yields a session with the same prime, generator,
    parameter size, cipher suite id, SEK, SVK, [a], [xA], [b] and [xB]
    (absent ones staying absent); its cipher suite is the one registered
    for the id, so that it is the very same session, and derives the same
    keys, whenever the original carried the registered suite. *)
Theorem unmarshal_marshal_session (s : RSADHSession) (data : Blob) :
  s_a s <> Some 0%N -> s_xA s <> Some 0%N ->
  s_b s <> Some 0%N -> s_xB s <> Some 0%N ->
  MarshalCBOR cbor_Marshal s = Ok data ->
  exists s',
    UnmarshalCBOR Suite cbor_Unmarshal data = Ok s'
    /\ s_p s' = s_p s /\ s_g s' = s_g s /\ s_paramSize s' = s_paramSize s
    /\ ID (s_crypter s') = ID (s_crypter s)
    /\ SEK (s_crypter s') = SEK (s_crypter s)
    /\ SVK (s_crypter s') = SVK (s_crypter s)
    /\ s_a s' = s_a s /\ s_xA s' = s_xA s
    /\ s_b s' = s_b s /\ s_xB s' = s_xB s
    /\ Cipher (s_crypter s') = Suite (ID (s_crypter s))
    /\ (Cipher (s_crypter s) = Suite (ID (s_crypter s)) -> s' = s).
Proof.
  intros Ha HxA Hb HxB HM. unfold MarshalCBOR in HM.
  destruct (s_p s) as [prime|] eqn:Hp; [|discriminate].
  apply cbor_roundtrip in HM.
  eexists. split.
  - unfold UnmarshalCBOR. rewrite HM. reflexivity.
  - rewrite (fromPersist_toPersist s Hp) by assumption.
    cbn. repeat (split; [congruence|]).
    intros <-. destruct s as [? ? ? ? ? ? ? []]. reflexivity.
Qed.

End Persistence.

(** The session of a completed exchange survives the identity codec. *)
Lemma unmarshal_marshal_session_witness :
  exists s',
    UnmarshalCBOR KexFixture.toySuite KexFixture.idUnmarshal
      (toPersist KexFixture.completedSession 23%N) = Ok s'
    /\ s' = KexFixture.completedSession.
Proof.
  destruct (@unmarshal_marshal_session KexFixture.toySuite rsadhPersist
              KexFixture.idMarshal KexFixture.idUnmarshal
              (fun persist data (H : Ok persist = Ok data) =>
                 match H in _ = r return
                   match r with
                   | Ok d => KexFixture.idUnmarshal d = Ok persist
                   | _ => True
                   end
                 with eq_refl => eq_refl end)
              KexFixture.completedSession
              (toPersist KexFixture.completedSession 23%N))
    as (s' & HU & _ & _ & _ & _ & _ & _ & _ & _ & _ & _ & _ & Hsame);
    try (vm_compute; congruence).
  exists s'. split; [exact HU|]. apply Hsame. reflexivity.
Defined.

(** C9 (as stated) fails: the session a suite creates from the peer
    parameter [0x00] holds [xA = 0]; it is serialized without error, and
    the session read back has no [xA] at all.  The two then answer
    [Parameter] differently: the original derives session keys, the
    restored one only stores a secret. *)
Lemma unmarshal_marshal_loses_zero_parameter :
  let s := KexFixture.toySession (Some ["000"%byte]) in
  let rand := KexFixture.fixedReader ["006"%byte] in
  let run := genParameter KexFixture.toyEncryptKeySize
               KexFixture.toyMacKeySize KexFixture.toyKdf in
  s_xA s = Some 0%N
  /\ exists data s',
       MarshalCBOR KexFixture.idMarshal s = Ok data
       /\ UnmarshalCBOR KexFixture.toySuite KexFixture.idUnmarshal data = Ok s'
       /\ s_xA s' = None
       /\ s_xA s' <> s_xA s
       /\ SEK (s_crypter (fst (run s rand))) = ["000"; "000"]%byte
       /\ SEK (s_crypter (fst (run s' rand))) = [].
Proof.
  cbv zeta. split; [reflexivity|].
  eexists _, _. split; [reflexivity|]. split; [reflexivity|].
  split; [reflexivity|]. split; [discriminate|].
  split; vm_compute; reflexivity.
Qed.

End KexFacts.

(** ** The TO2 driver *)

Module TO2Facts.

Import TO2.
Local Open Scope to2_scope.
Local Open Scope string_scope.
Local Open Scope Z_scope.

(** *** Successful runs of the monad's building blocks *)

Lemma bytes_eqb_true (x y : bytes) : bytes_eqb x y = true <-> x = y.
Proof.
  unfold bytes_eqb. destruct (list_eq_dec Byte.byte_eq_dec x y); split;
    congruence.
Qed.

Lemma bind_Ok {A B : Type} (m : M A) (k : A -> M B) st st' (v : B) :
  bind m k st = (st', Ok v) ->
  exists x st1, m st = (st1, Ok x) /\ k x st1 = (st', Ok v).
Proof.
  unfold bind. destruct (m st) as [st1 [x|e|e]]; intros H;
    [eauto | discriminate | discriminate].
Qed.

Lemma wrapErr_Ok {A : Type} (prefix : string) (m : M A) st st' (v : A) :
  wrapErr prefix m st = (st', Ok v) -> m st = (st', Ok v).
Proof.
  unfold wrapErr. destruct (m st) as [st1 [x|e|e]]; intros H;
    [assumption | discriminate | discriminate].
Qed.

Lemma lift_Ok {A : Type} (r : result A) st st' (v : A) :
  lift r st = (st', Ok v) -> st' = st /\ r = Ok v.
Proof. unfold lift. intros [= -> ->]. auto. Qed.

Lemma ret_Ok {A : Type} (x : A) st st' (v : A) :
  ret x st = (st', Ok v) -> st' = st /\ v = x.
Proof. unfold ret. intros [= -> ->]. auto. Qed.

Lemma fail_Ok {A : Type} (msg : string) st st' (v : A) :
  fail msg st = (st', Ok v) -> False.
Proof. unfold fail. discriminate. Qed.

Lemma check_Ok (prefix : string) (e : option string) st st' (v : unit) :
  check prefix e st = (st', Ok v) -> st' = st /\ e = None.
Proof.
  destruct e; cbn; [discriminate|]. intros [= -> _]. auto.
Qed.

Lemma deref_Ok {A : Type} (ptr : option A) st st' (v : A) :
  deref ptr st = (st', Ok v) -> st' = st /\ ptr = Some v.
Proof.
  destruct ptr; cbn; [|discriminate]. intros [= -> ->]. auto.
Qed.

Section Driver.

Variable d : Deps.
Variable c : Client.

Lemma Send_Ok (msgType : Z) (msg : Request) st st' (resp : Response) :
  Send c msgType msg st = (st', Ok resp) ->
  sent st' = (sent st ++ [(msgType, msg)])%list
  /\ tick st' = tick st
  /\ Transport_Send c (sent st') = Ok resp.
Proof. unfold Send. intros [= <- H]. cbn. auto. Qed.

Lemma newNonce_Ok st st' (n : Nonce) :
  newNonce d st = (st', Ok n) -> sent st' = sent st.
Proof.
  unfold newNonce. destruct (failure _); intros [= <- _]; reflexivity.
Qed.

Lemma errorResponse_Ok {A : Type} (parseMsg recvMsg : string)
    (resp : Response) st st' (v : A) :
  errorResponse d parseMsg recvMsg resp st = (st', Ok v) -> False.
Proof.
  unfold errorResponse. intros H.
  apply bind_Ok in H as (x & st1 & _ & H). now apply fail_Ok in H.
Qed.

Lemma unexpectedType_Ok {A : Type} (request : string) (resp : Response)
    st st' (v : A) :
  unexpectedType request resp st = (st', Ok v) -> False.
Proof. unfold unexpectedType. apply fail_Ok. Qed.

End Driver.

(** Takes a successful monadic run apart, step by step. *)
Ltac step_ok H :=
  lazymatch type of H with
  | bind _ _ _ = (_, Ok _) =>
      let x := fresh "x" in
      let st := fresh "st" in
      let H1 := fresh "Hrun" in
      apply bind_Ok in H as (x & st & H1 & H); step_ok H1
  | wrapErr _ _ _ = (_, Ok _) => apply wrapErr_Ok in H; step_ok H
  | lift _ _ = (_, Ok _) =>
      let E := fresh "Heq" in
      apply lift_Ok in H as [-> E]; try discriminate E
  | ret _ _ = (_, Ok _) =>
      let E := fresh "Heq" in apply ret_Ok in H as [-> E]
  | check _ _ _ = (_, Ok _) =>
      let E := fresh "Heq" in apply check_Ok in H as [-> E]
  | deref _ _ = (_, Ok _) =>
      let E := fresh "Heq" in
      apply deref_Ok in H as [-> E]; try discriminate E
  | fail _ _ = (_, Ok _) => now apply fail_Ok in H
  | errorResponse _ _ _ _ _ = (_, Ok _) => now apply errorResponse_Ok in H
  | unexpectedType _ _ _ = (_, Ok _) => now apply unexpectedType_Ok in H
  | Send _ _ _ _ = (_, Ok _) =>
      let E1 := fresh "Hsent" in
      let E2 := fresh "Htick" in
      let E3 := fresh "Hresp" in
      apply Send_Ok in H as (E1 & E2 & E3)
  | _ => idtac
  end.

(** Running a [bind] whose first computation is known. *)
Lemma bind_run {A B : Type} (m : M A) (k : A -> M B) st st1 (x : A) :
  m st = (st1, Ok x) -> bind m k st = k x st1.
Proof. unfold bind. now intros ->. Qed.

Lemma bind_stop {A B : Type} (m : M A) (k : A -> M B) st st1 (e : string) :
  m st = (st1, Err e) -> bind m k st = (st1, Err e).
Proof. unfold bind. now intros ->. Qed.

(** Splits an unfolded run on the innermost undecided call. *)
Ltac split_run :=
  match goal with
  | |- context [match ?x with _ => _ end] =>
      lazymatch x with
      | context [match ?y with _ => _ end] => fail
      | _ => destruct x
      end
  end;
  cbn [fst snd sent].

Section DriverRuns.

Variable d : Deps.
Variable c : Client.

(** Everything a successful [helloDevice] went through. *)
Lemma helloDevice_Ok st st' (info : to2Context) :
  helloDevice d c st = (st', Ok info) ->
  exists helloNonce resp proveOVHdr payload,
    sent st' = (sent st ++
       [(to2HelloDeviceMsgType,
         HelloDeviceMsg 0 (cred_GUID (Cred c)) helloNonce "" 0
           {| SigType := ES384Alg; SigInfoBytes := [] |})])%list
    /\ Transport_Send c (sent st') = Ok resp
    /\ typ resp = to2ProveOVHdrMsgType
    /\ decodeProveOVHdr d (body resp) = Ok proveOVHdr
    /\ Payload proveOVHdr = Some payload
    /\ p_NonceTO2ProveOV payload = helloNonce
    /\ unmarshalPublicKey d
         (lookup to2OwnerPubKeyClaim (Unprotected proveOVHdr))
       = Ok (ctx_PublicKey info)
    /\ NumVoucherEntries info = NumOVEntries payload
    /\ OVH info = p_OVH payload.
Proof.
  unfold helloDevice. intros H.
  step_ok H. rename x into helloNonce. apply newNonce_Ok in Hrun.
  step_ok H. rename x into resp.
  apply bind_Ok in H as (proveOVHdr & st2 & Hdec & H).
  destruct (typ resp =? to2ProveOVHdrMsgType) eqn:Htyp;
    [|destruct (typ resp =? ErrorMsgType); step_ok Hdec].
  step_ok Hdec.
  apply bind_Ok in H as (cuphNonce & st3 & Hcuph & H).
  apply bind_Ok in H as (ownerPubKey & st4 & Hkey & H).
  assert (st3 = st1) as ->.
  { destruct (lookup to2NonceClaim _); step_ok Hcuph; reflexivity. }
  assert (st4 = st1 /\
          unmarshalPublicKey d
            (lookup to2OwnerPubKeyClaim (Unprotected proveOVHdr))
          = Ok ownerPubKey) as [-> HownerKey].
  { destruct (lookup to2OwnerPubKeyClaim _); step_ok Hkey; auto. }
  step_ok H. step_ok H. rename x0 into ok.
  destruct ok; cbn [negb] in H; [|step_ok H].
  step_ok H. rename x0 into payload.
  destruct (bytes_eqb _ _) eqn:Hnonce; cbn [negb] in H; [|step_ok H].
  step_ok H. subst info. cbn.
  apply bytes_eqb_true in Hnonce. apply Z.eqb_eq in Htyp.
  rewrite Hrun in Hsent.
  exists helloNonce, resp, proveOVHdr, payload.
  repeat split; assumption.
Qed.

(** [fetchEntries] returns the accumulator extended by [n] entries. *)
Lemma fetchEntries_length (n : nat) :
  forall i acc st st' entries,
    fetchEntries d c n i acc st = (st', Ok entries) ->
    List.length entries = (List.length acc + n)%nat.
Proof.
  induction n as [|n IH]; intros i acc st st' entries H; cbn in H.
  - step_ok H. subst. lia.
  - apply bind_Ok in H as (entry & st1 & _ & H).
    apply IH in H. rewrite H, length_app. cbn. lia.
Qed.

(** Everything a successful [verifyVoucher] went through. *)
Lemma verifyVoucher_Ok (info info' : to2Context)
    (entries : list (Sign1 VoucherEntryPayload)) st st' :
  verifyVoucher d c info entries st = (st', Ok info') ->
  st' = st /\ info' = info
  /\ exists tail tailPayload ownerPub expectedOwnerPub,
       nth_error entries (List.length entries - 1) = Some tail
       /\ Payload tail = Some tailPayload
       /\ Public d (ctx_PublicKey info) = Ok ownerPub
       /\ Public d (ve_PublicKey tailPayload) = Ok expectedOwnerPub
       /\ Equal d ownerPub expectedOwnerPub = true.
Proof.
  unfold verifyVoucher. cbn [Entries]. intros H.
  step_ok H. step_ok H. step_ok H.
  apply bind_Ok in H as (tail & st1 & Htail & H).
  unfold lastEntry in Htail.
  destruct (nth_error entries _) as [e|] eqn:Hnth; step_ok Htail; subst e.
  apply bind_Ok in H as (tailPayload & st2 & Hpay & H). step_ok Hpay.
  apply bind_Ok in H as (expectedOwnerPub & st2 & Hexp & H). step_ok Hexp.
  apply bind_Ok in H as (ownerPub & st2 & Hown & H). step_ok Hown.
  destruct (Equal d ownerPub expectedOwnerPub) eqn:Heqb; cbn [negb] in H;
    [|step_ok H].
  step_ok H. subst. repeat split.
  exists tail, tailPayload, ownerPub, expectedOwnerPub. auto.
Qed.

(** A voucher whose tail key differs from the owner key is refused. *)
Lemma verifyVoucher_keys_differ (info : to2Context)
    (entries : list (Sign1 VoucherEntryPayload)) st
    tail tailPayload ownerPub expectedOwnerPub :
  nth_error entries (List.length entries - 1) = Some tail ->
  Payload tail = Some tailPayload ->
  Public d (ctx_PublicKey info) = Ok ownerPub ->
  Public d (ve_PublicKey tailPayload) = Ok expectedOwnerPub ->
  Equal d ownerPub expectedOwnerPub = false ->
  exists e, verifyVoucher d c info entries st = (st, Err e).
Proof.
  intros Hnth Hpay Hown Hexp Hneq.
  unfold verifyVoucher, lastEntry, bind, check, wrapErr, lift, deref, fail, ret.
  cbn [Entries].
  destruct (VerifyHeader d _ c); [eauto|].
  destruct (VerifyManufacturerKey d _ _); [eauto|].
  destruct (VerifyEntries d _); [eauto|].
  rewrite Hnth, Hpay, Hexp, Hown, Hneq. cbn. eauto.
Qed.

(** C1: whenever [verifyOwner] accepts, the owner public key it returns is
    the one decoded from claim 257 of the ProveOVHdr unprotected header,
    and it is [Equal] to the public key in the payload of the last
    voucher entry fetched; and when those two keys parse but differ,
    [verifyOwner] returns an error. *)
Theorem accepted_owner_key_is_voucher_tail :
  (forall st st' info,
     verifyOwner d c st = (st', Ok info) ->
     exists st1 resp proveOVHdr entries tail tailPayload ownerPub
            expectedOwnerPub,
       helloDevice d c st = (st1, Ok info)
       /\ Transport_Send c (sent st1) = Ok resp
       /\ decodeProveOVHdr d (body resp) = Ok proveOVHdr
       /\ unmarshalPublicKey d
            (lookup to2OwnerPubKeyClaim (Unprotected proveOVHdr))
          = Ok (ctx_PublicKey info)
       /\ fetchEntries d c (Z.to_nat (NumVoucherEntries info)) 0 [] st1
          = (st', Ok entries)
       /\ nth_error entries (List.length entries - 1) = Some tail
       /\ Payload tail = Some tailPayload
       /\ Public d (ctx_PublicKey info) = Ok ownerPub
       /\ Public d (ve_PublicKey tailPayload) = Ok expectedOwnerPub
       /\ Equal d ownerPub expectedOwnerPub = true)
  /\ (forall st st1 st2 info entries tail tailPayload ownerPub
             expectedOwnerPub,
        helloDevice d c st = (st1, Ok info) ->
        fetchEntries d c (Z.to_nat (NumVoucherEntries info)) 0 [] st1
        = (st2, Ok entries) ->
        nth_error entries (List.length entries - 1) = Some tail ->
        Payload tail = Some tailPayload ->
        Public d (ctx_PublicKey info) = Ok ownerPub ->
        Public d (ve_PublicKey tailPayload) = Ok expectedOwnerPub ->
        Equal d ownerPub expectedOwnerPub = false ->
        exists e, snd (verifyOwner d c st) = Err e).
Proof.
  split.
  - intros st st' info H. unfold verifyOwner in H.
    apply bind_Ok in H as (info0 & st1 & Hhello & H).
    destruct (NumVoucherEntries info0 =? 0); [step_ok H|].
    apply bind_Ok in H as (entries & st2 & Hfetch & H).
    apply verifyVoucher_Ok in H
      as (-> & -> & tail & tp & k1 & k2 & Hnth & Hpay & Hk1 & Hk2 & Heq).
    pose proof Hhello as Hh.
    apply helloDevice_Ok in Hh
      as (n & resp & hdr & pl & _ & Hresp & _ & Hdec & _ & _ & Hkey & _).
    exists st1, resp, hdr, entries, tail, tp, k1, k2. repeat split; assumption.
  - intros st st1 st2 info entries tail tp k1 k2
      Hhello Hfetch Hnth Hpay Hk1 Hk2 Hneq.
    unfold verifyOwner, bind at 1. rewrite Hhello.
    destruct (NumVoucherEntries info =? 0); [cbn; eauto|].
    unfold bind. rewrite Hfetch.
    destruct (@verifyVoucher_keys_differ info entries st2 _ _ _ _
                Hnth Hpay Hk1 Hk2 Hneq) as (e & ->).
    cbn. eauto.
Qed.

(** C8: when the ProveOVHdr response announces zero voucher entries,
    [verifyOwner] returns an error in the state [helloDevice] left: the
    HelloDevice request is the only message it has sent. *)
Theorem zero_entries_rejected st st1 (info : to2Context) :
  helloDevice d c st = (st1, Ok info) ->
  NumVoucherEntries info = 0 ->
  verifyOwner d c st
  = (st1, Err "ownership voucher cannot have zero entries")
  /\ exists hello,
       sent st1 = (sent st ++ [(to2HelloDeviceMsgType, hello)])%list.
Proof.
  intros Hhello Hzero. split.
  - unfold verifyOwner, bind. rewrite Hhello, Hzero. reflexivity.
  - apply helloDevice_Ok in Hhello as (n & _ & _ & _ & Hsent & _). eauto.
Qed.

(** Everything a successful [proveDevice] went through. *)
Lemma proveDevice_Ok (info info' : to2Context) st st' (vh : VoucherHeader) :
  proveDevice d c info st = (st', (info', Ok vh)) ->
  exists setupDeviceNonce signature resp setupDevice payload,
    info' = set_SetupDvNonce info setupDeviceNonce
    /\ sent st' = (sent st ++
         [(to2ProveDeviceMsgType,
           ProveDeviceMsg
             {| tok_UnprotectedNonce := setupDeviceNonce;
                tok_Payload := newEAT (cred_GUID (Cred c)) (ProveDvNonce info)
                                 {| KeyExchangeB := None |};
                tok_Signature := signature |})])%list
    /\ Transport_Send c (sent st') = Ok resp
    /\ typ resp = to2SetupDeviceMsgType
    /\ decodeSetupDevice d (body resp) = Ok setupDevice
    /\ Payload setupDevice = Some payload
    /\ NonceTO2SetupDv payload = setupDeviceNonce
    /\ vh = {| Version := Version (OVH info);
               vh_GUID := sd_GUID payload;
               RvInfo := sd_RendezvousInfo payload;
               DeviceInfo := DeviceInfo (OVH info);
               ManufacturerKey := Owner2Key payload;
               CertChainHash := CertChainHash (OVH info) |}.
Proof.
  unfold proveDevice. intros H.
  destruct (wrapErr _ (newNonce d) st) as [st1 [nonce|e|e]] eqn:Hnonce;
    [|discriminate|discriminate].
  apply wrapErr_Ok, newNonce_Ok in Hnonce.
  destruct (proveDeviceExchange d c _ nonce st1) as [st2 r] eqn:Hrun.
  injection H as -> <- ->.
  unfold proveDeviceExchange in Hrun. cbn [ProveDvNonce set_SetupDvNonce OVH] in Hrun.
  step_ok Hrun. step_ok Hrun.
  apply bind_Ok in Hrun as (signature & st3 & Hsig & Hrun). step_ok Hsig.
  apply bind_Ok in Hrun as (resp & st3 & Hsend & Hrun). step_ok Hsend.
  rewrite Hnonce in Hsent.
  destruct (typ resp =? to2SetupDeviceMsgType) eqn:Htyp;
    [|destruct (typ resp =? ErrorMsgType); step_ok Hrun].
  apply bind_Ok in Hrun as (setupDevice & st4 & Hdec & Hrun). step_ok Hdec.
  apply bind_Ok in Hrun as (payload & st4 & Hpay & Hrun). step_ok Hpay.
  destruct (bytes_eqb _ _) eqn:Hnon; cbn [negb] in Hrun; [|step_ok Hrun].
  step_ok Hrun. apply bytes_eqb_true in Hnon. apply Z.eqb_eq in Htyp.
  exists nonce, signature, resp, setupDevice, payload.
  repeat split; assumption.
Qed.

(** Everything a successful Done/Done2 exchange went through. *)
Lemma sendDone_Ok (proveDvNonce setupDvNonce : Nonce) st st' (v : unit) :
  sendDone d c proveDvNonce setupDvNonce st = (st', Ok v) ->
  exists resp done2,
    sent st' = (sent st ++ [(to2DoneMsgType, DoneMsg proveDvNonce)])%list
    /\ Transport_Send c (sent st') = Ok resp
    /\ typ resp = to2OVNextEntryMsgType
    /\ decodeDone2 d (body resp) = Ok done2
    /\ done2 = setupDvNonce.
Proof.
  unfold sendDone. intros H.
  apply bind_Ok in H as (resp & st1 & Hsend & H). step_ok Hsend.
  destruct (typ resp =? to2OVNextEntryMsgType) eqn:Htyp;
    [|destruct (typ resp =? ErrorMsgType); step_ok H].
  apply bind_Ok in H as (done2 & st2 & Hdec & H). step_ok Hdec.
  destruct (bytes_eqb _ _) eqn:Hnon; cbn [negb] in H; [|step_ok H].
  step_ok H. apply bytes_eqb_true in Hnon. apply Z.eqb_eq in Htyp.
  exists resp, done2. repeat split; assumption.
Qed.

(** A successful [exchangeServiceInfo] ends in a successful Done/Done2
    exchange. *)
Lemma exchangeServiceInfo_Ok (fuel : nat) (proveDvNonce setupDvNonce : Nonce)
    (mtu : Z) st st' (v : unit) :
  exchangeServiceInfo d c fuel proveDvNonce setupDvNonce mtu st
  = Some (st', Ok v) ->
  exists st1, sendDone d c proveDvNonce setupDvNonce st1 = (st', Ok v).
Proof.
  unfold exchangeServiceInfo.
  destruct (serviceInfoLoop d c fuel mtu st) as [[st1 [u|e|e]]|];
    intros [= H]; eauto.
Qed.

(** C6: the replacement header [proveDevice] returns takes [Version],
    [DeviceInfo] and [CertChainHash] from the original voucher header and
    [GUID], [RvInfo] and [ManufacturerKey] from the [GUID],
    [RendezvousInfo] and [Owner2Key] fields of the SetupDevice payload
    decoded from the response to ProveDevice; the six fields are the whole
    header. *)
Theorem replacement_header_fields (info info' : to2Context) st st'
    (vh : VoucherHeader) :
  proveDevice d c info st = (st', (info', Ok vh)) ->
  exists resp setupDevice payload,
    Transport_Send c (sent st') = Ok resp
    /\ typ resp = to2SetupDeviceMsgType
    /\ decodeSetupDevice d (body resp) = Ok setupDevice
    /\ Payload setupDevice = Some payload
    /\ vh = {| Version := Version (OVH info);
               vh_GUID := sd_GUID payload;
               RvInfo := sd_RendezvousInfo payload;
               DeviceInfo := DeviceInfo (OVH info);
               ManufacturerKey := Owner2Key payload;
               CertChainHash := CertChainHash (OVH info) |}.
Proof.
  intros H.
  apply proveDevice_Ok in H
    as (n & sg & resp & sd & pl & _ & _ & Hresp & Htyp & Hdec & Hpay & _ & Hvh).
  exists resp, sd, pl. repeat split; assumption.
Qed.

Lemma newNonce_run (prefix : string) st :
  wrapErr prefix (newNonce d) st
  = match failure (rand d (tick st)) with
    | Some e => ({| sent := sent st; tick := S (tick st) |},
                 Err (wrap prefix e))
    | None => ({| sent := sent st; tick := S (tick st) |},
               Ok (readInto (rand d (tick st)) 16))
    end.
Proof.
  unfold wrapErr, newNonce. destruct (failure (rand d (tick st))); reflexivity.
Qed.

(** [helloDevice] hands the transport its request as soon as the nonce
    is drawn, and nothing else. *)
Lemma helloDevice_sent st :
  sent (fst (helloDevice d c st))
  = match failure (rand d (tick st)) with
    | Some _ => sent st
    | None =>
        (sent st ++
         [(to2HelloDeviceMsgType,
           HelloDeviceMsg 0 (cred_GUID (Cred c))
             (readInto (rand d (tick st)) 16) "" 0
             {| SigType := ES384Alg; SigInfoBytes := [] |})])%list
    end.
Proof.
  unfold helloDevice, newNonce, errorResponse, unexpectedType, deref, bind,
    wrapErr, lift, Send, fail, ret.
  cbn [sent tick]. repeat split_run; reflexivity.
Qed.

(** [proveDevice] hands the transport its request once the nonce is
    drawn and the token is signed, and nothing else. *)
Lemma proveDevice_sent (info : to2Context) st :
  let setupDeviceNonce := readInto (rand d (tick st)) 16 in
  let token := newEAT (cred_GUID (Cred c)) (ProveDvNonce info)
                 {| KeyExchangeB := None |} in
  sent (fst (proveDevice d c info st))
  = match failure (rand d (tick st)), NewHeader d setupDeviceNonce,
          signOptsFor d c, Key_Sign c setupDeviceNonce token with
    | None, None, None, Ok signature =>
        (sent st ++
         [(to2ProveDeviceMsgType,
           ProveDeviceMsg {| tok_UnprotectedNonce := setupDeviceNonce;
                             tok_Payload := token;
                             tok_Signature := signature |})])%list
    | _, _, _, _ => sent st
    end.
Proof.
  cbv zeta.
  unfold proveDevice, proveDeviceExchange, newNonce, errorResponse,
    unexpectedType, deref, bind, wrapErr, check, lift, Send, fail, ret.
  cbn [sent tick ProveDvNonce set_SetupDvNonce].
  repeat split_run; reflexivity.
Qed.

(** A history never equals itself with one more message. *)
Lemma sent_grew (h : History) (m : Z * Request) : h <> (h ++ [m])%list.
Proof.
  intros H. apply (f_equal (@List.length _)) in H.
  rewrite length_app in H. cbn in H. lia.
Qed.

(** C7: each of the three nonce checks lets the driver succeed only on
    equal nonces, and turns a mismatch into an error.  A successful
    [helloDevice] sent a hello nonce and decoded the same nonce from
    ProveOVHdr; a successful [proveDevice] sent a setup-device nonce and
    decoded the same nonce from SetupDevice; a successful
    [exchangeServiceInfo] decoded from the response to Done the
    setup-device nonce it was given.  Conversely, when the request went
    out and the response of the expected type decodes to another nonce,
    the run returns an error: [proveDevice] and [exchangeServiceInfo]
    return their mismatch error at once; [helloDevice], which checks the
    header and the signature first, returns an error whenever the parsing
    and verification functions return at all, and its mismatch error when
    header and signature are in order. *)
Theorem accepted_nonces_match :
  (forall st st' info,
     helloDevice d c st = (st', Ok info) ->
     exists sentNonce resp proveOVHdr payload,
       sent st' = (sent st ++
          [(to2HelloDeviceMsgType,
            HelloDeviceMsg 0 (cred_GUID (Cred c)) sentNonce "" 0
              {| SigType := ES384Alg; SigInfoBytes := [] |})])%list
       /\ Transport_Send c (sent st') = Ok resp
       /\ decodeProveOVHdr d (body resp) = Ok proveOVHdr
       /\ Payload proveOVHdr = Some payload
       /\ p_NonceTO2ProveOV payload = sentNonce)
  /\ (forall info info' st st' vh,
        proveDevice d c info st = (st', (info', Ok vh)) ->
        exists token resp setupDevice payload,
          sent st' = (sent st
                      ++ [(to2ProveDeviceMsgType, ProveDeviceMsg token)])%list
          /\ Transport_Send c (sent st') = Ok resp
          /\ decodeSetupDevice d (body resp) = Ok setupDevice
          /\ Payload setupDevice = Some payload
          /\ NonceTO2SetupDv payload = tok_UnprotectedNonce token
          /\ SetupDvNonce info' = tok_UnprotectedNonce token)
  /\ (forall fuel proveDvNonce setupDvNonce mtu st st' v,
        exchangeServiceInfo d c fuel proveDvNonce setupDvNonce mtu st
        = Some (st', Ok v) ->
        exists resp done2,
          Transport_Send c (sent st') = Ok resp
          /\ decodeDone2 d (body resp) = Ok done2
          /\ done2 = setupDvNonce)
  /\ (forall st sentNonce resp proveOVHdr payload,
        sent (fst (helloDevice d c st)) = (sent st ++
          [(to2HelloDeviceMsgType,
            HelloDeviceMsg 0 (cred_GUID (Cred c)) sentNonce "" 0
              {| SigType := ES384Alg; SigInfoBytes := [] |})])%list ->
        Transport_Send c (sent (fst (helloDevice d c st))) = Ok resp ->
        typ resp = to2ProveOVHdrMsgType ->
        decodeProveOVHdr d (body resp) = Ok proveOVHdr ->
        Payload proveOVHdr = Some payload ->
        p_NonceTO2ProveOV payload <> sentNonce ->
        ((forall bs e, unmarshalNonce d bs <> Panic e) ->
         (forall bs e, unmarshalPublicKey d bs <> Panic e) ->
         (forall key e, Public d key <> Panic e) ->
         (forall key e, Verify d proveOVHdr key <> Panic e) ->
         exists e, snd (helloDevice d c st) = Err e)
        /\ (forall cuphNonce ownerPubKey key,
              lookup to2NonceClaim (Unprotected proveOVHdr) <> [] ->
              unmarshalNonce d (lookup to2NonceClaim (Unprotected proveOVHdr))
              = Ok cuphNonce ->
              lookup to2OwnerPubKeyClaim (Unprotected proveOVHdr) <> [] ->
              unmarshalPublicKey d
                (lookup to2OwnerPubKeyClaim (Unprotected proveOVHdr))
              = Ok ownerPubKey ->
              Public d ownerPubKey = Ok key ->
              Verify d proveOVHdr key = Ok true ->
              snd (helloDevice d c st)
              = Err "nonce in TO2.ProveOVHdr did not match nonce sent in TO2.HelloDevice"))
  /\ (forall info st token resp setupDevice payload,
        sent (fst (proveDevice d c info st))
        = (sent st ++ [(to2ProveDeviceMsgType, ProveDeviceMsg token)])%list ->
        Transport_Send c (sent (fst (proveDevice d c info st))) = Ok resp ->
        typ resp = to2SetupDeviceMsgType ->
        decodeSetupDevice d (body resp) = Ok setupDevice ->
        Payload setupDevice = Some payload ->
        NonceTO2SetupDv payload <> tok_UnprotectedNonce token ->
        snd (snd (proveDevice d c info st))
        = Err "nonce in TO2.SetupDevice did not match nonce sent in TO2.ProveDevice")
  /\ (forall fuel proveDvNonce setupDvNonce mtu st st1 resp done2,
        serviceInfoLoop d c fuel mtu st = Some (st1, Ok tt) ->
        Transport_Send c
          (sent st1 ++ [(to2DoneMsgType, DoneMsg proveDvNonce)])%list
        = Ok resp ->
        typ resp = to2OVNextEntryMsgType ->
        decodeDone2 d (body resp) = Ok done2 ->
        done2 <> setupDvNonce ->
        exists st',
          exchangeServiceInfo d c fuel proveDvNonce setupDvNonce mtu st
          = Some (st', Err "nonce received in TO2.Done2 message did not match nonce received in TO2.SetupDevice")).
Proof.
  split; [|split; [|split; [|split; [|split]]]].
  - intros st st' info H.
    apply helloDevice_Ok in H
      as (n & resp & hdr & pl & Hsent & Hresp & _ & Hdec & Hpay & Hn & _).
    exists n, resp, hdr, pl. repeat split; assumption.
  - intros info info' st st' vh H.
    apply proveDevice_Ok in H
      as (n & sg & resp & sd & pl & -> & Hsent & Hresp & _ & Hdec & Hpay
          & Hn & _).
    eexists _, resp, sd, pl. split; [exact Hsent|].
    repeat split; assumption.
  - intros fuel pn sn mtu st st' v H.
    apply exchangeServiceInfo_Ok in H as (st1 & H).
    apply sendDone_Ok in H as (resp & done2 & _ & Hresp & _ & Hdec & Hn).
    exists resp, done2. repeat split; assumption.
  - intros st sentNonce resp hdr pl Hsent Hresp Htyp Hdec Hpay Hneq.
    assert (bytes_eqb (p_NonceTO2ProveOV pl) sentNonce = false) as Hcmp.
    { destruct (bytes_eqb _ _) eqn:E; [|reflexivity].
      apply bytes_eqb_true in E. contradiction. }
    rewrite helloDevice_sent in Hsent, Hresp.
    destruct (failure (rand d (tick st))) as [e|] eqn:Hrand;
      [now apply sent_grew in Hsent|].
    apply app_inv_head in Hsent. injection Hsent as Hn.
    rewrite Hn in Hresp.
    unfold helloDevice.
    erewrite bind_run by (rewrite newNonce_run, Hrand, Hn; reflexivity).
    erewrite bind_run
      by (unfold Send; cbn [sent tick]; rewrite Hresp; reflexivity).
    rewrite Htyp, Z.eqb_refl.
    erewrite bind_run by (unfold wrapErr, lift; rewrite Hdec; reflexivity).
    split.
    + intros HnoNonce HnoKey HnoPublic HnoVerify.
      unfold deref. unfold bind, wrapErr, lift, fail, ret.
      repeat (first
        [ rewrite Hpay
        | rewrite Hcmp
        | match goal with
          | |- context [match ?x with _ => _ end] =>
              lazymatch x with
              | context [match ?y with _ => _ end] => fail
              | _ => destruct x eqn:?
              end
          end ];
        cbv beta iota; cbn [negb snd]);
        first [ eexists; reflexivity
              | exfalso; eapply HnoNonce; eassumption
              | exfalso; eapply HnoKey; eassumption
              | exfalso; eapply HnoPublic; eassumption
              | exfalso; eapply HnoVerify; eassumption ].
    + intros cuphNonce ownerPubKey key Hnz Hcuph Hkz Hkey Hpub Hver.
      erewrite bind_run
        by (destruct (lookup to2NonceClaim (Unprotected hdr));
            [contradiction|];
            unfold wrapErr, lift; rewrite Hcuph; reflexivity).
      erewrite bind_run
        by (destruct (lookup to2OwnerPubKeyClaim (Unprotected hdr));
            [contradiction|];
            unfold wrapErr, lift; rewrite Hkey; reflexivity).
      erewrite bind_run by (unfold wrapErr, lift; rewrite Hpub; reflexivity).
      erewrite bind_run by (unfold wrapErr, lift; rewrite Hver; reflexivity).
      cbn [negb].
      erewrite bind_run by (rewrite Hpay; reflexivity).
      rewrite Hcmp. reflexivity.
  - intros info st token resp sd pl Hsent Hresp Htyp Hdec Hpay Hneq.
    rewrite Hsent in Hresp. rewrite proveDevice_sent in Hsent.
    assert (bytes_eqb (NonceTO2SetupDv pl) (tok_UnprotectedNonce token)
            = false) as Hcmp.
    { destruct (bytes_eqb _ _) eqn:E; [|reflexivity].
      apply bytes_eqb_true in E. contradiction. }
    destruct (failure (rand d (tick st))) as [e|] eqn:Hrand;
      [now apply sent_grew in Hsent|].
    destruct (NewHeader d _) as [e|] eqn:Hheader;
      [now apply sent_grew in Hsent|].
    destruct (signOptsFor d c) as [e|] eqn:Hopts;
      [now apply sent_grew in Hsent|].
    destruct (Key_Sign c _ _) as [signature|e|e] eqn:Hsig;
      [|now apply sent_grew in Hsent|now apply sent_grew in Hsent].
    apply app_inv_head in Hsent. injection Hsent as <-.
    cbn [tok_UnprotectedNonce] in Hcmp.
    unfold proveDevice. rewrite newNonce_run, Hrand.
    unfold proveDeviceExchange. cbn [ProveDvNonce set_SetupDvNonce OVH].
    rewrite Hheader, Hopts. unfold check.
    rewrite !(bind_run _ _ _ eq_refl).
    erewrite bind_run by (unfold wrapErr, lift; rewrite Hsig; reflexivity).
    erewrite bind_run
      by (unfold wrapErr, Send; cbn [sent tick]; rewrite Hresp; reflexivity).
    rewrite Htyp, Z.eqb_refl.
    erewrite bind_run by (unfold wrapErr, lift; rewrite Hdec; reflexivity).
    erewrite bind_run by (rewrite Hpay; reflexivity).
    rewrite Hcmp. reflexivity.
  - intros fuel pn sn mtu st st1 resp done2 Hloop Hresp Htyp Hdec Hneq.
    unfold exchangeServiceInfo. rewrite Hloop. eexists.
    unfold sendDone.
    erewrite bind_run
      by (unfold wrapErr, Send; cbn [sent tick]; rewrite Hresp; reflexivity).
    rewrite Htyp, Z.eqb_refl.
    erewrite bind_run by (unfold wrapErr, lift; rewrite Hdec; reflexivity).
    destruct (bytes_eqb done2 sn) eqn:E;
      [apply bytes_eqb_true in E; contradiction|].
    reflexivity.
Qed.

(** C2 (as the code behaves): when the transport answers Done with the
    Done2 message type 71, the driver returns the unexpected-type error,
    whatever the body; when it answers with type 63 (OVNextEntry) and a
    body that decodes to the setup-device nonce, the driver succeeds. *)
Theorem done2_expects_type_63 (proveDvNonce setupDvNonce : Nonce) st
    (resp : Response) :
  Transport_Send c (sent st ++ [(to2DoneMsgType, DoneMsg proveDvNonce)])%list
  = Ok resp ->
  (typ resp = to2Done2MsgType ->
   snd (sendDone d c proveDvNonce setupDvNonce st)
   = Err "unexpected message type for response to TO2.Done: 71")
  /\ (typ resp = to2OVNextEntryMsgType ->
      decodeDone2 d (body resp) = Ok setupDvNonce ->
      snd (sendDone d c proveDvNonce setupDvNonce st) = Ok tt).
Proof.
  intros Hresp.
  unfold sendDone, unexpectedType, bind, wrapErr, Send, lift, fail.
  cbn [sent]. rewrite Hresp.
  split.
  - intros ->. reflexivity.
  - intros -> ->. cbn.
    assert (bytes_eqb setupDvNonce setupDvNonce = true) as ->
      by now apply bytes_eqb_true.
    reflexivity.
Qed.

(** C4 (as the code behaves): whatever the outcome of [proveDevice], it
    hands the transport at most one message, a ProveDevice(64) request
    whose EAT payload has a nil [KeyExchangeB]; no key-exchange parameter
    is ever put there. *)
Theorem proveDevice_sends_nil_key_exchange (info : to2Context) st :
  let st' := fst (proveDevice d c info st) in
  sent st' = sent st
  \/ exists setupDeviceNonce signature,
       sent st' = (sent st ++
         [(to2ProveDeviceMsgType,
           ProveDeviceMsg
             {| tok_UnprotectedNonce := setupDeviceNonce;
                tok_Payload := newEAT (cred_GUID (Cred c)) (ProveDvNonce info)
                                 {| KeyExchangeB := None |};
                tok_Signature := signature |})])%list.
Proof.
  cbv zeta.
  unfold proveDevice, proveDeviceExchange, newNonce, errorResponse,
    unexpectedType, deref, bind, wrapErr, check, lift, Send, fail, ret.
  cbn [sent ProveDvNonce set_SetupDvNonce].
  repeat split_run; eauto.
Qed.

(** C10: whatever the outcome of [readyServiceInfo], it hands the
    transport at most one message, a DeviceServiceInfoReady(66) request
    whose [MaxOwnerServiceInfoSize] is the client's
    [MaxServiceInfoSizeReceive] when that is non-zero and [DefaultMTU]
    otherwise; that value is never zero.  The request is sent, with that
    size, in every run in which the HMAC of the replacement header was
    computed, whatever the owner answers. *)
Theorem ready_announces_receive_size (replacementOVH : VoucherHeader) st :
  let st' := fst (readyServiceInfo d c replacementOVH st) in
  let size := if MaxServiceInfoSizeReceive c =? 0 then DefaultMTU
              else MaxServiceInfoSizeReceive c in
  size <> 0
  /\ (sent st' = sent st
      \/ exists replacementHmac,
           sent st' = (sent st ++
             [(to2DeviceServiceInfoReadyMsgType,
               DeviceServiceInfoReadyMsg replacementHmac size)])%list)
  /\ (forall replacementHmac,
        (if Hmac_Supports c HmacSha384Hash
         then Hmac_Hmac c HmacSha384Hash replacementOVH
         else Hmac_Hmac c HmacSha256Hash replacementOVH)
        = Ok replacementHmac ->
        sent st' = (sent st ++
          [(to2DeviceServiceInfoReadyMsgType,
            DeviceServiceInfoReadyMsg replacementHmac size)])%list).
Proof.
  cbv zeta. split; [|split].
  - destruct (Z.eqb_spec (MaxServiceInfoSizeReceive c) 0);
      [discriminate | assumption].
  - unfold readyServiceInfo, errorResponse, unexpectedType, bind, wrapErr,
      lift, Send, fail, ret.
    cbn [sent].
    destruct (if Hmac_Supports c HmacSha384Hash
              then Hmac_Hmac c HmacSha384Hash replacementOVH
              else Hmac_Hmac c HmacSha256Hash replacementOVH)
      as [replacementHmac|e|e]; cbn [fst sent]; [right|left|left]; auto.
    exists replacementHmac.
    repeat split_run; reflexivity.
  - intros replacementHmac Hhmac.
    unfold readyServiceInfo, errorResponse, unexpectedType, bind, wrapErr,
      lift, Send, fail, ret.
    cbn [sent]. rewrite Hhmac.
    repeat split_run; reflexivity.
Qed.

End DriverRuns.

(** The toy owner, whose one-entry voucher ends in the owner key, is
    accepted; the same owner with a voucher ending in another key is
    refused. *)
Lemma accepted_owner_key_is_voucher_tail_witness :
  (exists st' info ownerPub expectedOwnerPub,
     verifyOwner (TO2Fixture.toyDeps 1 TO2Fixture.keyOne)
       (TO2Fixture.toyClient 63 0) TO2Fixture.start = (st', Ok info)
     /\ Public (TO2Fixture.toyDeps 1 TO2Fixture.keyOne) (ctx_PublicKey info)
        = Ok ownerPub
     /\ Public (TO2Fixture.toyDeps 1 TO2Fixture.keyOne) TO2Fixture.keyOne
        = Ok expectedOwnerPub
     /\ Equal (TO2Fixture.toyDeps 1 TO2Fixture.keyOne) ownerPub expectedOwnerPub
        = true)
  /\ exists e,
       snd (verifyOwner (TO2Fixture.toyDeps 1 TO2Fixture.keyTwo)
              (TO2Fixture.toyClient 63 0) TO2Fixture.start) = Err e.
Proof.
  split.
  - destruct (proj1 (accepted_owner_key_is_voucher_tail
                       (TO2Fixture.toyDeps 1 TO2Fixture.keyOne)
                       (TO2Fixture.toyClient 63 0))
                TO2Fixture.start _ _ eq_refl)
      as (st1 & resp & hdr & entries & tail & tp & k1 & k2 & Hhello & _ & _ & _
          & Hfetch & Hnth & Hpay & Hk1 & Hk2 & Heq).
    eexists _, _, k1, k2. split; [reflexivity|]. split; [exact Hk1|].
    split; [|exact Heq].
    vm_compute in Hhello. injection Hhello as <-.
    vm_compute in Hfetch. injection Hfetch as <-.
    vm_compute in Hnth. injection Hnth as <-.
    vm_compute in Hpay. injection Hpay as <-. exact Hk2.
  - eapply (proj2 (accepted_owner_key_is_voucher_tail
                     (TO2Fixture.toyDeps 1 TO2Fixture.keyTwo)
                     (TO2Fixture.toyClient 63 0))
              TO2Fixture.start).
    + vm_compute. reflexivity.
    + vm_compute. reflexivity.
    + vm_compute. reflexivity.
    + vm_compute. reflexivity.
    + vm_compute. reflexivity.
    + vm_compute. reflexivity.
    + vm_compute. reflexivity.
Defined.

(** The toy owner announcing an empty voucher. *)
Lemma zero_entries_rejected_witness :
  verifyOwner (TO2Fixture.toyDeps 0 TO2Fixture.keyOne)
    (TO2Fixture.toyClient 63 0) TO2Fixture.start
  = (fst (helloDevice (TO2Fixture.toyDeps 0 TO2Fixture.keyOne)
            (TO2Fixture.toyClient 63 0) TO2Fixture.start),
     Err "ownership voucher cannot have zero entries").
Proof.
  apply (@zero_entries_rejected (TO2Fixture.toyDeps 0 TO2Fixture.keyOne)
           (TO2Fixture.toyClient 63 0) TO2Fixture.start _
           (TO2Fixture.toyInfo 0));
    vm_compute; reflexivity.
Defined.

(** Against the toy owner the replacement header mixes the original
    header with the SetupDevice payload. *)
Lemma replacement_header_fields_witness :
  exists resp setupDevice payload,
    Transport_Send (TO2Fixture.toyClient 63 0)
      (sent (fst (proveDevice (TO2Fixture.toyDeps 1 TO2Fixture.keyOne)
                    (TO2Fixture.toyClient 63 0) (TO2Fixture.toyInfo 1)
                    TO2Fixture.start))) = Ok resp
    /\ typ resp = to2SetupDeviceMsgType
    /\ decodeSetupDevice (TO2Fixture.toyDeps 1 TO2Fixture.keyOne) (body resp)
       = Ok setupDevice
    /\ Payload setupDevice = Some payload
    /\ {| Version := 101; vh_GUID := ["009"%byte];
          RvInfo := [[["005"%byte]]]; DeviceInfo := "device";
          ManufacturerKey := TO2Fixture.keyTwo;
          CertChainHash := Some TO2Fixture.toyHash |}
       = {| Version := Version (OVH (TO2Fixture.toyInfo 1));
            vh_GUID := sd_GUID payload;
            RvInfo := sd_RendezvousInfo payload;
            DeviceInfo := DeviceInfo (OVH (TO2Fixture.toyInfo 1));
            ManufacturerKey := Owner2Key payload;
            CertChainHash := CertChainHash (OVH (TO2Fixture.toyInfo 1)) |}.
Proof.
  exact (@replacement_header_fields (TO2Fixture.toyDeps 1 TO2Fixture.keyOne)
           (TO2Fixture.toyClient 63 0) (TO2Fixture.toyInfo 1) _
           TO2Fixture.start _ _ eq_refl).
Defined.

(** The three nonce exchanges against the toy owner, which echoes the
    all-zero nonces the toy randomness produces; and the same owner
    against a device whose nonces are not all-zero, which gets the three
    mismatch errors. *)
Lemma accepted_nonces_match_witness :
  (exists sentNonce payload,
     Payload (TO2Fixture.toyProveOVHdr 1) = Some payload
     /\ p_NonceTO2ProveOV payload = sentNonce
     /\ sentNonce = TO2Fixture.zeroNonce)
  /\ (exists token resp setupDevice payload,
        Transport_Send (TO2Fixture.toyClient 63 0)
          (sent (fst (proveDevice (TO2Fixture.toyDeps 1 TO2Fixture.keyOne)
                        (TO2Fixture.toyClient 63 0) (TO2Fixture.toyInfo 1)
                        TO2Fixture.start))) = Ok resp
        /\ decodeSetupDevice (TO2Fixture.toyDeps 1 TO2Fixture.keyOne)
             (body resp) = Ok setupDevice
        /\ Payload setupDevice = Some payload
        /\ NonceTO2SetupDv payload = tok_UnprotectedNonce token)
  /\ (exists resp done2,
        Transport_Send (TO2Fixture.toyClient 63 0)
          (sent (fst (sendDone (TO2Fixture.toyDeps 1 TO2Fixture.keyOne)
                        (TO2Fixture.toyClient 63 0) [] TO2Fixture.zeroNonce
                        {| sent := [(68, DeviceServiceInfoMsg
                                           {| s_IsMoreServiceInfo := false;
                                              s_ServiceInfo := [] |})];
                           tick := 3 |}))) = Ok resp
        /\ decodeDone2 (TO2Fixture.toyDeps 1 TO2Fixture.keyOne) (body resp)
           = Ok done2
        /\ done2 = TO2Fixture.zeroNonce)
  /\ snd (helloDevice TO2NonceFixture.onesDeps (TO2Fixture.toyClient 63 0)
            TO2Fixture.start)
     = Err "nonce in TO2.ProveOVHdr did not match nonce sent in TO2.HelloDevice"
  /\ (exists e,
        snd (helloDevice TO2NonceFixture.onesDeps (TO2Fixture.toyClient 63 0)
               TO2Fixture.start) = Err e)
  /\ snd (snd (proveDevice TO2NonceFixture.onesDeps
                 (TO2Fixture.toyClient 63 0) (TO2Fixture.toyInfo 1)
                 TO2Fixture.start))
     = Err "nonce in TO2.SetupDevice did not match nonce sent in TO2.ProveDevice"
  /\ (exists st',
        exchangeServiceInfo (TO2Fixture.toyDeps 1 TO2Fixture.keyOne)
          (TO2Fixture.toyClient 63 0) 5 [] TO2NonceFixture.onesNonce 1300
          TO2Fixture.start
        = Some (st', Err "nonce received in TO2.Done2 message did not match nonce received in TO2.SetupDevice")).
Proof.
  pose proof (@accepted_nonces_match (TO2Fixture.toyDeps 1 TO2Fixture.keyOne)
                (TO2Fixture.toyClient 63 0))
    as (Hhello & Hsetup & Hdone & _ & _ & Hdone').
  pose proof (@accepted_nonces_match TO2NonceFixture.onesDeps
                (TO2Fixture.toyClient 63 0))
    as (_ & _ & _ & Hhello' & Hsetup' & _).
  split; [|split; [|split; [|split; [|split; [|split]]]]].
  - destruct (Hhello TO2Fixture.start _ (TO2Fixture.toyInfo 1) eq_refl)
      as (n & resp & hdr & pl & Hsent & _ & Hdec & Hpay & Hn).
    vm_compute in Hdec. injection Hdec as <-.
    exists n, pl. split; [exact Hpay|]. split; [exact Hn|].
    vm_compute in Hsent. injection Hsent as <-. reflexivity.
  - destruct (Hsetup (TO2Fixture.toyInfo 1) _ TO2Fixture.start _ _ eq_refl)
      as (tok & resp & sd & pl & _ & Hresp & Hdec & Hpay & Hn & _).
    exists tok, resp, sd, pl. repeat split; assumption.
  - destruct (Hdone 5%nat [] TO2Fixture.zeroNonce 1300 TO2Fixture.start _ tt
                eq_refl)
      as (resp & done2 & Hresp & Hdec & Hn).
    exists resp, done2. repeat split; assumption.
  - refine (proj2 (Hhello' TO2Fixture.start TO2NonceFixture.onesNonce
                     {| typ := 61; body := TO2Fixture.zeroNonce |}
                     (TO2Fixture.toyProveOVHdr 1) _
                     eq_refl eq_refl eq_refl eq_refl eq_refl _)
                  ["011"%byte] TO2Fixture.keyOne ["001"%byte]
                  _ eq_refl _ eq_refl eq_refl eq_refl);
      discriminate.
  - refine (proj1 (Hhello' TO2Fixture.start TO2NonceFixture.onesNonce
                     {| typ := 61; body := TO2Fixture.zeroNonce |}
                     (TO2Fixture.toyProveOVHdr 1) _
                     eq_refl eq_refl eq_refl eq_refl eq_refl _)
                  _ _ _ _);
      discriminate.
  - refine (Hsetup' (TO2Fixture.toyInfo 1) TO2Fixture.start _
              {| typ := 65; body := TO2Fixture.zeroNonce |}
              TO2Fixture.toySetupDevice _
              eq_refl eq_refl eq_refl eq_refl eq_refl _).
    discriminate.
  - refine (Hdone' 5%nat [] TO2NonceFixture.onesNonce 1300 TO2Fixture.start
              _ {| typ := 63; body := TO2Fixture.zeroNonce |}
              TO2Fixture.zeroNonce eq_refl eq_refl eq_refl eq_refl _).
    discriminate.
Defined.

(** A client configured with no receive size announces the default MTU,
    one configured with 777 announces 777; both requests are sent. *)
Lemma ready_announces_receive_size_witness :
  sent (fst (readyServiceInfo (TO2Fixture.toyDeps 1 TO2Fixture.keyOne)
               (TO2Fixture.toyClient 63 0) TO2Fixture.toyHeader
               TO2Fixture.start))
  = [(66, DeviceServiceInfoReadyMsg
            {| Algorithm := HmacSha384Hash; Value := [] |} 1300)]
  /\ sent (fst (readyServiceInfo (TO2Fixture.toyDeps 1 TO2Fixture.keyOne)
                  (TO2Fixture.toyClient 63 777) TO2Fixture.toyHeader
                  TO2Fixture.start))
     = [(66, DeviceServiceInfoReadyMsg
               {| Algorithm := HmacSha384Hash; Value := [] |} 777)].
Proof.
  split.
  - exact (proj2 (proj2 (@ready_announces_receive_size
                           (TO2Fixture.toyDeps 1 TO2Fixture.keyOne)
                           (TO2Fixture.toyClient 63 0) TO2Fixture.toyHeader
                           TO2Fixture.start))
             {| Algorithm := HmacSha384Hash; Value := [] |} eq_refl).
  - exact (proj2 (proj2 (@ready_announces_receive_size
                           (TO2Fixture.toyDeps 1 TO2Fixture.keyOne)
                           (TO2Fixture.toyClient 63 777) TO2Fixture.toyHeader
                           TO2Fixture.start))
             {| Algorithm := HmacSha384Hash; Value := [] |} eq_refl).
Defined.

(** A transport answering Done with type 71 is refused; one answering
    with type 63 and the right nonce is accepted. *)
Lemma done2_expects_type_63_witness :
  snd (sendDone (TO2Fixture.toyDeps 1 TO2Fixture.keyOne)
         (TO2Fixture.toyClient 71 0) [] TO2Fixture.zeroNonce TO2Fixture.start)
  = Err "unexpected message type for response to TO2.Done: 71"
  /\ snd (sendDone (TO2Fixture.toyDeps 1 TO2Fixture.keyOne)
            (TO2Fixture.toyClient 63 0) [] TO2Fixture.zeroNonce
            TO2Fixture.start)
     = Ok tt.
Proof.
  split.
  - apply (proj1 (@done2_expects_type_63
                    (TO2Fixture.toyDeps 1 TO2Fixture.keyOne)
                    (TO2Fixture.toyClient 71 0) [] TO2Fixture.zeroNonce
                    TO2Fixture.start
                    {| typ := 71; body := TO2Fixture.zeroNonce |} eq_refl)).
    reflexivity.
  - apply (proj2 (@done2_expects_type_63
                    (TO2Fixture.toyDeps 1 TO2Fixture.keyOne)
                    (TO2Fixture.toyClient 63 0) [] TO2Fixture.zeroNonce
                    TO2Fixture.start
                    {| typ := 63; body := TO2Fixture.zeroNonce |} eq_refl));
      reflexivity.
Defined.

End TO2Facts.

(** ** More on the key-exchange session *)

Module KexExtra.

Import BigInt BigIntFacts Kex.

(** A byte string of [n] bytes denotes a number below [256^n]. *)
Lemma SetBytes_bound (bs : bytes) :
  (SetBytes bs < 256 ^ N.of_nat (List.length bs))%N.
Proof.
  rewrite <- (rev_involutive bs), SetBytes_rev, length_rev.
  induction (rev bs) as [|b ds IH]; [cbn; lia|].
  cbn [le_value fold_right List.length]. fold (le_value ds).
  rewrite Nat2N.inj_succ, N.pow_succ_r'.
  pose proof (Byte.to_N_bounded b). lia.
Qed.

Lemma readInto_length (rd : Reader) (n : nat) :
  List.length (readInto rd n) = n.
Proof.
  unfold readInto. apply firstn_length_le.
  rewrite length_app, repeat_length. lia.
Qed.

Lemma coprime_2_odd (m : Z) : Z.odd m = true -> Z.gcd 2 m = 1%Z.
Proof.
  intros Hodd.
  pose proof (Z.gcd_divide_l 2 m) as H2.
  pose proof (Z.gcd_divide_r 2 m) as Hm.
  pose proof (Z.gcd_nonneg 2 m) as Hnn.
  assert (Z.gcd 2 m <= 2)%Z by (apply Z.divide_pos_le; [lia|assumption]).
  assert (Z.gcd 2 m <> 0)%Z by (intros E; rewrite E in H2; destruct H2; lia).
  assert (Z.gcd 2 m <> 2)%Z; [|lia].
  intros E. rewrite E in Hm. destruct Hm as [k ->].
  rewrite Z.mul_comm, Z.odd_mul in Hodd. discriminate.
Qed.

(** A power of two leaves a non-zero remainder modulo an odd number. *)
Lemma pow2_mod_odd (x m : N) :
  N.odd m = true -> (1 < m)%N -> (2 ^ Z.of_N x mod Z.of_N m <> 0)%Z.
Proof.
  intros Hodd Hm.
  assert (Hco : Z.gcd 2 (Z.of_N m) = 1%Z).
  { apply coprime_2_odd. destruct m; [discriminate|]. destruct p; easy. }
  induction x as [|x IH] using N.peano_ind.
  - cbn. rewrite Z.mod_1_l; lia.
  - rewrite N2Z.inj_succ, Z.pow_succ_r, Z.mul_comm by lia.
    intros H. apply IH.
    apply (Z.cong_mul_cancel_r_coprime _ 2); [lia|exact Hco|exact H].
Qed.

Section WithSuite.

Variable Suite : CipherSuiteID -> CipherSuite.
Variable EncryptKeySize MacKeySize : Z -> N.
Variable kdf : Z -> bytes -> bytes -> Z -> result bytes.

Let symKey := rsaSymmetricKey EncryptKeySize MacKeySize kdf.
Let param := genParameter EncryptKeySize MacKeySize kdf.
Let setParam := SetParameter EncryptKeySize MacKeySize kdf.

(** X1: the two keys [rsaSymmetricKey] returns are the front and the rest
    of what [kdf] derived from the shared secret: put back together they
    are the [kdf] output, and the first has exactly the key size of the
    encryption algorithm. *)
Theorem rsaSymmetricKey_splits_kdf_output
    (other own p : option N) (cipher : CipherSuite) (sek svk : bytes) :
  symKey other own p cipher = Ok (sek, svk) ->
  exists other' own' bits derived,
    other = Some other' /\ own = Some own'
    /\ kdf (PRFHash cipher) (Bytes (Exp (Z.of_N other') own' p)) [] bits
       = Ok derived
    /\ (sek ++ svk)%list = derived
    /\ Z.of_nat (List.length sek)
       = uint16 (Z.of_N (EncryptKeySize (EncryptAlg cipher))).
Proof.
  unfold symKey, rsaSymmetricKey.
  destruct other as [other'|]; [|discriminate].
  destruct own as [own'|]; [|discriminate].
  set (bits := uint16 _).
  destruct (kdf _ _ _ bits) as [derived|e|e] eqn:Hkdf;
    [|discriminate|discriminate].
  set (sekSize := uint16 (Z.of_N (EncryptKeySize (EncryptAlg cipher)))).
  destruct (Z.ltb_spec (Z.of_nat (List.length derived)) sekSize) as [|Hlen];
    [discriminate|].
  intros [= <- <-]. exists other', own', bits, derived.
  repeat split; try assumption.
  - apply firstn_skipn.
  - assert (0 <= sekSize)%Z by (apply Z.mod_pos_bound; lia).
    rewrite firstn_length_le by lia. lia.
Qed.

(** X2: [Parameter] never sets the local secret [a] of a session that
    already knows the peer parameter [xA], so [SetParameter] on such a
    session, before or after [Parameter], dereferences a nil [a] and
    panics: it only works on the side that generated [xA]. *)
Theorem SetParameter_panics_on_device_side
    (s : RSADHSession) (rand : Reader) (xB : bytes) :
  s_a s = None -> s_xA s <> None ->
  snd (setParam s xB)
  = Panic "invalid memory address or nil pointer dereference"
  /\ snd (setParam (fst (param s rand)) xB)
     = Panic "invalid memory address or nil pointer dereference".
Proof.
  intros Ha HxA.
  assert (Hpanic : forall s', s_a s' = None ->
            snd (setParam s' xB)
            = Panic "invalid memory address or nil pointer dereference").
  { intros s' Ha'. unfold setParam, SetParameter, rsaSymmetricKey.
    cbn [set_xB s_xB s_a]. rewrite Ha'. reflexivity. }
  split; [now apply Hpanic|]. apply Hpanic.
  unfold param, genParameter.
  destruct (s_paramSize s <? 0)%Z; [assumption|].
  destruct (failure rand); [assumption|].
  destruct (s_xA s) as [xa|] eqn:E; [|congruence].
  cbn [set_b s_xA s_b s_p s_crypter].
  destruct (rsaSymmetricKey _ _ _ _ _ _ _) as [[sek svk]|e|e]; exact Ha.
Qed.

(** X3: whatever their outcome, [Parameter] and [SetParameter] leave the
    group, the parameter size, the cipher suite and its id untouched;
    [Parameter] also leaves both exchanged parameters [xA] and [xB] as
    they are, and [SetParameter] both private scalars [a] and [b]. *)
Theorem session_operations_frame (s : RSADHSession) (rand : Reader)
    (xB : bytes) :
  let s1 := fst (param s rand) in
  let s2 := fst (fst (setParam s xB)) in
  (s_p s1 = s_p s /\ s_g s1 = s_g s /\ s_paramSize s1 = s_paramSize s
   /\ ID (s_crypter s1) = ID (s_crypter s)
   /\ Cipher (s_crypter s1) = Cipher (s_crypter s)
   /\ s_xA s1 = s_xA s /\ s_xB s1 = s_xB s)
  /\ (s_p s2 = s_p s /\ s_g s2 = s_g s /\ s_paramSize s2 = s_paramSize s
      /\ ID (s_crypter s2) = ID (s_crypter s)
      /\ Cipher (s_crypter s2) = Cipher (s_crypter s)
      /\ s_a s2 = s_a s /\ s_b s2 = s_b s /\ s_xA s2 = s_xA s).
Proof.
  cbv zeta. split.
  - unfold param, genParameter.
    destruct (s_paramSize s <? 0)%Z; [repeat split|].
    destruct (failure rand); [repeat split|].
    destruct (s_xA s) as [xa|] eqn:E; [|repeat split; assumption].
    destruct (rsaSymmetricKey _ _ _ _ _ _ _) as [[sek svk]|e|e];
      repeat split; assumption.
  - unfold setParam, SetParameter.
    destruct (rsaSymmetricKey _ _ _ _ _ _ _) as [[sek svk]|e|e];
      repeat split.
Qed.

(** X4: on a fresh session of a suite with generator 2 and an odd modulus
    above 1 (no peer parameter yet), [Parameter] with a working source of
    randomness succeeds: it stores a secret of at most [size] bytes as
    [a], derives no keys, and returns a non-empty parameter that denotes
    a number below the modulus. *)
Theorem fresh_Parameter_succeeds (prime : N) (size : Z)
    (cipher : CipherSuiteID) (rand : Reader) :
  N.odd prime = true -> (1 < prime)%N -> (0 <= size)%Z ->
  failure rand = None ->
  let s := newSession Suite prime size None cipher in
  exists x xX,
    param s rand = (set_a s (Some x), Ok xX)
    /\ (x < 256 ^ Z.to_N size)%N
    /\ xX <> []
    /\ (SetBytes xX < prime)%N
    /\ SEK (s_crypter (fst (param s rand))) = []
    /\ SVK (s_crypter (fst (param s rand))) = [].
Proof.
  intros Hodd Hgt Hsize Hrand s.
  assert (Hrun : param s rand
                 = (set_a s (Some (SetBytes (readInto rand (Z.to_nat size)))),
                    Ok (Bytes (Exp 2 (SetBytes (readInto rand (Z.to_nat size)))
                                 (Some prime))))).
  { unfold param, genParameter, s. cbn [newSession s_paramSize s_xA s_g s_p].
    destruct (Z.ltb_spec size 0); [lia|]. rewrite Hrand. reflexivity. }
  set (x := SetBytes (readInto rand (Z.to_nat size))) in *.
  assert (Hexp : exists r : N,
            Exp 2 x (Some prime) = Z.of_N r /\ r <> 0%N /\ (r < prime)%N).
  { unfold Exp. destruct (N.eqb_spec prime 0); [lia|].
    pose proof (pow2_mod_odd x Hodd Hgt) as Hnz.
    pose proof (Z.mod_pos_bound (2 ^ Z.of_N x) (Z.of_N prime)) as Hb.
    exists (Z.to_N (2 ^ Z.of_N x mod Z.of_N prime)). lia. }
  destruct Hexp as (r & Hr & Hrnz & Hrlt).
  exists x, (Bytes (Exp 2 x (Some prime))).
  split; [exact Hrun|]. rewrite Hrun, Hr. repeat split.
  - pose proof (SetBytes_bound (readInto rand (Z.to_nat size))) as Hb.
    rewrite readInto_length in Hb. fold x in Hb.
    now rewrite Z_nat_N in Hb.
  - intros Hnil. apply Bytes_nil_iff in Hnil. contradiction.
  - now rewrite SetBytes_Bytes.
Qed.


End WithSuite.

Section Persistence.

Variable Suite : CipherSuiteID -> CipherSuite.
Variable Blob : Type.
Variable cbor_Marshal : rsadhPersist -> result Blob.
Variable cbor_Unmarshal : Blob -> result rsadhPersist.

Hypothesis cbor_roundtrip :
  forall persist data,
    cbor_Marshal persist = Ok data -> cbor_Unmarshal data = Ok persist.

Lemma optBytes_optSetBytes_optBytes (o : option N) :
  optBytes (optSetBytes (optBytes o)) = optBytes o.
Proof.
  destruct o as [v|]; [|reflexivity].
  destruct (N.eq_dec v 0) as [->|Hnz]; [reflexivity|].
  now rewrite KexFacts.optSetBytes_optBytes by congruence.
Qed.

(** X6: the serialized form is stable.  For every session, also one
    holding zero-valued parameters, what [UnmarshalCBOR] restores from the
    output of [MarshalCBOR] has a prime (so serializing it cannot panic)
    and serializes to the very same persisted record and the same bytes. *)
Theorem restored_session_serializes_alike (s : RSADHSession) (data : Blob) :
  MarshalCBOR cbor_Marshal s = Ok data ->
  exists s' prime,
    UnmarshalCBOR Suite cbor_Unmarshal data = Ok s'
    /\ s_p s = Some prime /\ s_p s' = Some prime
    /\ toPersist s' prime = toPersist s prime
    /\ MarshalCBOR cbor_Marshal s' = Ok data.
Proof.
  intros HM. unfold MarshalCBOR in HM.
  destruct (s_p s) as [prime|] eqn:Hp; [|discriminate].
  pose proof HM as HU. apply cbor_roundtrip in HU.
  assert (Hprime : s_p (fromPersist Suite (toPersist s prime)) = Some prime).
  { cbn [fromPersist toPersist s_p Prime]. now rewrite SetBytes_Bytes. }
  assert (Hsame : toPersist (fromPersist Suite (toPersist s prime)) prime
                  = toPersist s prime).
  { unfold toPersist, fromPersist.
    cbn [Prime Generator ParamSize ParamA ParamXA ParamB ParamXB PCipher PSEK
         PSVK s_g s_paramSize s_a s_xA s_b s_xB s_crypter ID SEK SVK].
    now rewrite !optBytes_optSetBytes_optBytes. }
  exists (fromPersist Suite (toPersist s prime)), prime.
  split; [unfold UnmarshalCBOR; now rewrite HU|].
  repeat split; try assumption.
  unfold MarshalCBOR. rewrite Hprime, Hsame. exact HM.
Qed.

End Persistence.

(** The toy suite splits the three derived bytes two to one. *)
Lemma rsaSymmetricKey_splits_kdf_output_witness :
  exists other' own' bits derived,
    Some 18%N = Some other' /\ Some 15%N = Some own'
    /\ KexFixture.toyKdf (PRFHash (KexFixture.toySuite 1))
         (Bytes (Exp (Z.of_N other') own' (Some 23%N))) [] bits = Ok derived
    /\ (["004"; "000"] ++ ["000"])%byte%list = derived
    /\ Z.of_nat (List.length ["004"; "000"]%byte)
       = uint16 (Z.of_N (KexFixture.toyEncryptKeySize
                           (EncryptAlg (KexFixture.toySuite 1)))).
Proof.
  apply (@rsaSymmetricKey_splits_kdf_output KexFixture.toyEncryptKeySize
           KexFixture.toyMacKeySize KexFixture.toyKdf
           (Some 18%N) (Some 15%N) (Some 23%N) (KexFixture.toySuite 1)).
  vm_compute. reflexivity.
Defined.

(** The device-side toy session panics on [SetParameter]. *)
Lemma SetParameter_panics_on_device_side_witness :
  snd (SetParameter KexFixture.toyEncryptKeySize KexFixture.toyMacKeySize
         KexFixture.toyKdf
         (fst (genParameter KexFixture.toyEncryptKeySize
                 KexFixture.toyMacKeySize KexFixture.toyKdf
                 KexExtraFixture.deviceSession
                 (KexFixture.fixedReader ["015"%byte])))
         ["016"%byte])
  = Panic "invalid memory address or nil pointer dereference".
Proof.
  apply (@SetParameter_panics_on_device_side KexFixture.toyEncryptKeySize
           KexFixture.toyMacKeySize KexFixture.toyKdf
           KexExtraFixture.deviceSession
           (KexFixture.fixedReader ["015"%byte]) ["016"%byte]).
  - reflexivity.
  - vm_compute. discriminate.
Defined.

(** A fresh DHKEXid14 session whose randomness reads as zero. *)
Lemma fresh_Parameter_succeeds_witness :
  let s := KexSuites.DHKEXid14 KexFixture.toySuite None 1 in
  let run := genParameter KexFixture.toyEncryptKeySize
               KexFixture.toyMacKeySize KexFixture.toyKdf s
               (KexFixture.fixedReader []) in
  exists x xX,
    run = (set_a s (Some x), Ok xX)
    /\ (x < 256 ^ Z.to_N 32)%N
    /\ xX <> []
    /\ (SetBytes xX < KexSuites.prime14)%N
    /\ SEK (s_crypter (fst run)) = []
    /\ SVK (s_crypter (fst run)) = [].
Proof.
  apply (@fresh_Parameter_succeeds KexFixture.toySuite
           KexFixture.toyEncryptKeySize KexFixture.toyMacKeySize
           KexFixture.toyKdf KexSuites.prime14 32 1
           (KexFixture.fixedReader [])).
  - vm_compute. reflexivity.
  - vm_compute. reflexivity.
  - lia.
  - reflexivity.
Defined.


(** A session holding the zero parameter [xA] under the identity codec. *)
Lemma restored_session_serializes_alike_witness :
  let s := KexFixture.toySession (Some ["000"%byte]) in
  exists s' prime,
    UnmarshalCBOR KexFixture.toySuite KexFixture.idUnmarshal
      (toPersist s 23%N) = Ok s'
    /\ s_p s = Some prime /\ s_p s' = Some prime
    /\ toPersist s' prime = toPersist s prime
    /\ MarshalCBOR KexFixture.idMarshal s' = Ok (toPersist s 23%N).
Proof.
  apply (@restored_session_serializes_alike KexFixture.toySuite rsadhPersist
           KexFixture.idMarshal KexFixture.idUnmarshal
           (fun persist data (H : Ok persist = Ok data) =>
              match H in _ = r return
                match r with
                | Ok d => KexFixture.idUnmarshal d = Ok persist
                | _ => True
                end
              with eq_refl => eq_refl end)).
  reflexivity.
Defined.

End KexExtra.

(** ** More on the TO2 driver *)

Module TO2Extra.

Import TO2 TO2Trace TO2Facts.
Local Open Scope to2_scope.
Local Open Scope string_scope.
Local Open Scope Z_scope.

Section Driver.

Variable d : Deps.
Variable c : Client.

(** *** Fetching the voucher entries *)

(** Whatever the outcome, [nextOVEntry] hands the transport exactly one
    message, the request for entry [i]. *)
Lemma nextOVEntry_sent (i : Z) st :
  sent (fst (nextOVEntry d c i st))
  = (sent st ++ [(to2GetOVNextEntryMsgType, GetOVNextEntryMsg i)])%list.
Proof.
  unfold nextOVEntry, errorResponse, unexpectedType, bind, wrapErr, lift,
    Send, fail, ret.
  cbn [sent]. repeat split_run; reflexivity.
Qed.

(** X7: [nextOVEntry] succeeds only on a response of type OVNextEntry(63)
    that decodes to the very entry number requested, and returns the
    entry decoded next to that number. *)
Theorem nextOVEntry_echoes_entry_number (i : Z) st st'
    (entry : Sign1 VoucherEntryPayload) :
  nextOVEntry d c i st = (st', Ok entry) ->
  exists resp,
    sent st' = (sent st
                ++ [(to2GetOVNextEntryMsgType, GetOVNextEntryMsg i)])%list
    /\ Transport_Send c (sent st') = Ok resp
    /\ typ resp = to2OVNextEntryMsgType
    /\ decodeOVNextEntry d (body resp) = Ok (i, entry).
Proof.
  unfold nextOVEntry. intros H.
  apply bind_Ok in H as (resp & st1 & Hsend & H). step_ok Hsend.
  destruct (typ resp =? to2OVNextEntryMsgType) eqn:Htyp;
    [|destruct (typ resp =? ErrorMsgType); step_ok H].
  apply bind_Ok in H as ([j e] & st2 & Hdec & H). step_ok Hdec.
  cbn [fst snd] in H.
  destruct (Z.eqb_spec j i) as [->|]; cbn [negb] in H; [|step_ok H].
  step_ok H. subst e. apply Z.eqb_eq in Htyp.
  exists resp. repeat split; assumption.
Qed.

Lemma entryRequests_succ (i : Z) (k : nat) :
  entryRequests i (S k)
  = ((to2GetOVNextEntryMsgType, GetOVNextEntryMsg i)
     :: entryRequests (i + 1) k).
Proof.
  unfold entryRequests. cbn [seq map]. rewrite Z.add_0_r. f_equal.
  rewrite <- seq_shift, map_map. apply map_ext. intros j.
  do 2 f_equal. lia.
Qed.


(** A successful entry loop has sent all [n] requests. *)
Lemma fetchEntries_Ok_trace (n : nat) :
  forall (i : Z) (acc entries : list (Sign1 VoucherEntryPayload)) st st',
    fetchEntries d c n i acc st = (st', Ok entries) ->
    sent st' = (sent st ++ entryRequests i n)%list
    /\ List.length entries = (List.length acc + n)%nat.
Proof.
  induction n as [|n IH]; intros i acc entries st st' H.
  - cbn in H. injection H as <- <-. cbn. rewrite app_nil_r. split; [reflexivity|lia].
  - cbn [fetchEntries] in H.
    apply bind_Ok in H as (entry & st1 & Hnext & H).
    pose proof (nextOVEntry_sent i st) as Hsent.
    rewrite Hnext in Hsent. cbn [fst] in Hsent.
    apply IH in H as (Htrace & Hlen).
    rewrite Htrace, Hsent, entryRequests_succ, <- app_assoc.
    split; [reflexivity|]. rewrite Hlen, length_app. cbn. lia.
Qed.

(** Whatever the outcome, [verifyVoucher] sends nothing. *)
Lemma verifyVoucher_silent (info : to2Context)
    (entries : list (Sign1 VoucherEntryPayload)) st :
  fst (verifyVoucher d c info entries st) = st.
Proof.
  unfold verifyVoucher, lastEntry, deref, bind, check, wrapErr, lift, fail, ret.
  cbn [Entries]. repeat split_run; reflexivity.
Qed.

(** X9: an accepting [verifyOwner] run has sent, in this order, one
    HelloDevice request and the requests for the entries 0, 1, ..., n-1,
    where [n >= 1] is the entry count announced in ProveOVHdr; the
    voucher checks themselves send nothing. *)
Theorem verifyOwner_accepting_trace st st' (info : to2Context) :
  verifyOwner d c st = (st', Ok info) ->
  exists helloNonce,
    (1 <= Z.to_nat (NumVoucherEntries info))%nat
    /\ sent st'
       = (sent st
          ++ (to2HelloDeviceMsgType,
              HelloDeviceMsg 0 (cred_GUID (Cred c)) helloNonce "" 0
                {| SigType := ES384Alg; SigInfoBytes := [] |})
             :: entryRequests 0 (Z.to_nat (NumVoucherEntries info)))%list.
Proof.
  intros H. unfold verifyOwner in H.
  apply bind_Ok in H as (info0 & st1 & Hhello & H).
  destruct (NumVoucherEntries info0 =? 0); [step_ok H|].
  apply bind_Ok in H as (entries & st2 & Hfetch & H).
  pose proof (verifyVoucher_silent info0 entries st2) as Hsilent.
  pose proof H as Hv. apply verifyVoucher_Ok in Hv
    as (_ & -> & tail & _ & _ & _ & Hnth & _).
  rewrite H in Hsilent. cbn [fst] in Hsilent. subst st'.
  apply helloDevice_Ok in Hhello as (n & _ & _ & _ & Hsent & _).
  apply fetchEntries_Ok_trace in Hfetch as (Htrace & Hlen).
  exists n. split.
  - cbn [List.length Nat.add] in Hlen. rewrite <- Hlen.
    destruct entries; [cbn in Hnth; discriminate | cbn; lia].
  - rewrite Htrace, Hsent, <- app_assoc. reflexivity.
Qed.

(** *** HelloDevice and the unprotected header *)

(** X10: a ProveOVHdr response is refused before its nonce is looked at
    when the nonce claim (256) is missing from the unprotected header,
    when the owner-key claim (257) is missing, and when the signature
    does not verify under the claimed owner key. *)
Theorem helloDevice_rejects_bad_header st (resp : Response)
    (proveOVHdr : Sign1 ProveOVHdrPayload) :
  failure (rand d (tick st)) = None ->
  Transport_Send c
    (sent st ++
     [(to2HelloDeviceMsgType,
       HelloDeviceMsg 0 (cred_GUID (Cred c)) (readInto (rand d (tick st)) 16)
         "" 0 {| SigType := ES384Alg; SigInfoBytes := [] |})])%list
  = Ok resp ->
  typ resp = to2ProveOVHdrMsgType ->
  decodeProveOVHdr d (body resp) = Ok proveOVHdr ->
  let nonceBytes := lookup to2NonceClaim (Unprotected proveOVHdr) in
  let keyBytes := lookup to2OwnerPubKeyClaim (Unprotected proveOVHdr) in
  (nonceBytes = [] ->
   snd (helloDevice d c st)
   = Err "nonce unprotected header missing from TO2.ProveOVHdr response message")
  /\ (forall n,
        nonceBytes <> [] -> unmarshalNonce d nonceBytes = Ok n ->
        keyBytes = [] ->
        snd (helloDevice d c st)
        = Err "owner pubkey unprotected header missing from TO2.ProveOVHdr response message")
  /\ (forall n key pub,
        nonceBytes <> [] -> unmarshalNonce d nonceBytes = Ok n ->
        keyBytes <> [] -> unmarshalPublicKey d keyBytes = Ok key ->
        Public d key = Ok pub ->
        Verify d proveOVHdr pub = Ok false ->
        snd (helloDevice d c st)
        = Err (wrap ErrCryptoVerifyFailed
                 "TO2.ProveOVHdr payload signature verification failed")).
Proof.
  intros Hrand Hresp Htyp Hdec. cbv zeta.
  set (nonceBytes := lookup to2NonceClaim (Unprotected proveOVHdr)).
  set (keyBytes := lookup to2OwnerPubKeyClaim (Unprotected proveOVHdr)).
  unfold helloDevice.
  erewrite bind_run
    by (unfold wrapErr, newNonce; rewrite Hrand; reflexivity).
  erewrite bind_run
    by (unfold Send; cbn [sent tick]; rewrite Hresp; reflexivity).
  rewrite Htyp, Z.eqb_refl.
  erewrite bind_run by (unfold wrapErr, lift; rewrite Hdec; reflexivity).
  fold nonceBytes keyBytes.
  split; [|split].
  - intros Hnil. rewrite Hnil. reflexivity.
  - intros n Hnz Hn Hkey.
    erewrite bind_run
      by (destruct nonceBytes; [contradiction|];
          unfold wrapErr, lift; rewrite Hn; reflexivity).
    rewrite Hkey. reflexivity.
  - intros n key pub Hnz Hn Hkz Hkey Hpub Hver.
    erewrite bind_run
      by (destruct nonceBytes; [contradiction|];
          unfold wrapErr, lift; rewrite Hn; reflexivity).
    erewrite bind_run
      by (destruct keyBytes; [contradiction|];
          unfold wrapErr, lift; rewrite Hkey; reflexivity).
    erewrite bind_run by (unfold wrapErr, lift; rewrite Hpub; reflexivity).
    erewrite bind_run by (unfold wrapErr, lift; rewrite Hver; reflexivity).
    reflexivity.
Qed.

(** *** ProveDevice *)

(** X11: whatever its outcome, [proveDevice] changes nothing in the
    context but [SetupDvNonce]; when it sends its request, the EAT's
    unprotected nonce is the nonce it stored there and the payload nonce
    is the context's unchanged [ProveDvNonce]; and when the randomness
    fails it stores and sends nothing. *)
Theorem proveDevice_updates_only_setup_nonce (info : to2Context) st :
  let st' := fst (proveDevice d c info st) in
  let info' := fst (snd (proveDevice d c info st)) in
  set_SetupDvNonce info' (SetupDvNonce info) = info
  /\ (sent st' = sent st
      \/ exists signature,
           sent st' = (sent st ++
             [(to2ProveDeviceMsgType,
               ProveDeviceMsg
                 {| tok_UnprotectedNonce := SetupDvNonce info';
                    tok_Payload := newEAT (cred_GUID (Cred c))
                                     (ProveDvNonce info')
                                     {| KeyExchangeB := None |};
                    tok_Signature := signature |})])%list)
  /\ (failure (rand d (tick st)) <> None ->
      info' = info /\ sent st' = sent st).
Proof.
  cbv zeta. unfold proveDevice. rewrite newNonce_run.
  destruct (failure (rand d (tick st))) as [e|] eqn:Hrand.
  - cbn [fst snd]. destruct info; cbn. auto.
  - set (nonce := readInto (rand d (tick st)) 16).
    set (st1 := {| sent := sent st; tick := S (tick st) |}).
    destruct (proveDeviceExchange d c (set_SetupDvNonce info nonce) nonce st1)
      as [st2 r] eqn:Hrun.
    cbn [fst snd]. split; [destruct info; reflexivity|].
    split; [|congruence].
    assert (Hst2 : st2 = fst (proveDeviceExchange d c
                                (set_SetupDvNonce info nonce) nonce st1))
      by now rewrite Hrun.
    rewrite Hst2. clear Hrun Hst2.
    unfold proveDeviceExchange, errorResponse, unexpectedType, deref, bind,
      wrapErr, check, lift, Send, fail, ret.
    cbn [sent ProveDvNonce SetupDvNonce set_SetupDvNonce st1].
    repeat split_run; eauto.
Qed.

(** *** DeviceServiceInfoReady *)

(** X12: [readyServiceInfo] computes the HMAC of the replacement header
    with SHA-384 when the device supports it and with SHA-256 otherwise.
    When that fails nothing is sent; when the exchange succeeds, that
    HMAC went out in the one message sent, the response had type
    OwnerServiceInfoReady(67), and the result is the size the owner
    announced, or [DefaultMTU] when it announced none. *)
Theorem readyServiceInfo_result (replacementOVH : VoucherHeader) st :
  let alg := if Hmac_Supports c HmacSha384Hash then HmacSha384Hash
             else HmacSha256Hash in
  (forall e,
     Hmac_Hmac c alg replacementOVH = Err e ->
     readyServiceInfo d c replacementOVH st
     = (st, Err ("error computing HMAC of ownership voucher header: " ++ e)))
  /\ (forall st' mtu,
        readyServiceInfo d c replacementOVH st = (st', Ok mtu) ->
        exists replacementHmac size resp announced,
          Hmac_Hmac c alg replacementOVH = Ok replacementHmac
          /\ sent st' = (sent st ++
               [(to2DeviceServiceInfoReadyMsgType,
                 DeviceServiceInfoReadyMsg replacementHmac size)])%list
          /\ Transport_Send c (sent st') = Ok resp
          /\ typ resp = to2OwnerServiceInfoReadyMsgType
          /\ decodeOwnerServiceInfoReady d (body resp) = Ok announced
          /\ mtu = match announced with
                   | Some size' => size'
                   | None => DefaultMTU
                   end).
Proof.
  cbv zeta.
  assert (Halg : (if Hmac_Supports c HmacSha384Hash
                  then Hmac_Hmac c HmacSha384Hash replacementOVH
                  else Hmac_Hmac c HmacSha256Hash replacementOVH)
                 = Hmac_Hmac c (if Hmac_Supports c HmacSha384Hash
                                then HmacSha384Hash else HmacSha256Hash)
                     replacementOVH)
    by (destruct (Hmac_Supports c HmacSha384Hash); reflexivity).
  unfold readyServiceInfo. rewrite Halg. split.
  - intros e He.
    erewrite bind_stop; [reflexivity|].
    unfold wrapErr, lift. rewrite He. reflexivity.
  - intros st' mtu H.
    apply bind_Ok in H as (replacementHmac & st1 & Hhmac & H). step_ok Hhmac.
    apply bind_Ok in H as (resp & st2 & Hsend & H). step_ok Hsend.
    destruct (typ resp =? to2OwnerServiceInfoReadyMsgType) eqn:Htyp;
      [|destruct (typ resp =? ErrorMsgType); step_ok H].
    apply bind_Ok in H as (announced & st3 & Hdec & H). step_ok Hdec.
    apply Z.eqb_eq in Htyp.
    assert (Hres : st' = st2
                   /\ mtu = match announced with
                            | Some size' => size'
                            | None => DefaultMTU
                            end)
      by (destruct announced; step_ok H; auto).
    destruct Hres as [-> ->].
    eexists replacementHmac, _, resp, announced.
    repeat split; eassumption.
Qed.

(** *** The service-info exchange *)


(** X13: [deviceServiceInfo] waits only when it has nothing to send.  With
    an empty message, a context cancelled during the wait makes it return
    the context's error without sending; on success exactly the given
    message has been sent, the response had type OwnerServiceInfo(69) and
    is returned as decoded, and the wait was consulted if and only if the
    message was empty. *)
Theorem deviceServiceInfo_waits_only_when_idle (msg : sendServiceInfo) st :
  (forall e,
     s_ServiceInfo msg = [] -> ctxDone d (tick st) = Some e ->
     deviceServiceInfo d c msg st
     = ({| sent := sent st; tick := S (tick st) |}, Err e))
  /\ (forall st' ownerServiceInfo,
        deviceServiceInfo d c msg st = (st', Ok ownerServiceInfo) ->
        exists resp,
          sent st' = (sent st ++
            [(to2DeviceServiceInfoMsgType, DeviceServiceInfoMsg msg)])%list
          /\ Transport_Send c (sent st') = Ok resp
          /\ typ resp = to2OwnerServiceInfoMsgType
          /\ decodeOwnerServiceInfo d (body resp) = Ok ownerServiceInfo
          /\ tick st' = match s_ServiceInfo msg with
                        | [] => S (tick st)
                        | _ :: _ => tick st
                        end).
Proof.
  unfold deviceServiceInfo. split.
  - intros e Hnil Hdone. rewrite Hnil. cbn [List.length Nat.eqb].
    erewrite bind_stop; [reflexivity|].
    unfold oracle. rewrite Hdone. reflexivity.
  - intros st' r H.
    apply bind_Ok in H as ([] & st1 & Hwait & H).
    assert (Hst1 : sent st1 = sent st
                   /\ tick st1 = match s_ServiceInfo msg with
                                 | [] => S (tick st)
                                 | _ :: _ => tick st
                                 end).
    { destruct (s_ServiceInfo msg); cbn [List.length Nat.eqb] in Hwait.
      - unfold oracle in Hwait. destruct (ctxDone d (tick st));
          [discriminate|]. injection Hwait as <-. auto.
      - step_ok Hwait. auto. }
    destruct Hst1 as [Hs Ht].
    apply bind_Ok in H as (resp & st2 & Hsend & H). step_ok Hsend.
    destruct (typ resp =? to2OwnerServiceInfoMsgType) eqn:Htyp;
      [|destruct (typ resp =? ErrorMsgType); step_ok H].
    step_ok H. apply Z.eqb_eq in Htyp.
    rewrite Hs in Hsent. rewrite Ht in Htick.
    exists resp. repeat split; assumption.
Qed.

(** X14: the read loop of a round takes the chunks in the order the pipe
    yields them and drops none.  On success the message holds the chunks
    it started with followed by the chunks read; chunk [j] was read with
    the budget left after the chunks before it; the loop ended on
    end-of-stream, leaving [IsMoreServiceInfo] as it was, or on
    [ErrSizeTooSmall], setting it; and nothing was sent. *)
Theorem readChunks_collects_in_order (fuel : nat) :
  forall (maxRead : Z) (msg msg' : sendServiceInfo) st st',
    readChunks d fuel maxRead msg st = Some (st', Ok msg') ->
    exists chunks,
      s_ServiceInfo msg' = (s_ServiceInfo msg ++ chunks)%list
      /\ sent st' = sent st
      /\ tick st' = (tick st + List.length chunks + 1)%nat
      /\ (forall j chunk,
            nth_error chunks j = Some chunk ->
            ReadChunk d (tick st + j)
              (budgetAfter d maxRead (firstn j chunks)) = Chunk chunk)
      /\ (ReadChunk d (tick st + List.length chunks)
            (budgetAfter d maxRead chunks) = EOF
          /\ s_IsMoreServiceInfo msg' = s_IsMoreServiceInfo msg
          \/ ReadChunk d (tick st + List.length chunks)
               (budgetAfter d maxRead chunks) = ErrSizeTooSmall
             /\ s_IsMoreServiceInfo msg' = true).
Proof.
  induction fuel as [|fuel IH]; intros maxRead msg msg' st st' H;
    [discriminate|].
  cbn [readChunks] in H.
  destruct (ReadChunk d (tick st) maxRead) as [chunk| | |e] eqn:Hread.
  - apply IH in H as (chunks & Hinfo & Hsent & Htick & Hnth & Hend).
    cbn [s_ServiceInfo s_IsMoreServiceInfo sent tick] in *.
    exists (chunk :: chunks). cbn [List.length].
    split; [rewrite Hinfo, <- app_assoc; reflexivity|].
    split; [assumption|]. split; [lia|]. split.
    + intros [|j] ch Hj; cbn in Hj.
      * injection Hj as <-. cbn. now rewrite Nat.add_0_r.
      * apply Hnth in Hj. cbn [firstn budgetAfter fold_left].
        replace (tick st + S j)%nat with (S (tick st) + j)%nat by lia.
        exact Hj.
    + replace (tick st + S (List.length chunks))%nat
        with (S (tick st) + List.length chunks)%nat by lia.
      exact Hend.
  - injection H as <- <-. exists []. cbn. rewrite app_nil_r, Nat.add_0_r.
    repeat split; try lia. { intros [|j] ch Hj; discriminate. } auto.
  - injection H as <- <-. exists []. cbn. rewrite app_nil_r, Nat.add_0_r.
    repeat split; try lia. { intros [|j] ch Hj; discriminate. } auto.
  - discriminate.
Qed.

(** *** What the service-info exchange sends *)













End Driver.

Section Witnesses.

Let deps := TO2Fixture.toyDeps 1 TO2Fixture.keyOne.
Let client := TO2Fixture.toyClient 63 0.
Let start := TO2Fixture.start.

(** The toy owner returns entry 0 when asked for entry 0. *)
Lemma nextOVEntry_echoes_entry_number_witness :
  exists resp,
    sent (fst (nextOVEntry deps client 0 start))
    = (sent start ++ [(to2GetOVNextEntryMsgType, GetOVNextEntryMsg 0)])%list
    /\ Transport_Send client (sent (fst (nextOVEntry deps client 0 start)))
       = Ok resp
    /\ typ resp = to2OVNextEntryMsgType
    /\ decodeOVNextEntry deps (body resp)
       = Ok (0, TO2Fixture.toyEntry TO2Fixture.keyOne).
Proof.
  apply (@nextOVEntry_echoes_entry_number deps client 0 start).
  vm_compute. reflexivity.
Defined.


(** The accepted toy owner: one HelloDevice, one GetOVNextEntry. *)
Lemma verifyOwner_accepting_trace_witness :
  exists helloNonce,
    (1 <= Z.to_nat (NumVoucherEntries (TO2Fixture.toyInfo 1)))%nat
    /\ sent (fst (verifyOwner deps client start))
       = (sent start
          ++ (to2HelloDeviceMsgType,
              HelloDeviceMsg 0 (cred_GUID (Cred client)) helloNonce "" 0
                {| SigType := ES384Alg; SigInfoBytes := [] |})
             :: entryRequests 0
                  (Z.to_nat (NumVoucherEntries (TO2Fixture.toyInfo 1))))%list.
Proof.
  apply (@verifyOwner_accepting_trace deps client start).
  vm_compute. reflexivity.
Defined.

(** Three toy owners: one omits the nonce claim, one the owner-key claim,
    one signs badly. *)
Lemma helloDevice_rejects_bad_header_witness :
  snd (helloDevice
         (TO2ExtraFixture.depsWith (TO2ExtraFixture.headerWith []) true None
            TO2ExtraFixture.twoChunkPipe None) client start)
  = Err "nonce unprotected header missing from TO2.ProveOVHdr response message"
  /\ snd (helloDevice
            (TO2ExtraFixture.depsWith
               (TO2ExtraFixture.headerWith [(to2NonceClaim, ["011"%byte])])
               true None TO2ExtraFixture.twoChunkPipe None) client start)
     = Err "owner pubkey unprotected header missing from TO2.ProveOVHdr response message"
  /\ snd (helloDevice
            (TO2ExtraFixture.depsWith (TO2Fixture.toyProveOVHdr 1) false None
               TO2ExtraFixture.twoChunkPipe None) client start)
     = Err (wrap ErrCryptoVerifyFailed
              "TO2.ProveOVHdr payload signature verification failed").
Proof.
  split; [|split].
  - apply (proj1 (@helloDevice_rejects_bad_header
                    (TO2ExtraFixture.depsWith (TO2ExtraFixture.headerWith [])
                       true None TO2ExtraFixture.twoChunkPipe None)
                    client start
                    {| typ := 61; body := TO2Fixture.zeroNonce |}
                    (TO2ExtraFixture.headerWith [])
                    eq_refl eq_refl eq_refl eq_refl)).
    reflexivity.
  - apply (proj1 (proj2 (@helloDevice_rejects_bad_header
                    (TO2ExtraFixture.depsWith
                       (TO2ExtraFixture.headerWith
                          [(to2NonceClaim, ["011"%byte])])
                       true None TO2ExtraFixture.twoChunkPipe None)
                    client start
                    {| typ := 61; body := TO2Fixture.zeroNonce |}
                    (TO2ExtraFixture.headerWith
                       [(to2NonceClaim, ["011"%byte])])
                    eq_refl eq_refl eq_refl eq_refl)) ["011"%byte]);
      [vm_compute; discriminate | reflexivity | reflexivity].
  - apply (proj2 (proj2 (@helloDevice_rejects_bad_header
                    (TO2ExtraFixture.depsWith (TO2Fixture.toyProveOVHdr 1)
                       false None TO2ExtraFixture.twoChunkPipe None)
                    client start
                    {| typ := 61; body := TO2Fixture.zeroNonce |}
                    (TO2Fixture.toyProveOVHdr 1)
                    eq_refl eq_refl eq_refl eq_refl))
             ["011"%byte] TO2Fixture.keyOne ["001"%byte]);
      [vm_compute; discriminate | reflexivity | vm_compute; discriminate
      | reflexivity | reflexivity | reflexivity].
Defined.

(** With failing randomness the toy context comes back untouched. *)
Lemma proveDevice_updates_only_setup_nonce_witness :
  fst (snd (proveDevice
              (TO2ExtraFixture.depsWith (TO2Fixture.toyProveOVHdr 1) true
                 (Some "entropy exhausted") TO2ExtraFixture.twoChunkPipe None)
              client (TO2Fixture.toyInfo 1) start))
  = TO2Fixture.toyInfo 1
  /\ sent (fst (proveDevice
                  (TO2ExtraFixture.depsWith (TO2Fixture.toyProveOVHdr 1) true
                     (Some "entropy exhausted") TO2ExtraFixture.twoChunkPipe
                     None)
                  client (TO2Fixture.toyInfo 1) start))
     = sent start.
Proof.
  apply (proj2 (proj2 (@proveDevice_updates_only_setup_nonce
                  (TO2ExtraFixture.depsWith (TO2Fixture.toyProveOVHdr 1) true
                     (Some "entropy exhausted") TO2ExtraFixture.twoChunkPipe
                     None)
                  client (TO2Fixture.toyInfo 1) start))).
  vm_compute. discriminate.
Defined.

(** A device without HMAC support, and the toy owner announcing 512. *)
Lemma readyServiceInfo_result_witness :
  readyServiceInfo deps TO2ExtraFixture.clientWithoutHmac TO2Fixture.toyHeader
    start
  = (start,
     Err "error computing HMAC of ownership voucher header: unsupported algorithm")
  /\ exists replacementHmac size,
       sent (fst (readyServiceInfo
                    (TO2ExtraFixture.depsWith (TO2Fixture.toyProveOVHdr 1) true
                       None TO2ExtraFixture.twoChunkPipe None)
                    client TO2Fixture.toyHeader start))
       = (sent start ++
          [(to2DeviceServiceInfoReadyMsgType,
            DeviceServiceInfoReadyMsg replacementHmac size)])%list
       /\ Algorithm replacementHmac = HmacSha384Hash.
Proof.
  split.
  - apply (proj1 (@readyServiceInfo_result deps
                    TO2ExtraFixture.clientWithoutHmac TO2Fixture.toyHeader
                    start)).
    reflexivity.
  - destruct (proj2 (@readyServiceInfo_result
                       (TO2ExtraFixture.depsWith (TO2Fixture.toyProveOVHdr 1)
                          true None TO2ExtraFixture.twoChunkPipe None)
                       client TO2Fixture.toyHeader start) _ 512 eq_refl)
      as (h & size & resp & ann & Hh & Hsent & _).
    exists h, size. split; [exact Hsent|].
    vm_compute in Hh. injection Hh as <-. reflexivity.
Defined.

(** An idle round under a cancelled context, and one against the toy
    owner. *)
Lemma deviceServiceInfo_waits_only_when_idle_witness :
  let idle := {| s_IsMoreServiceInfo := false; s_ServiceInfo := [] |} in
  deviceServiceInfo
    (TO2ExtraFixture.depsWith (TO2Fixture.toyProveOVHdr 1) true None
       TO2ExtraFixture.twoChunkPipe (Some "context canceled"))
    client idle start
  = ({| sent := sent start; tick := S (tick start) |}, Err "context canceled")
  /\ exists resp,
       sent (fst (deviceServiceInfo deps client idle start))
       = (sent start ++
          [(to2DeviceServiceInfoMsgType, DeviceServiceInfoMsg idle)])%list
       /\ Transport_Send client
            (sent (fst (deviceServiceInfo deps client idle start))) = Ok resp
       /\ typ resp = to2OwnerServiceInfoMsgType.
Proof.
  intros idle. split.
  - apply (proj1 (@deviceServiceInfo_waits_only_when_idle
                    (TO2ExtraFixture.depsWith (TO2Fixture.toyProveOVHdr 1) true
                       None TO2ExtraFixture.twoChunkPipe
                       (Some "context canceled"))
                    client idle start));
      reflexivity.
  - destruct (proj2 (@deviceServiceInfo_waits_only_when_idle deps client idle
                       start) _ _ eq_refl)
      as (resp & Hsent & Hresp & Htyp & _).
    exists resp. repeat split; assumption.
Defined.

(** Reading the two-chunk pipe with a budget of 2: the first chunk is
    taken, the second no longer fits. *)
Lemma readChunks_collects_in_order_witness :
  exists chunks,
    [TO2ExtraFixture.chunkA] = ([] ++ chunks)%list
    /\ (ReadChunk
          (TO2ExtraFixture.depsWith (TO2Fixture.toyProveOVHdr 1) true None
             TO2ExtraFixture.twoChunkPipe None)
          (tick start + List.length chunks)
          (budgetAfter
             (TO2ExtraFixture.depsWith (TO2Fixture.toyProveOVHdr 1) true None
                TO2ExtraFixture.twoChunkPipe None) 2 chunks)
        = ErrSizeTooSmall).
Proof.
  destruct (@readChunks_collects_in_order
              (TO2ExtraFixture.depsWith (TO2Fixture.toyProveOVHdr 1) true None
                 TO2ExtraFixture.twoChunkPipe None)
              3%nat 2
              {| s_IsMoreServiceInfo := false; s_ServiceInfo := [] |}
              {| s_IsMoreServiceInfo := true;
                 s_ServiceInfo := [TO2ExtraFixture.chunkA] |}
              start {| sent := []; tick := 2 |} eq_refl)
    as (chunks & Hinfo & _ & _ & _ & [[_ Hmore]|[Hend _]]).
  - discriminate Hmore.
  - exists chunks. split; [exact Hinfo | exact Hend].
Defined.


End Witnesses.

End TO2Extra.

(** ** The FSIM dispatcher *)

Module FSIMFacts.

Import FSIM.
Local Open Scope string_scope.

(** The key of a message is cut after the module name. *)
Lemma Cut_module_message (moduleName messageName : string) :
  snd (Cut moduleName) = false ->
  Cut (moduleName ++ ":" ++ messageName) = (moduleName, messageName, true).
Proof.
  induction moduleName as [|ch rest IH]; intros Hfree; [reflexivity|].
  cbn [Cut append] in *.
  destruct (Ascii.eqb ch ":"); [discriminate|].
  destruct (Cut rest) as [[before after] found]. cbn [snd] in *.
  rewrite IH by exact Hfree. reflexivity.
Qed.

Section Dispatcher.

Variable fsims : string -> option Module.
Variable sendNext : string -> string -> option string.

(** X16: the dispatcher looks a handler up under the whole key
    [module:message].  When no handler is registered under a name that
    contains a colon, no service info whose key contains one is ever
    handled: the dispatcher only closes the send pipe. *)
Theorem colon_free_registry_handles_nothing (recv : list (string * bytes)) :
  (forall key, snd (Cut key) = true -> fsims key = None) ->
  Forall (fun kv => snd (Cut (fst kv)) = true) recv ->
  handleFSIMs fsims sendNext recv = [Close].
Proof.
  intros Hreg Hkeys. unfold handleFSIMs.
  induction recv as [|[key info] recv IH]; [reflexivity|].
  inversion Hkeys as [|kv l Hkey Hrest]; subst.
  cbn [dispatch fst] in *. rewrite (Hreg key Hkey). now apply IH.
Qed.

(** X17: a handler registered under the full key [module:message], with a
    module name free of colons, is called with exactly [message] as the
    message name, colons in it included, before anything else happens. *)
Theorem handler_gets_text_after_first_colon
    (moduleName messageName : string) (fsim : Module) (info : bytes)
    (recv : list (string * bytes)) :
  snd (Cut moduleName) = false ->
  fsims (moduleName ++ ":" ++ messageName) = Some fsim ->
  exists rest,
    handleFSIMs fsims sendNext
      ((moduleName ++ ":" ++ messageName, info) :: recv)
    = (Handled (moduleName ++ ":" ++ messageName) messageName
       :: respond sendNext (fst (HandleFSIM fsim messageName info))
       ++ rest)%list.
Proof.
  intros Hfree Hreg. unfold handleFSIMs. cbn [dispatch].
  rewrite Hreg, Cut_module_message by exact Hfree.
  destruct (HandleFSIM fsim messageName info) as [calls err].
  cbn [fst]. eexists. cbn [app]. rewrite <- app_assoc. reflexivity.
Qed.

Lemma respond_never_closes (calls : list (string * string)) :
  ~ In Close (respond sendNext calls).
Proof.
  induction calls as [|[m n] calls IH]; [tauto|].
  cbn [respond]. intros [H|H]; [discriminate|].
  apply in_app_or in H as [H|H]; [|tauto].
  destruct (sendNext m n); cbn in H; intuition discriminate.
Qed.

Lemma dispatch_never_closes (recv : list (string * bytes)) :
  ~ In Close (dispatch fsims sendNext recv).
Proof.
  induction recv as [|[key info] recv IH]; [tauto|].
  cbn [dispatch]. destruct (fsims key) as [fsim|]; [|assumption].
  destruct (Cut key) as [[before messageName] found].
  destruct (HandleFSIM fsim messageName info) as [calls [e|]];
    intros [H|H]; try discriminate;
    apply in_app_or in H as [H|H];
    try (now apply respond_never_closes in H);
    [cbn in H; intuition discriminate | tauto].
Qed.

(** Up to the first handler that returns an error, the service info that
    follows changes nothing. *)
Lemma dispatch_stops (before after : list (string * bytes)) (key : string)
    (info : bytes) (fsim : Module) (e : string) :
  fsims key = Some fsim ->
  snd (HandleFSIM fsim (snd (fst (Cut key))) info) = Some e ->
  dispatch fsims sendNext (before ++ (key, info) :: after)
  = dispatch fsims sendNext (before ++ [(key, info)]).
Proof.
  intros Hreg Herr.
  induction before as [|[k i] before IH].
  - cbn [app dispatch]. rewrite Hreg.
    destruct (Cut key) as [[b messageName] found]. cbn [fst snd] in Herr.
    destruct (HandleFSIM fsim messageName info) as [calls err].
    cbn [snd] in Herr. subst err. reflexivity.
  - cbn [app dispatch]. destruct (fsims k) as [f|]; [|exact IH].
    destruct (Cut k) as [[bk mk] fk].
    destruct (HandleFSIM f mk i) as [calls [e'|]]; [reflexivity|].
    now rewrite IH.
Qed.

(** A loop that meets a failing handler ends with [CloseWithError]. *)
Lemma dispatch_ends_with_error (before : list (string * bytes))
    (key : string) (info : bytes) (fsim : Module) (e : string) :
  fsims key = Some fsim ->
  snd (HandleFSIM fsim (snd (fst (Cut key))) info) = Some e ->
  exists events e',
    dispatch fsims sendNext (before ++ [(key, info)])
    = (events ++ [CloseWithError e'])%list
    /\ (Forall (fun kv =>
                  forall f, fsims (fst kv) = Some f ->
                  snd (HandleFSIM f (snd (fst (Cut (fst kv)))) (snd kv))
                  = None) before ->
        e' = e).
Proof.
  intros Hreg Herr.
  induction before as [|[k i] before IH].
  - cbn [app dispatch]. rewrite Hreg.
    destruct (Cut key) as [[b messageName] found]. cbn [fst snd] in Herr.
    destruct (HandleFSIM fsim messageName info) as [calls err].
    cbn [snd] in Herr. subst err.
    exists (Handled key messageName :: respond sendNext calls), e.
    split; [|reflexivity]. cbn [app]. reflexivity.
  - destruct IH as (events & e' & Hrun & He').
    cbn [app dispatch]. destruct (fsims k) as [f|] eqn:Hk.
    + destruct (Cut k) as [[bk mk] fk] eqn:Hcut.
      destruct (HandleFSIM f mk i) as [calls [e0|]] eqn:Hhandle.
      * exists (Handled k mk :: respond sendNext calls), e0.
        split; [reflexivity|].
        intros Hquiet. inversion Hquiet as [|kv l Hhead Htail]; subst.
        specialize (Hhead f Hk). cbn [fst snd] in Hhead.
        rewrite Hcut in Hhead. cbn [fst snd] in Hhead.
        rewrite Hhandle in Hhead. discriminate.
      * exists (Handled k mk :: respond sendNext calls ++ events)%list, e'.
        split.
        -- rewrite Hrun. cbn [app]. now rewrite app_assoc.
        -- intros Hquiet. inversion Hquiet; subst. auto.
    + exists events, e'. split; [exact Hrun|].
      intros Hquiet. inversion Hquiet; subst. auto.
Qed.

(** X18: once a handler has returned an error, the service info that
    follows is never looked at, and the dispatcher ends by closing the
    send pipe twice: with the error ([CloseWithError]) and then, deferred,
    without ([Close]).  The error is that of the first failing handler. *)
Theorem dispatcher_stops_at_first_handler_error
    (before after : list (string * bytes)) (key : string) (info : bytes)
    (fsim : Module) (e : string) :
  fsims key = Some fsim ->
  snd (HandleFSIM fsim (snd (fst (Cut key))) info) = Some e ->
  handleFSIMs fsims sendNext (before ++ (key, info) :: after)
  = handleFSIMs fsims sendNext (before ++ [(key, info)])
  /\ exists events e',
       handleFSIMs fsims sendNext (before ++ (key, info) :: after)
       = (events ++ [CloseWithError e'; Close])%list
       /\ ~ In Close events
       /\ (Forall (fun kv =>
                     forall f, fsims (fst kv) = Some f ->
                     snd (HandleFSIM f (snd (fst (Cut (fst kv)))) (snd kv))
                     = None) before ->
           e' = e).
Proof.
  intros Hreg Herr. unfold handleFSIMs.
  rewrite (@dispatch_stops before after key info fsim e Hreg Herr).
  split; [reflexivity|].
  destruct (@dispatch_ends_with_error before key info fsim e Hreg Herr)
    as (events & e' & Hrun & He').
  exists events, e'. split; [|split].
  - rewrite Hrun, <- app_assoc. reflexivity.
  - intros Hin.
    apply (@dispatch_never_closes (before ++ [(key, info)])).
    rewrite Hrun. apply in_or_app. now left.
  - exact He'.
Qed.

End Dispatcher.

(** A registry keyed by module name never sees [echo:ping]. *)
Lemma colon_free_registry_handles_nothing_witness :
  handleFSIMs ExtraFixture.byModuleName (fun _ _ => None)
    [("echo:ping", ["066"%byte]); ("echo:ping", ["067"%byte])]
  = [Close].
Proof.
  apply colon_free_registry_handles_nothing.
  - intros key Hcolon. unfold ExtraFixture.byModuleName.
    destruct (String.eqb_spec key "echo") as [->|]; [discriminate|reflexivity].
  - repeat constructor.
Defined.

(** A registry keyed by the full key hands [ping:now] to the handler of
    [echo:ping:now]. *)
Lemma handler_gets_text_after_first_colon_witness :
  exists rest,
    handleFSIMs (fun key => if String.eqb key "echo:ping:now"
                            then Some ExtraFixture.echoModule else None)
      (fun _ _ => None) [("echo:ping:now", ["066"%byte])]
    = (Handled "echo:ping:now" "ping:now"
       :: respond (fun _ _ => None) [("echo", "pong")] ++ rest)%list.
Proof.
  apply (@handler_gets_text_after_first_colon
           (fun key => if String.eqb key "echo:ping:now"
                       then Some ExtraFixture.echoModule else None)
           (fun _ _ => None) "echo" "ping:now" ExtraFixture.echoModule
           ["066"%byte] []);
    reflexivity.
Defined.

(** After the failing [fs:write] the second [echo:ping] is not handled,
    and the pipe is closed with the handler's error and closed again. *)
Lemma dispatcher_stops_at_first_handler_error_witness :
  handleFSIMs ExtraFixture.byFullKey (fun _ _ => None)
    ([("echo:ping", ["066"%byte])]
     ++ ("fs:write", ["001"%byte]) :: [("echo:ping", ["067"%byte])])
  = [Handled "echo:ping" "ping"; NextServiceInfo "echo" "pong";
     Handled "fs:write" "write"; CloseWithError "disk full"; Close]
  /\ exists events e',
       handleFSIMs ExtraFixture.byFullKey (fun _ _ => None)
         ([("echo:ping", ["066"%byte])]
          ++ ("fs:write", ["001"%byte]) :: [("echo:ping", ["067"%byte])])
       = (events ++ [CloseWithError e'; Close])%list
       /\ ~ In Close events
       /\ e' = "disk full".
Proof.
  pose proof (@dispatcher_stops_at_first_handler_error
                ExtraFixture.byFullKey (fun _ _ => None)
                [("echo:ping", ["066"%byte])]
                [("echo:ping", ["067"%byte])]
                "fs:write" ["001"%byte] ExtraFixture.brokenModule
                "disk full" eq_refl eq_refl)
    as (Hstop & events & e' & Hrun & Hclose & He').
  split.
  - etransitivity; [exact Hstop|reflexivity].
  - exists events, e'. split; [exact Hrun|]. split; [exact Hclose|].
    apply He'. constructor; [|constructor].
    intros f Hf. vm_compute in Hf. injection Hf as <-. reflexivity.
Defined.

End FSIMFacts.

(** ** The message type in the request path *)

Module HTTPFacts.

Import HTTP.
Local Open Scope string_scope.

Lemma all_types_round_trip : forallb roundTrips (seq 0 256) = true.
Proof. vm_compute. reflexivity. Qed.

(** X19: every message type from 0 to 255 is read back from its own path:
    a POST to [/fdo/101/msg/<t>], with [t] in decimal, is accepted as
    message type [t] and nothing is written to the response. *)
Theorem msgTypeFromPath_round_trip (t : N) :
  (t <= 255)%N ->
  msgTypeFromPath MethodPost ("/fdo/101/msg/" ++ decimal t)
  = (Nothing, (Z.of_N t, true)).
Proof.
  intros Ht.
  pose proof all_types_round_trip as Hall.
  rewrite forallb_forall in Hall.
  specialize (Hall (N.to_nat t)).
  assert (Hin : In (N.to_nat t) (seq 0 256)) by (apply in_seq; lia).
  apply Hall in Hin. unfold roundTrips in Hin.
  rewrite N2Nat.id in Hin.
  destruct (msgTypeFromPath _ _) as [[] [z []]]; try discriminate.
  apply Z.eqb_eq in Hin. rewrite Hin. do 2 f_equal. lia.
Qed.

Lemma parseDigits_ge (s : string) :
  forall acc n, parseDigits s acc = Some n -> (acc <= n)%N.
Proof.
  induction s as [|ch s IH]; intros acc n H; cbn in H.
  - injection H as <-. lia.
  - destruct (digit ch) as [v|]; [|discriminate].
    apply IH in H. lia.
Qed.

(** X20: a request is accepted only if it is a POST whose path, after the
    prefix is cut off, contains no slash and is a decimal numeral of at
    most 255, and then nothing is written and the type returned is that
    number; a rejected request always returns type 0 and always writes a
    status or an error. *)
Theorem msgTypeFromPath_accepts_only_bytes (method path : string)
    (w : Written) (t : Z) (ok : bool) :
  msgTypeFromPath method path = (w, (t, ok)) ->
  (ok = true ->
   w = Nothing /\ method = MethodPost /\ (0 <= t <= 255)%Z
   /\ ContainsSlash (TrimPrefix path "/fdo/101/msg/") = false
   /\ ParseUint8 (TrimPrefix path "/fdo/101/msg/") = Some (Z.to_N t))
  /\ (ok = false -> t = 0%Z /\ w <> Nothing).
Proof.
  unfold msgTypeFromPath.
  destruct (String.eqb_spec method MethodPost) as [->|Hm]; cbn [negb].
  - destruct (ContainsSlash _) eqn:Hslash.
    + intros [= <- <- <-]. split; [discriminate|]. split; [reflexivity|discriminate].
    + destruct (ParseUint8 _) as [n|] eqn:Hparse.
      * intros [= <- <- <-]. split; [|discriminate]. intros _.
        rewrite N2Z.id. repeat split; try lia.
        unfold ParseUint8 in Hparse.
        destruct (TrimPrefix path "/fdo/101/msg/"); [discriminate|].
        destruct (parseDigits _ 0) as [m|]; [|discriminate].
        destruct (N.leb_spec m 255); [|discriminate].
        injection Hparse as <-. lia.
      * intros [= <- <- <-]. split; [discriminate|].
        split; [reflexivity|discriminate].
  - intros [= <- <- <-]. split; [discriminate|].
    split; [reflexivity|discriminate].
Qed.

Lemma ContainsSlash_app (a b : string) :
  ContainsSlash (a ++ String "/" b) = true.
Proof.
  induction a as [|ch a IH]; [reflexivity|].
  cbn [append ContainsSlash]. rewrite IH. apply Bool.orb_true_r.
Qed.

Lemma stripPrefix_app (prefix s : string) :
  stripPrefix prefix (prefix ++ s) = Some s.
Proof.
  induction prefix as [|ch prefix IH]; [reflexivity|].
  cbn [append stripPrefix]. now rewrite Ascii.eqb_refl.
Qed.

(** X21: a request that is not a POST is answered 405 whatever its path;
    a POST to an absolute path outside [/fdo/101/msg/] is answered 404,
    and so is a POST to anything deeper than one segment below it. *)
Theorem msgTypeFromPath_rejections :
  (forall method path,
     method <> MethodPost ->
     msgTypeFromPath method path = (StatusMethodNotAllowed, (0%Z, false)))
  /\ (forall rest,
        stripPrefix "/fdo/101/msg/" (String "/" rest) = None ->
        msgTypeFromPath MethodPost (String "/" rest)
        = (StatusNotFound, (0%Z, false)))
  /\ (forall segment rest,
        msgTypeFromPath MethodPost
          ("/fdo/101/msg/" ++ segment ++ "/" ++ rest)
        = (StatusNotFound, (0%Z, false))).
Proof.
  split; [|split].
  - intros method path Hm. unfold msgTypeFromPath.
    destruct (String.eqb_spec method MethodPost); [contradiction|reflexivity].
  - intros rest Hout. unfold msgTypeFromPath, TrimPrefix.
    rewrite Hout. reflexivity.
  - intros segment rest. unfold msgTypeFromPath, TrimPrefix.
    rewrite stripPrefix_app, String.eqb_refl. cbn [negb].
    change ("/" ++ rest) with (String "/" rest).
    now rewrite ContainsSlash_app.
Qed.

(** The path of TO2.Done2. *)
Lemma msgTypeFromPath_round_trip_witness :
  msgTypeFromPath "POST" "/fdo/101/msg/71" = (Nothing, (71%Z, true)).
Proof.
  apply (@msgTypeFromPath_round_trip 71%N). vm_compute. discriminate.
Defined.

(** An accepted path with leading zeros. *)
Lemma msgTypeFromPath_accepts_only_bytes_witness :
  Nothing = Nothing /\ "POST" = MethodPost /\ (0 <= 60 <= 255)%Z
  /\ ContainsSlash (TrimPrefix "/fdo/101/msg/060" "/fdo/101/msg/") = false
  /\ ParseUint8 (TrimPrefix "/fdo/101/msg/060" "/fdo/101/msg/")
     = Some (Z.to_N 60).
Proof.
  apply (proj1 (@msgTypeFromPath_accepts_only_bytes
                  "POST" "/fdo/101/msg/060" Nothing 60%Z true eq_refl)).
  reflexivity.
Defined.

(** A GET, a path elsewhere on the server, and a path one level too deep. *)
Lemma msgTypeFromPath_rejections_witness :
  msgTypeFromPath "GET" "/fdo/101/msg/60"
  = (StatusMethodNotAllowed, (0%Z, false))
  /\ msgTypeFromPath "POST" "/health" = (StatusNotFound, (0%Z, false))
  /\ msgTypeFromPath "POST" "/fdo/101/msg/60/extra"
     = (StatusNotFound, (0%Z, false)).
Proof.
  destruct msgTypeFromPath_rejections as (Hmethod & Houtside & Hdeep).
  split; [|split].
  - apply Hmethod. discriminate.
  - apply Houtside. reflexivity.
  - exact (Hdeep "60" "extra").
Defined.

End HTTPFacts.

(** ** The plugin device module *)

Module PluginFacts.

Import Plugin.
Local Open Scope string_scope.

Section Module.

Variable env : Env.

(** Once [once] has fired, [Transition] changes nothing and reports the
    stored error to every activation. *)
Lemma Transition_settled (m : PluginDeviceModule) (active : bool) :
  once m = true ->
  Transition env m active = (m, if active then err m else None).
Proof.
  intros Honce. unfold Transition. destruct active; cbn [negb]; [|reflexivity].
  now rewrite Honce.
Qed.

Lemma transitions_settled (actives : list bool) :
  forall m,
    once m = true ->
    transitions env m actives
    = (m, map (fun active : bool => if active then err m else None) actives).
Proof.
  induction actives as [|active actives IH]; intros m Honce; [reflexivity|].
  cbn [transitions map]. rewrite Transition_settled by assumption.
  now rewrite IH.
Qed.

(** The first activation of a fresh module starts the plugin. *)
Lemma Transition_first :
  Transition env new true
  = (match Start env 0 with
     | Some e => {| once := true; proto := false; err := Some e;
                    events := [Started] |}
     | None => {| once := true; proto := true; err := None;
                  events := [Started] |}
     end, Start env 0).
Proof. unfold Transition. cbn. destruct (Start env 0); reflexivity. Qed.

(** What a run of [Transition] calls leaves of a fresh module. *)
Lemma transitions_from_new (actives : list bool) :
  let m := fst (transitions env new actives) in
  let started := existsb (fun active : bool => active) actives in
  snd (transitions env new actives)
  = map (fun active : bool => if active then Start env 0 else None) actives
  /\ events m = (if started then [Started] else [])
  /\ proto m = started && match Start env 0 with
                          | None => true
                          | Some _ => false
                          end
  /\ err m = (if started then Start env 0 else None).
Proof.
  cbv zeta.
  induction actives as [|[|] actives IH].
  - cbn. repeat split.
  - cbn [transitions existsb orb]. rewrite Transition_first.
    destruct (Start env 0) as [e|] eqn:Hstart;
      rewrite transitions_settled by reflexivity; cbn; repeat split.
  - cbn [transitions existsb orb].
    change (Transition env new false) with (new, @None string).
    cbv iota beta.
    destruct (transitions env new actives) as [m rs]. cbn [fst snd map] in *.
    destruct IH as (Hrs & Hev & Hproto & Herr).
    rewrite Hrs. repeat split; assumption.
Qed.

(** X22: over any sequence of [Transition] calls on a fresh module the
    plugin is started at most once, by the first activating call, and
    never by a deactivating one.  Every activating call returns the
    outcome of that one start, every deactivating call returns nil, and
    the module ends up with a protocol exactly when there was an
    activation and no error is stored. *)
Theorem plugin_started_at_most_once (actives : list bool) :
  let m := fst (transitions env new actives) in
  let started := existsb (fun active : bool => active) actives in
  snd (transitions env new actives)
  = map (fun active : bool => if active then Start env 0 else None) actives
  /\ events m = (if started then [Started] else [])
  /\ (proto m = true <-> started = true /\ err m = None).
Proof.
  cbv zeta.
  destruct (transitions_from_new actives) as (Hrs & Hev & Hproto & Herr).
  split; [exact Hrs|]. split; [exact Hev|].
  rewrite Hproto, Herr.
  destruct (existsb _ actives), (Start env 0); cbn;
    split; first [discriminate | intros [H1 H2]; discriminate | auto].
Qed.

(** X23: a module that was never activated, or whose plugin failed to
    start, refuses [Receive] and [Yield] with the not-activated error and
    does not touch the plugin, however often [Transition] is called. *)
Theorem unstarted_plugin_is_refused (actives : list bool)
    (moduleName messageName : string) (messageBody : bytes) :
  existsb (fun active : bool => active) actives = false
  \/ Start env 0 <> None ->
  let m := fst (transitions env new actives) in
  Receive env m moduleName messageName messageBody
  = (m, Err "plugin module not activated")
  /\ Yield env m = (m, Err "plugin module not activated").
Proof.
  intros Hcase. cbv zeta.
  destruct (transitions_from_new actives) as (_ & _ & Hproto & _).
  assert (Hnil : proto (fst (transitions env new actives)) = false).
  { rewrite Hproto. destruct Hcase as [->|Hfail]; [reflexivity|].
    destruct (Start env 0); [apply Bool.andb_false_r|contradiction]. }
  unfold Receive, Yield. rewrite Hnil. split; reflexivity.
Qed.

(** X24: one call of [Yield] on an activated module sends one yield
    command and then reads at most one command from the plugin, whatever
    that is.  It calls [yield] exactly when that command is a break, and
    [respond] exactly when it is a key carrying a message, in which case
    it returns after that one message without reading on. *)
Theorem Yield_reads_one_command (m : PluginDeviceModule) :
  proto m = true ->
  let n := List.length (events m) in
  let m' := fst (Yield env m) in
  exists added,
    events m' = (events m ++ Sent dYield None :: added)%list
    /\ (List.length (filter (fun e => match e with Received => true
                                            | _ => false end) added) <= 1)%nat
    /\ (In Yielded added
        <-> protoSend env n dYield None = None
            /\ exists param, protoRecv env (S n) = Ok (dBreak, param))
    /\ (forall message,
          In (Responded message) added
          <-> protoSend env n dYield None = None
              /\ protoRecv env (S n) = Ok (dKey, Some message)).
Proof.
  intros Hproto. cbv zeta. unfold Yield. rewrite Hproto. cbn [negb].
  assert (Hlen : List.length (events (log m (Sent dYield None)))
                 = S (List.length (events m)))
    by (cbn; rewrite length_app; cbn; lia).
  rewrite Hlen.
  destruct (protoSend env _ dYield None) as [e|] eqn:Hsend.
  - exists []. cbn. repeat split; try lia; try tauto;
      try (intros [H _]; discriminate).
  - destruct (protoRecv env _) as [[[| | |c] param]|e|e] eqn:Hrecv.
    + destruct param as [message|].
      * destruct (protoDecodeValue env _) as [val|e|e];
          [destruct (cborEncode env _ val)| |];
          cbn [fst log events]; rewrite <- !app_assoc; cbn [app];
          eexists; (split; [reflexivity|]); cbn; (split; [lia|]);
          (split; [split; [intuition discriminate
                          |intros [_ [p Hp]]; discriminate]|]);
          intros msg; (split; [intros H; split; [reflexivity|];
                                 intuition congruence
                              |intros [_ [= ->]]; auto]).
      * cbn [fst log events]. rewrite <- !app_assoc. cbn [app].
        eexists. split; [reflexivity|]. cbn. split; [lia|].
        split; [split; [intuition discriminate
                       |intros [_ [p Hp]]; discriminate]|].
        intros msg. split; [intuition discriminate|intros [_ H]; discriminate].
    + cbn [fst log events]. rewrite <- !app_assoc. cbn [app].
      eexists. split; [reflexivity|]. cbn. split; [lia|].
      split; [split; [intuition discriminate
                     |intros [_ [p Hp]]; discriminate]|].
      intros msg. split; [intuition discriminate|intros [_ H]; discriminate].
    + cbn [fst log events]. rewrite <- !app_assoc. cbn [app].
      eexists. split; [reflexivity|]. cbn. split; [lia|].
      split; [split; [eauto|auto]|].
      intros msg. split; [intuition discriminate|intros [_ H]; discriminate].
    + cbn [fst log events]. rewrite <- !app_assoc. cbn [app].
      eexists. split; [reflexivity|]. cbn. split; [lia|].
      split; [split; [intuition discriminate
                     |intros [_ [p Hp]]; discriminate]|].
      intros msg. split; [intuition discriminate|intros [_ H]; discriminate].
    + cbn [fst log events]. rewrite <- !app_assoc. cbn [app].
      eexists. split; [reflexivity|]. cbn. split; [lia|].
      split; [split; [intuition discriminate
                     |intros [_ [p Hp]]; discriminate]|].
      intros msg. split; [intuition discriminate|intros [_ H]; discriminate].
    + cbn [fst log events]. rewrite <- !app_assoc. cbn [app].
      eexists. split; [reflexivity|]. cbn. split; [lia|].
      split; [split; [intuition discriminate
                     |intros [_ [p Hp]]; discriminate]|].
      intros msg. split; [intuition discriminate|intros [_ H]; discriminate].
Qed.

End Module.

(** A plugin whose executable is missing, activated twice. *)
Lemma unstarted_plugin_is_refused_witness :
  let env := ExtraFixture.pluginEnv (Some "exec: not found") (dYield, None) in
  let m := fst (transitions env new [true; false; true]) in
  Receive env m "fdo.download" "name" ["001"%byte]
  = (m, Err "plugin module not activated")
  /\ Yield env m = (m, Err "plugin module not activated").
Proof.
  apply (@unstarted_plugin_is_refused
           (ExtraFixture.pluginEnv (Some "exec: not found") (dYield, None))
           [true; false; true] "fdo.download" "name" ["001"%byte]).
  right. discriminate.
Defined.

(** A started plugin that answers the yield with the key [pong]. *)
Lemma Yield_reads_one_command_witness :
  let env := ExtraFixture.pluginEnv None (dKey, Some "pong") in
  let m := fst (transitions env new [true]) in
  exists added,
    events (fst (Yield env m))
    = (events m ++ Sent dYield None :: added)%list
    /\ In (Responded "pong") added
    /\ ~ In Yielded added.
Proof.
  intros env m.
  destruct (@Yield_reads_one_command env m eq_refl)
    as (added & Hev & _ & Hyield & Hrespond).
  exists added. split; [exact Hev|]. split.
  - apply Hrespond. split; reflexivity.
  - intros H. apply Hyield in H as (_ & param & H). discriminate H.
Defined.

End PluginFacts.
